(** * CleanMyPC: a shallow embedding of the cleanup engine

    The engine is a set of TypeScript classes ([BaseCleaner] and its
    subclasses, [CleanupManager], [ConfigManager]) that talk to the
    file system through Node's [fs]/[fs-extra], [path] and [fast-glob].
    The embedding keeps that layering:

    - JavaScript exceptions and [try { } catch { }] are an error monad
      threaded through an explicit world (file system + the cleaner's
      [errors] array);
    - the file-system calls the engine makes are an interface
      ([NodeFS]); every general theorem is proved for an arbitrary
      implementation of the interface;
    - [MemFS] is one concrete, executable implementation (a finite map
      from absolute paths to nodes) on which scenarios are evaluated. *)

From Stdlib Require Import ZArith Lia Ascii String DecimalString.
From stdpp Require Import base list strings gmap sorting.

Local Open Scope string_scope.
Local Open Scope list_scope.
Local Open Scope Z_scope.

(** ** JavaScript values the engine manipulates *)

(** What a [catch (error)] clause can receive: an [Error] object with its
    [message], or any other thrown value. *)
Inductive exn : Type :=
  | Error (message : string)
  | Thrown.

(** [error instanceof Error ? error.message : 'Unknown error'] *)
Definition errMessage (error : exn) : string :=
  match error with
  | Error message => message
  | Thrown => "Unknown error"
  end.

Inductive Result (A : Type) : Type :=
  | Ok (a : A)
  | Throw (e : exn).
Arguments Ok {A} a.
Arguments Throw {A} e.

(** ** The exception-and-state monad

    A computation starts in a state and either finishes, normally or by
    throwing, in a new state, or does not finish ([None]): [while] loops
    and unbounded recursion are run with a step budget. *)

Definition M (S A : Type) : Type := S -> option (Result A * S).

Definition ret {S A : Type} (a : A) : M S A := fun s => Some (Ok a, s).

Definition throw {S A : Type} (e : exn) : M S A := fun s => Some (Throw e, s).

Definition diverge {S A : Type} : M S A := fun _ => None.

Definition bind {S A B : Type} (m : M S A) (k : A -> M S B) : M S B :=
  fun s =>
    match m s with
    | Some (Ok a, s') => k a s'
    | Some (Throw e, s') => Some (Throw e, s')
    | None => None
    end.

(** [try { body } catch (error) { handler }]: the state reached when the
    exception was thrown is the state the handler starts from. *)
Definition try_catch {S A : Type} (body : M S A) (handler : exn -> M S A) : M S A :=
  fun s =>
    match body s with
    | Some (Ok a, s') => Some (Ok a, s')
    | Some (Throw e, s') => handler e s'
    | None => None
    end.

Declare Scope js_scope.
Delimit Scope js_scope with js.
Notation "x <- c1 ;; c2" := (bind c1 (fun x => c2))
  (at level 100, c1 at next level, right associativity) : js_scope.
Notation "c1 ;; c2" := (bind c1 (fun _ => c2))
  (at level 100, right associativity) : js_scope.
Local Open Scope js_scope.

(** [for (const x of xs) { body(x) }] *)
Fixpoint for_of {S A : Type} (xs : list A) (body : A -> M S unit) : M S unit :=
  match xs with
  | [] => ret tt
  | x :: rest => body x ;; for_of rest body
  end.

(** Local variables of a method ([let filesDeleted = 0], the array a
    caller passes by reference): they sit next to the world while the
    method runs, and survive a [throw] inside a [try] of the method. *)
Definition with_locals {S L A : Type} (init : L) (body : M (S * L) A) : M S A :=
  fun s =>
    match body (s, init) with
    | Some (r, (s', _)) => Some (r, s')
    | None => None
    end.

Definition lift {S L A : Type} (m : M S A) : M (S * L) A :=
  fun sl =>
    match m (fst sl) with
    | Some (r, s') => Some (r, (s', snd sl))
    | None => None
    end.

Definition local_get {S L : Type} : M (S * L) L :=
  fun sl => Some (Ok (snd sl), sl).

Definition local_modify {S L : Type} (f : L -> L) : M (S * L) unit :=
  fun sl => Some (Ok tt, (fst sl, f (snd sl))).

(** ** String helpers ([String.prototype] and Node's [path]) *)

(** [s.startsWith(p)] *)
Definition startsWith (s p : string) : bool := String.prefix p s.

(** [s.includes(sub)] *)
Fixpoint includes (s sub : string) : bool :=
  String.prefix sub s ||
  match s with
  | EmptyString => false
  | String _ rest => includes rest sub
  end.

Definition lower_ascii (c : ascii) : ascii :=
  let n := nat_of_ascii c in
  if (65 <=? n)%nat && (n <=? 90)%nat then ascii_of_nat (n + 32) else c.

(** [s.toLowerCase()] for a string of ASCII characters: only the letters
    [A] to [Z] change. JavaScript also folds the letters outside ASCII,
    which this function leaves as they are; statements that depend on
    the case of a string assume it is ASCII ([ascii_only]). *)
Fixpoint toLowerCase (s : string) : string :=
  match s with
  | EmptyString => EmptyString
  | String c rest => String (lower_ascii c) (toLowerCase rest)
  end.

(** ** Platform and Node's [path] *)

Inductive OS : Type := windows | macos | linux.

Definition path_sep (os : OS) : ascii :=
  match os with
  | windows => "\"%char
  | _ => "/"%char
  end.

Fixpoint last_char (s : string) : option ascii :=
  match s with
  | EmptyString => None
  | String c EmptyString => Some c
  | String _ rest => last_char rest
  end.

Definition ends_with_sep (os : OS) (s : string) : bool :=
  match last_char s with
  | Some c => Ascii.eqb c (path_sep os)
  | None => false
  end.

(** [path.join(dir, name)] where there is nothing to normalise: [dir]
    holds no [.] or [..] segment and no doubled separator, and [name]
    is a name, or a pattern the cleaners append, that holds none
    either. Empty arguments are ignored as [path.join] does. For paths
    and names that come from the configuration the statements assume
    this form ([normal_path], [plain_segment]). *)
Definition path_join (os : OS) (dir name : string) : string :=
  if String.eqb dir "" then name
  else if String.eqb name "" then dir
  else if ends_with_sep os dir then dir +:+ name
  else dir +:+ String (path_sep os) name.

(** [path.join(a, b, c, ...)] *)
Definition path_joins (os : OS) (segments : list string) : string :=
  fold_left (path_join os) segments "".

Definition is_sep (os : OS) (c : ascii) : bool :=
  Ascii.eqb c "/" ||
  match os with
  | windows => Ascii.eqb c "\"
  | _ => false
  end.

Fixpoint basename_from (os : OS) (p current : string) : string :=
  match p with
  | EmptyString => current
  | String c rest =>
      if is_sep os c then basename_from os rest ""
      else basename_from os rest (current +:+ String c "")
  end.

(** [path.basename(p)] for a path that does not end in a separator. *)
Definition basename (os : OS) (p : string) : string := basename_from os p "".

Fixpoint string_drop (n : nat) (s : string) : string :=
  match n, s with
  | O, _ => s
  | S n', String _ rest => string_drop n' rest
  | S _, EmptyString => EmptyString
  end.

Fixpoint string_take (n : nat) (s : string) : string :=
  match n, s with
  | S n', String c rest => String c (string_take n' rest)
  | _, _ => EmptyString
  end.

(** Index of the last ["."] of [s]. *)
Fixpoint last_dot (s : string) : option nat :=
  match s with
  | EmptyString => None
  | String c rest =>
      match last_dot rest with
      | Some i => Some (S i)
      | None => if Ascii.eqb c "." then Some O else None
      end
  end.

(** [path.extname(base)] for a name without separators: from the last
    dot on, and empty when there is no dot, when the only dot leads the
    name, or when the name is [..]. *)
Definition extname (base : string) : string :=
  match last_dot base with
  | None => ""
  | Some O => ""
  | Some i => if String.eqb base ".." then "" else string_drop i base
  end.

(** [path.parse(base).name]: the name without its [extname]. *)
Definition parse_name (base : string) : string :=
  string_take (String.length base - String.length (extname base)) base.

(** [`${counter}`] *)
Definition show_nat (n : nat) : string := NilZero.string_of_uint (Nat.to_uint n).

(** ** The file-system interface *)

(** The fields of [fs.Stats] the engine reads. *)
Record Stats : Type := mkStats {
  st_size : Z;
  st_mtime : Z;            (* [stats.mtime.getTime()], milliseconds *)
  st_isDirectory : bool
}.

(** [fs.Dirent], from [readdir(..., { withFileTypes: true })]. *)
Record Dirent : Type := mkDirent {
  d_name : string;
  d_isFile : bool;
  d_isDirectory : bool
}.

Inductive AccessMode : Type := F_OK | W_OK.

(** The [onlyFiles] / [onlyDirectories] option of fast-glob. *)
Inductive GlobKind : Type := onlyFiles | onlyDirectories.

(** The calls of [fs-extra] and [fast-glob] the engine makes. Reads cannot
    change the file system; writes return the file system they leave
    behind, also when they throw. *)
Class NodeFS (FS : Type) : Type := {
  fs_stat : string -> FS -> Result Stats;
  fs_access : string -> AccessMode -> FS -> Result unit;
  fs_readdir : string -> FS -> Result (list Dirent);
  fs_remove : string -> FS -> Result unit * FS;
  fs_ensureDir : string -> FS -> Result unit * FS;
  fs_move : string -> string -> FS -> Result unit * FS;
  (* glob(patterns, { ignore, absolute: true, onlyFiles | onlyDirectories }) *)
  fast_glob : list string -> list string -> GlobKind -> FS -> Result (list string)
}.

(** A cleaner's view of the world: the file system and its own
    [errors: string[]]. *)
Record World (FS : Type) : Type := mkWorld {
  fs : FS;
  errors : list string
}.
Arguments mkWorld {FS} fs errors.
Arguments fs {FS} w.
Arguments errors {FS} w.

(** ** Configuration and results *)

Record Browsers : Type := mkBrowsers {
  chrome : bool; firefox : bool; edge : bool; safari : bool
}.

Record OrganizeDownloads : Type := mkOrganizeDownloads {
  enabled : bool;
  (* [Object.entries(categories)]: the entries in iteration order *)
  categories : list (string * list string)
}.

Record CleanupConfig : Type := mkConfig {
  largeFileThreshold : Z;
  customTempPaths : list string;
  customCachePaths : list string;
  downloadsPath : string;
  exclusions : list string;
  browsers : Browsers;
  organizeDownloads : OrganizeDownloads;
  confirmDeletions : bool;
  backupBeforeDelete : bool;
  maxFileAge : Z
}.

(** What [OSDetector] and [Date.now()] report during one run. *)
Record Platform : Type := mkPlatform {
  getOS : OS;
  getHomeDirectory : string;
  getTempDirectory : string;
  Date_now : Z;
  (* [process.env.LOCALAPPDATA || ''], [process.env.APPDATA || ''] *)
  env_LOCALAPPDATA : string;
  env_APPDATA : string
}.

(** [CleanupResult] of CleanupManager.ts. *)
Record CleanupResult : Type := mkResult {
  task : string;
  filesDeleted : Z;
  spaceSaved : Z;
  filesOrganized : option Z;
  largeFiles : option (list (string * Z));
  result_errors : list string
}.

(** [{ deleted: boolean; size: number }] *)
Record DeleteResult : Type := mkDeleteResult {
  deleted : bool;
  dr_size : Z
}.

(** [{ filesDeleted: number; spaceSaved: number }] *)
Record Counts : Type := mkCounts {
  c_filesDeleted : Z;
  c_spaceSaved : Z
}.

(** ** BaseCleaner *)

Module BaseCleaner.
Section Methods.
Context {FS : Type} `{NodeFS FS}.
Variable config : CleanupConfig.
Variable dryRun : bool.
Variable platform : Platform.

Let os : OS := getOS platform.

Definition stat (p : string) : M (World FS) Stats :=
  fun w => Some (fs_stat p (fs w), w).

Definition access (p : string) (mode : AccessMode) : M (World FS) unit :=
  fun w => Some (fs_access p mode (fs w), w).

Definition readdir (p : string) : M (World FS) (list Dirent) :=
  fun w => Some (fs_readdir p (fs w), w).

Definition glob (patterns ignore : list string) (kind : GlobKind)
  : M (World FS) (list string) :=
  fun w => Some (fast_glob patterns ignore kind (fs w), w).

Definition write (op : FS -> Result unit * FS) : M (World FS) unit :=
  fun w => let '(r, fs') := op (fs w) in Some (r, mkWorld fs' (errors w)).

Definition remove (p : string) : M (World FS) unit := write (fs_remove p).
Definition ensureDir (p : string) : M (World FS) unit := write (fs_ensureDir p).
Definition move (src dest : string) : M (World FS) unit := write (fs_move src dest).

(** [this.errors.push(msg)] *)
Definition errors_push (msg : string) : M (World FS) unit :=
  fun w => Some (Ok tt, mkWorld (fs w) (errors w ++ [msg])).

(** [this.errors = []] *)
Definition clearErrors : M (World FS) unit :=
  fun w => Some (Ok tt, mkWorld (fs w) []).

(** [return [...this.errors]] *)
Definition getErrors : M (World FS) (list string) :=
  fun w => Some (Ok (errors w), w).

Definition getFileSize (filePath : string) : M (World FS) Z :=
  try_catch
    (stats <- stat filePath ;;
     ret (st_size stats))
    (fun _ => ret 0).

Definition deleteFile (filePath : string) : M (World FS) DeleteResult :=
  try_catch
    (size <- getFileSize filePath ;;
     (if negb dryRun then
        access filePath W_OK ;;
        remove filePath
      else ret tt) ;;
     ret (mkDeleteResult true size))
    (fun error =>
       errors_push ("Failed to delete " +:+ filePath +:+ ": " +:+ errMessage error) ;;
       ret (mkDeleteResult false 0)).

(** The recursive walk of [getDirectorySize]. [budget] bounds the nesting
    of the recursive calls; a walk that needs more does not finish. *)
Fixpoint getDirectorySize (budget : nat) (dirPath : string) : M (World FS) Z :=
  match budget with
  | O => diverge
  | S budget' =>
      try_catch
        (with_locals 0 (* let totalSize = 0 *)
           (items <- lift (readdir dirPath) ;;
            for_of items (fun item =>
              let itemPath := path_join os dirPath (d_name item) in
              stats <- lift (stat itemPath) ;;
              if st_isDirectory stats then
                sub <- lift (getDirectorySize budget' itemPath) ;;
                local_modify (fun totalSize => totalSize + sub)
              else
                local_modify (fun totalSize => totalSize + st_size stats)) ;;
            local_get))
        (fun _ => ret 0)
  end.

Definition deleteDirectory (budget : nat) (dirPath : string) : M (World FS) DeleteResult :=
  try_catch
    (size <- getDirectorySize budget dirPath ;;
     (if negb dryRun then remove dirPath else ret tt) ;;
     ret (mkDeleteResult true size))
    (fun error =>
       errors_push ("Failed to delete directory " +:+ dirPath +:+ ": " +:+ errMessage error) ;;
       ret (mkDeleteResult false 0)).

(** [pattern.replace(/\\/g, '/')] *)
Fixpoint normalizeSlashes (pattern : string) : string :=
  match pattern with
  | EmptyString => EmptyString
  | String c rest =>
      String (if Ascii.eqb c "\"%char then "/"%char else c) (normalizeSlashes rest)
  end.

Definition findFiles (patterns excludePatterns : list string) : M (World FS) (list string) :=
  try_catch
    (let normalizedPatterns := map normalizeSlashes patterns in
     let normalizedExcludes := map normalizeSlashes excludePatterns in
     let normalizedConfigExclusions := map normalizeSlashes (exclusions config) in
     files <- glob normalizedPatterns (normalizedExcludes ++ normalizedConfigExclusions) onlyFiles ;;
     ret files)
    (fun error =>
       errors_push ("Failed to find files: " +:+ errMessage error) ;;
       ret []).

Definition findDirectories (patterns excludePatterns : list string) : M (World FS) (list string) :=
  try_catch
    (dirs <- glob patterns (excludePatterns ++ exclusions config) onlyDirectories ;;
     ret dirs)
    (fun error =>
       errors_push ("Failed to find directories: " +:+ errMessage error) ;;
       ret []).

Definition isFileOldEnough (filePath : string) (maxAgeInDays : Z) : M (World FS) bool :=
  if maxAgeInDays =? 0 then ret true
  else
    try_catch
      (stats <- stat filePath ;;
       let fileAge := Date_now platform - st_mtime stats in
       let maxAge := maxAgeInDays * 24 * 60 * 60 * 1000 in
       ret (maxAge <? fileAge))
      (fun _ => ret false).

Definition pathExists (p : string) : M (World FS) bool :=
  try_catch
    (access p F_OK ;;
     ret true)
    (fun _ => ret false).

(** [isDirectoryEmpty], repeated in TempCleaner, CacheCleaner and
    TrashCleaner. *)
Definition isDirectoryEmpty (dirPath : string) : M (World FS) bool :=
  try_catch
    (items <- readdir dirPath ;;
     ret (bool_decide (length items = 0%nat)))
    (fun _ => ret false).

End Methods.
End BaseCleaner.
Import BaseCleaner.

(** [paths.filter(p => p)]: the empty string is the only falsy string. *)
Definition filter_truthy (paths : list string) : list string :=
  filter (fun p => p <> "") paths.

(** [filesDeleted++; spaceSaved += result.size] *)
Definition count_file (size : Z) (c : Counts) : Counts :=
  mkCounts (c_filesDeleted c + 1) (c_spaceSaved c + size).

(** [filesDeleted++] *)
Definition count_directory (c : Counts) : Counts :=
  mkCounts (c_filesDeleted c + 1) (c_spaceSaved c).

(** [filesDeleted += result.filesDeleted; spaceSaved += result.spaceSaved] *)
Definition add_counts (result : Counts) (c : Counts) : Counts :=
  mkCounts (c_filesDeleted c + c_filesDeleted result) (c_spaceSaved c + c_spaceSaved result).

(** ** TempCleaner *)

Module TempCleaner.
Section Methods.
Context {FS : Type} `{NodeFS FS}.
Variable config : CleanupConfig.
Variable dryRun : bool.
Variable platform : Platform.
Variable budget : nat.

Let os : OS := getOS platform.
Let join := path_joins os.

Definition getTempPaths : list string :=
  let homeDir := getHomeDirectory platform in
  let tempDir := getTempDirectory platform in
  let paths := [tempDir] in
  let paths :=
    match os with
    | windows =>
        paths ++ [join [env_LOCALAPPDATA platform; "Temp"];
                  join [env_APPDATA platform; "Local"; "Temp"];
                  "C:\Windows\Temp";
                  "C:\Windows\SoftwareDistribution\Download";
                  "C:\Windows\Prefetch"]
    | macos =>
        paths ++ ["/tmp"; join [homeDir; "Library"; "Caches"]; "/var/tmp"; "/private/tmp"]
    | linux =>
        paths ++ ["/tmp"; "/var/tmp"; join [homeDir; ".cache"]]
    end in
  let paths := paths ++ customTempPaths config in
  filter_truthy paths.

Definition tempFilePatterns (tempPath : string) : list string :=
  [ join [tempPath; "*.tmp"];
    join [tempPath; "*.temp"];
    join [tempPath; "*~"];
    join [tempPath; "*.log"];
    join [tempPath; "*.bak"];
    join [tempPath; "*.old"];
    join [tempPath; "*.cache"];
    join [tempPath; "**"; "*.tmp"];
    join [tempPath; "**"; "*.temp"];
    join [tempPath; "**"; "*.log"];
    join [tempPath; "**"; "*.cache"];
    join [tempPath; "**"; "*~"];
    join [tempPath; "Temporary Internet Files"; "**"; "*"];
    join [tempPath; "IETldCache"; "**"; "*"];
    join [tempPath; "chrome_*"; "**"; "*"];
    join [tempPath; "tmp*"; "**"; "*"];
    join [tempPath; "*_tmp"; "**"; "*"];
    join [tempPath; "*tmp*"];
    join [tempPath; "*temp*"];
    join [tempPath; "*cache*"] ].

(** The body of [for (const file of files)] in [cleanTempPath]. *)
Definition cleanTempFile (file : string) : M (World FS * Counts) unit :=
  oldEnough <- lift (isFileOldEnough platform file (maxFileAge config)) ;;
  if oldEnough : bool then
    result <- lift (deleteFile dryRun file) ;;
    if deleted result then local_modify (count_file (dr_size result)) else ret tt
  else ret tt.

(** The body of [for (const dir of dirs)]: an empty directory is removed
    and counted as one file. *)
Definition cleanEmptyDirectory (dir : string) : M (World FS * Counts) unit :=
  empty <- lift (isDirectoryEmpty dir) ;;
  if empty : bool then
    result <- lift (deleteDirectory dryRun platform budget dir) ;;
    if deleted result then local_modify count_directory else ret tt
  else ret tt.

Definition cleanTempPath (tempPath : string) : M (World FS) Counts :=
  with_locals (mkCounts 0 0)
    (try_catch
       (files <- lift (findFiles config (tempFilePatterns tempPath) []) ;;
        for_of files cleanTempFile ;;
        let tempDirPatterns := [join [tempPath; "*/"]] in
        dirs <- lift (findDirectories config tempDirPatterns []) ;;
        for_of dirs cleanEmptyDirectory)
       (fun error =>
          lift (errors_push ("Error cleaning temp path " +:+ tempPath +:+ ": " +:+ errMessage error))) ;;
     local_get).

Definition clean : M (World FS) CleanupResult :=
  clearErrors ;;
  totals <- with_locals (mkCounts 0 0)
    (for_of getTempPaths (fun tempPath =>
       there <- lift (pathExists tempPath) ;;
       if there : bool then
         result <- lift (cleanTempPath tempPath) ;;
         local_modify (add_counts result)
       else ret tt) ;;
     local_get) ;;
  errs <- getErrors ;;
  ret (mkResult "temp" (c_filesDeleted totals) (c_spaceSaved totals) None None errs).

End Methods.
End TempCleaner.
Import TempCleaner.

(** ** TrashCleaner *)

Module TrashCleaner.
Section Methods.
Context {FS : Type} `{NodeFS FS}.
Variable config : CleanupConfig.
Variable dryRun : bool.
Variable platform : Platform.
Variable budget : nat.

Let os : OS := getOS platform.
Let join := path_joins os.

Definition getTrashPaths : list string :=
  let homeDir := getHomeDirectory platform in
  let paths :=
    match os with
    | windows =>
        let drives := ["C:"; "D:"; "E:"; "F:"] in
        flat_map (fun drive => [join [drive; "$Recycle.Bin"]; join [drive; "RECYCLER"]]) drives
    | macos =>
        [join [homeDir; ".Trash"]; "/Volumes/*/.Trashes"; "/.Trashes"]
    | linux =>
        [join [homeDir; ".local"; "share"; "Trash"]; "/tmp/.Trash-*"]
    end in
  filter_truthy paths.

(** [for (const file of ...)]: delete and count one file. *)
Definition deleteAndCount (file : string) : M (World FS * Counts) unit :=
  result <- lift (deleteFile dryRun file) ;;
  if deleted result then local_modify (count_file (dr_size result)) else ret tt.

(** [for (const dir of dirs.reverse())]: remove a directory found empty. *)
Definition removeIfEmpty (dir : string) : M (World FS * Counts) unit :=
  empty <- lift (isDirectoryEmpty dir) ;;
  if empty : bool then
    result <- lift (deleteDirectory dryRun platform budget dir) ;;
    if deleted result then local_modify count_directory else ret tt
  else ret tt.

Definition cleanWindowsRecycleBin (recycleBinPath : string) : M (World FS) Counts :=
  with_locals (mkCounts 0 0)
    (try_catch
       (userFolders <- lift (findDirectories config [join [recycleBinPath; "S-*"]] []) ;;
        for_of userFolders (fun userFolder =>
          files <- lift (findFiles config [join [userFolder; "**"; "*"]] []) ;;
          for_of files deleteAndCount ;;
          dirs <- lift (findDirectories config [join [userFolder; "**"]] []) ;;
          for_of (rev dirs) removeIfEmpty))
       (fun error =>
          lift (errors_push ("Error cleaning Windows Recycle Bin: " +:+ errMessage error))) ;;
     local_get).

Definition cleanLinuxTrash (trashPath : string) : M (World FS) Counts :=
  with_locals (mkCounts 0 0)
    (try_catch
       (let filesDir := join [trashPath; "files"] in
        let infoDir := join [trashPath; "info"] in
        filesThere <- lift (pathExists filesDir) ;;
        (if filesThere : bool then
           files <- lift (findFiles config [join [filesDir; "**"; "*"]] []) ;;
           for_of files deleteAndCount ;;
           dirs <- lift (findDirectories config [join [filesDir; "**"]] []) ;;
           for_of (rev dirs) removeIfEmpty
         else ret tt) ;;
        infoThere <- lift (pathExists infoDir) ;;
        (if infoThere : bool then
           infoFiles <- lift (findFiles config [join [infoDir; "*.trashinfo"]] []) ;;
           for_of infoFiles deleteAndCount
         else ret tt))
       (fun error =>
          lift (errors_push ("Error cleaning Linux trash: " +:+ errMessage error))) ;;
     local_get).

(** Only the macOS branch touches the counters of [emptyTrashDirectory]:
    the Windows and Linux branches [await] their helper and drop what it
    returns. *)
Definition emptyTrashDirectory (trashPath : string) : M (World FS) Counts :=
  with_locals (mkCounts 0 0)
    (try_catch
       (match os with
        | windows =>
            _ <- lift (cleanWindowsRecycleBin trashPath) ;;
            ret tt
        | macos =>
            trashFiles <- lift (findFiles config [join [trashPath; "**"; "*"]] []) ;;
            for_of trashFiles deleteAndCount ;;
            trashDirs <- lift (findDirectories config [join [trashPath; "**"]] []) ;;
            for_of (rev trashDirs) removeIfEmpty
        | linux =>
            _ <- lift (cleanLinuxTrash trashPath) ;;
            ret tt
        end)
       (fun error =>
          lift (errors_push ("Error emptying trash directory " +:+ trashPath +:+ ": " +:+ errMessage error))) ;;
     local_get).

Definition cleanTrashPath (trashPath : string) : M (World FS) Counts :=
  with_locals (mkCounts 0 0)
    (try_catch
       (if includes trashPath "*" then
          matchingPaths <- lift (findDirectories config [trashPath] []) ;;
          for_of matchingPaths (fun matchedPath =>
            result <- lift (emptyTrashDirectory matchedPath) ;;
            local_modify (add_counts result))
        else
          there <- lift (pathExists trashPath) ;;
          if there : bool then
            result <- lift (emptyTrashDirectory trashPath) ;;
            local_modify (add_counts result)
          else ret tt)
       (fun error =>
          lift (errors_push ("Error cleaning trash path " +:+ trashPath +:+ ": " +:+ errMessage error))) ;;
     local_get).

Definition clean : M (World FS) CleanupResult :=
  clearErrors ;;
  totals <- with_locals (mkCounts 0 0)
    (for_of getTrashPaths (fun trashPath =>
       there <- lift (pathExists trashPath) ;;
       if there : bool then
         result <- lift (cleanTrashPath trashPath) ;;
         local_modify (add_counts result)
       else ret tt) ;;
     local_get) ;;
  errs <- getErrors ;;
  ret (mkResult "trash" (c_filesDeleted totals) (c_spaceSaved totals) None None errs).

End Methods.
End TrashCleaner.
Import TrashCleaner.

(** ** DownloadsOrganizer *)

Module DownloadsOrganizer.
Section Methods.
Context {FS : Type} `{NodeFS FS}.
Variable config : CleanupConfig.
Variable dryRun : bool.
Variable platform : Platform.
Variable budget : nat.

Let os : OS := getOS platform.
Let join := path_join os.

(** [for (const [category, extensions] of Object.entries(categories))] *)
Fixpoint firstCategory (entries : list (string * list string)) (extension : string)
  : option string :=
  match entries with
  | [] => None
  | (category, extensions) :: rest =>
      if bool_decide (extension ∈ extensions) then Some category
      else firstCategory rest extension
  end.

Definition getCategoryForExtension (extension : string) : option string :=
  firstCategory (categories (organizeDownloads config)) extension.

(** The [while] loop of [generateUniqueFileName]; one unit of [fuel] per
    test of the loop condition. *)
Fixpoint probeUniqueName (fuel : nat) (dirPath name ext : string)
    (counter : nat) (uniqueName : string) : M (World FS) string :=
  match fuel with
  | O => diverge
  | S fuel' =>
      taken <- pathExists (join dirPath uniqueName) ;;
      if taken : bool then
        probeUniqueName fuel' dirPath name ext (S counter)
          (name +:+ " (" +:+ show_nat counter +:+ ")" +:+ ext)
      else ret uniqueName
  end.

Definition generateUniqueFileName (dirPath fileName : string) : M (World FS) string :=
  let name := parse_name fileName in
  let ext := extname fileName in
  probeUniqueName budget dirPath name ext 1%nat fileName.

Definition organizeFile (filePath downloadsPath : string) : M (World FS) bool :=
  try_catch
    (let fileName := basename os filePath in
     let fileExt := toLowerCase (extname fileName) in
     if String.eqb fileExt "" || startsWith fileName "." then ret false
     else
       match getCategoryForExtension fileExt with
       | None => ret false
       | Some category =>
           if String.eqb category "" then ret false (* [!category] *)
           else
             let categoryPath := join downloadsPath category in
             (if negb dryRun then ensureDir categoryPath else ret tt) ;;
             let newFilePath := join categoryPath fileName in
             taken <- pathExists newFilePath ;;
             (if taken : bool then
                uniqueFileName <- generateUniqueFileName categoryPath fileName ;;
                let uniqueFilePath := join categoryPath uniqueFileName in
                if negb dryRun then move filePath uniqueFilePath else ret tt
              else
                if negb dryRun then move filePath newFilePath else ret tt) ;;
             ret true
       end)
    (fun error =>
       errors_push ("Failed to organize file " +:+ filePath +:+ ": " +:+ errMessage error) ;;
       ret false).

Definition organize : M (World FS) CleanupResult :=
  clearErrors ;;
  if negb (enabled (organizeDownloads config)) then
    ret (mkResult "downloads" 0 0 (Some 0) None
           ["Downloads organization is disabled in config"])
  else
    let downloadsPath := downloadsPath config in
    there <- pathExists downloadsPath ;;
    if negb there then
      errors_push ("Downloads folder not found: " +:+ downloadsPath) ;;
      errs <- getErrors ;;
      ret (mkResult "downloads" 0 0 (Some 0) None errs)
    else
      filesOrganized <- with_locals 0
        (try_catch
           (files <- lift (findFiles config [join downloadsPath "*"] []) ;;
            for_of files (fun file =>
              organized <- lift (organizeFile file downloadsPath) ;;
              if organized : bool then local_modify (fun n => n + 1) else ret tt))
           (fun error =>
              lift (errors_push ("Error organizing downloads: " +:+ errMessage error))) ;;
         local_get) ;;
      errs <- getErrors ;;
      ret (mkResult "downloads" 0 0 (Some filesOrganized) None errs).

End Methods.
End DownloadsOrganizer.
Import DownloadsOrganizer.

(** ** LargeFileFinder *)

Module LargeFileFinder.
Section Methods.
Context {FS : Type} `{NodeFS FS}.
Variable config : CleanupConfig.
Variable dryRun : bool.
Variable platform : Platform.

Let os : OS := getOS platform.
Let join := path_joins os.

(** [Array<{ path: string; size: number }>] *)
Definition LargeFiles : Type := list (string * Z).

Definition getSearchPaths : list string :=
  let homeDir := getHomeDirectory platform in
  let paths := [homeDir] in
  let paths :=
    match os with
    | windows =>
        paths ++ ["C:\Users"; "C:\Downloads";
                  join [homeDir; "Documents"]; join [homeDir; "Videos"];
                  join [homeDir; "Pictures"]; join [homeDir; "Desktop"]]
    | macos =>
        paths ++ [join [homeDir; "Documents"]; join [homeDir; "Movies"];
                  join [homeDir; "Pictures"]; join [homeDir; "Desktop"];
                  join [homeDir; "Library"]; "/Applications"]
    | linux =>
        paths ++ [join [homeDir; "Documents"]; join [homeDir; "Videos"];
                  join [homeDir; "Pictures"]; join [homeDir; "Desktop"];
                  "/opt"; "/usr/share"]
    end in
  filter_truthy paths.

Definition systemDirs : list string :=
  ["System Volume Information"; "$RECYCLE.BIN"; "Windows"; "Program Files";
   "Program Files (x86)"; "ProgramData"; "AppData"; "node_modules";
   ".git"; ".svn"; ".hg"].

Definition windowsSkipPaths : list string :=
  ["C:\Windows"; "C:\Program Files"; "C:\Program Files (x86)"; "C:\ProgramData"].

Definition macosSkipPaths : list string :=
  ["/System"; "/Library/System"; "/usr/bin"; "/usr/sbin"; "/bin"; "/sbin"].

Definition linuxSkipPaths : list string :=
  ["/bin"; "/sbin"; "/usr/bin"; "/usr/sbin"; "/lib"; "/lib64"; "/usr/lib";
   "/usr/lib64"; "/sys"; "/proc"; "/dev"].

Definition shouldSkipPath (fullPath itemName : string) : bool :=
  if startsWith itemName "." then true
  else if bool_decide (itemName ∈ systemDirs) then true
  else if
    match os with
    | windows =>
        existsb (fun skipPath => startsWith (toLowerCase fullPath) (toLowerCase skipPath))
          windowsSkipPaths
    | macos => existsb (fun skipPath => startsWith fullPath skipPath) macosSkipPaths
    | linux => existsb (fun skipPath => startsWith fullPath skipPath) linuxSkipPaths
    end
  then true
  else existsb (fun exclusion => includes fullPath exclusion) (exclusions config).

(** One [for (const item of items)] step of [traverseDirectory]; [descend]
    is the recursive call. The array [largeFiles] is the local state. *)
Definition visitItem (descend : string -> M (World FS * LargeFiles) unit)
    (dirPath : string) (item : Dirent) : M (World FS * LargeFiles) unit :=
  let itemPath := path_join os dirPath (d_name item) in
  if shouldSkipPath itemPath (d_name item) then ret tt (* continue *)
  else
    try_catch
      (if d_isFile item then
         stats <- lift (stat itemPath) ;;
         if largeFileThreshold config <=? st_size stats then
           local_modify (fun largeFiles => largeFiles ++ [(itemPath, st_size stats)])
         else ret tt
       else if d_isDirectory item then descend itemPath
       else ret tt)
      (fun _ => ret tt (* continue *)).

(** [traverseDirectory]. The recursion stops by itself once [depth > 10];
    [gas] is the number of nested calls still allowed, and [11 - depth] is
    always enough. *)
Fixpoint traverseDirectory_rec (gas : nat) (dirPath : string) (depth : nat)
  : M (World FS * LargeFiles) unit :=
  if (10 <? depth)%nat then ret tt
  else
    match gas with
    | O => diverge
    | S gas' =>
        try_catch
          (items <- lift (readdir dirPath) ;;
           for_of items
             (visitItem (fun itemPath => traverseDirectory_rec gas' itemPath (depth + 1)) dirPath))
          (fun _ => ret tt)
    end.

Definition traverseDirectory (dirPath : string) (depth : nat)
  : M (World FS * LargeFiles) unit :=
  traverseDirectory_rec (11 - depth) dirPath depth.

Definition findLargeFilesInPath (searchPath : string) : M (World FS) LargeFiles :=
  with_locals []
    (try_catch
       (traverseDirectory searchPath 0)
       (fun error =>
          lift (errors_push ("Error searching in " +:+ searchPath +:+ ": " +:+ errMessage error))) ;;
     local_get).

(** Insertion into a list sorted by decreasing size; equal sizes keep
    their order, as the stable [Array.prototype.sort] does. *)
Fixpoint insert_by_size (x : string * Z) (sorted : LargeFiles) : LargeFiles :=
  match sorted with
  | [] => [x]
  | y :: rest => if snd y <=? snd x then x :: y :: rest else y :: insert_by_size x rest
  end.

(** [largeFiles.sort((a, b) => b.size - a.size)] *)
Definition sort_by_size (largeFiles : LargeFiles) : LargeFiles :=
  fold_right insert_by_size [] largeFiles.

Definition find : M (World FS) CleanupResult :=
  clearErrors ;;
  largeFiles <- with_locals []
    (for_of getSearchPaths (fun searchPath =>
       there <- lift (pathExists searchPath) ;;
       if there : bool then
         foundFiles <- lift (findLargeFilesInPath searchPath) ;;
         local_modify (fun largeFiles => largeFiles ++ foundFiles)
       else ret tt) ;;
     local_get) ;;
  let largeFiles := sort_by_size largeFiles in
  errs <- getErrors ;;
  ret (mkResult "largeFiles" 0 0 None (Some largeFiles) errs).

Definition deleteLargeFiles (filePaths : list string) : M (World FS) Counts :=
  with_locals (mkCounts 0 0)
    (for_of filePaths (fun filePath =>
       result <- lift (deleteFile dryRun filePath) ;;
       if deleted result then local_modify (count_file (dr_size result)) else ret tt) ;;
     local_get).

End Methods.
End LargeFileFinder.
Import LargeFileFinder.

(** ** CacheCleaner *)

Module CacheCleaner.
Section Methods.
Context {FS : Type} `{NodeFS FS}.
Variable config : CleanupConfig.
Variable dryRun : bool.
Variable platform : Platform.
Variable budget : nat.

Let os : OS := getOS platform.
Let join := path_joins os.

Definition getCachePaths : list string :=
  let homeDir := getHomeDirectory platform in
  let paths :=
    match os with
    | windows =>
        let localAppData := env_LOCALAPPDATA platform in
        let appData := env_APPDATA platform in
        [ join [localAppData; "Microsoft"; "Windows"; "Explorer"; "thumbcache_*.db"];
          join [localAppData; "Microsoft"; "Windows"; "WebCache"];
          join [localAppData; "Microsoft"; "Windows"; "INetCache"];
          join [localAppData; "IconCache.db"];
          join [localAppData; "npm-cache"];
          join [appData; "npm-cache"];
          join [localAppData; "yarn"; "cache"];
          join [localAppData; "pip"; "cache"];
          join [localAppData; "composer"; "cache"];
          join [appData; "Code"; "logs"];
          join [appData; "Code"; "CachedData"];
          join [localAppData; "JetBrains"; "*"; "caches"];
          join [localAppData; "JetBrains"; "*"; "logs"] ]
    | macos =>
        [ join [homeDir; "Library"; "Caches"];
          "/Library/Caches";
          "/System/Library/Caches";
          join [homeDir; ".npm"; "_cacache"];
          join [homeDir; ".yarn"; "cache"];
          join [homeDir; ".cache"; "pip"];
          join [homeDir; ".composer"; "cache"];
          join [homeDir; "Library"; "Caches"; "com.microsoft.VSCode"];
          join [homeDir; "Library"; "Logs"; "DiagnosticReports"];
          join [homeDir; "Library"; "Application Support"; "Code"; "logs"] ]
    | linux =>
        [ join [homeDir; ".cache"];
          "/var/cache";
          "/tmp";
          join [homeDir; ".npm"; "_cacache"];
          join [homeDir; ".yarn"; "cache"];
          join [homeDir; ".cache"; "pip"];
          join [homeDir; ".composer"; "cache"];
          join [homeDir; ".config"; "Code"; "logs"];
          join [homeDir; ".vscode"; "extensions"; ".obsolete"] ]
    end in
  let paths := paths ++ customCachePaths config in
  filter_truthy paths.

(** The body of [for (const file of files)]: delete and count a file that
    is old enough. *)
Definition cleanCacheFile (file : string) : M (World FS * Counts) unit :=
  oldEnough <- lift (isFileOldEnough platform file (maxFileAge config)) ;;
  if oldEnough : bool then
    result <- lift (deleteFile dryRun file) ;;
    if deleted result then local_modify (count_file (dr_size result)) else ret tt
  else ret tt.

(** The body of [for (const dir of emptyDirs)]. *)
Definition cleanEmptyDirectory (dir : string) : M (World FS * Counts) unit :=
  empty <- lift (isDirectoryEmpty dir) ;;
  if empty : bool then
    result <- lift (deleteDirectory dryRun platform budget dir) ;;
    if deleted result then local_modify count_directory else ret tt
  else ret tt.

Definition cacheFilePatterns (cachePath : string) : list string :=
  [ join [cachePath; "**"; "*.cache"];
    join [cachePath; "**"; "*.log"];
    join [cachePath; "**"; "*.tmp"];
    join [cachePath; "**"; "*.temp"];
    join [cachePath; "**"; "*~"];
    join [cachePath; "**"; "*.bak"] ].

Definition cleanCachePath (cachePath : string) : M (World FS) Counts :=
  with_locals (mkCounts 0 0)
    (try_catch
       (if includes cachePath "*" then
          files <- lift (findFiles config [cachePath] []) ;;
          for_of files cleanCacheFile
        else
          there <- lift (pathExists cachePath) ;;
          if there : bool then
            files <- lift (findFiles config (cacheFilePatterns cachePath) []) ;;
            for_of files cleanCacheFile ;;
            emptyDirs <- lift (findDirectories config [join [cachePath; "**"]] []) ;;
            for_of emptyDirs cleanEmptyDirectory
          else ret tt)
       (fun error =>
          lift (errors_push ("Error cleaning cache path " +:+ cachePath +:+ ": " +:+ errMessage error))) ;;
     local_get).

Definition clean : M (World FS) CleanupResult :=
  clearErrors ;;
  totals <- with_locals (mkCounts 0 0)
    (for_of getCachePaths (fun cachePath =>
       there <- lift (pathExists cachePath) ;;
       if there : bool then
         result <- lift (cleanCachePath cachePath) ;;
         local_modify (add_counts result)
       else ret tt) ;;
     local_get) ;;
  errs <- getErrors ;;
  ret (mkResult "cache" (c_filesDeleted totals) (c_spaceSaved totals) None None errs).

End Methods.
End CacheCleaner.

(** ** BrowserCleaner *)

Module BrowserCleaner.
Section Methods.
Context {FS : Type} `{NodeFS FS}.
Variable config : CleanupConfig.
Variable dryRun : bool.
Variable platform : Platform.
Variable budget : nat.

Let os : OS := getOS platform.
Let join := path_joins os.

Definition getChromePaths : list string :=
  let homeDir := getHomeDirectory platform in
  match os with
  | windows =>
      let localAppData := env_LOCALAPPDATA platform in
      [ join [localAppData; "Google"; "Chrome"; "User Data"; "Default"; "Cache"];
        join [localAppData; "Google"; "Chrome"; "User Data"; "Default"; "Code Cache"];
        join [localAppData; "Google"; "Chrome"; "User Data"; "Default"; "GPUCache"];
        join [localAppData; "Google"; "Chrome"; "User Data"; "ShaderCache"];
        join [localAppData; "Google"; "Chrome"; "User Data"; "SwiftShader"] ]
  | macos =>
      [ join [homeDir; "Library"; "Caches"; "Google"; "Chrome"];
        join [homeDir; "Library"; "Application Support"; "Google"; "Chrome"; "Default"; "GPUCache"];
        join [homeDir; "Library"; "Application Support"; "Google"; "Chrome"; "ShaderCache"] ]
  | linux =>
      [ join [homeDir; ".cache"; "google-chrome"];
        join [homeDir; ".config"; "google-chrome"; "Default"; "GPUCache"];
        join [homeDir; ".config"; "google-chrome"; "ShaderCache"] ]
  end.

Definition getFirefoxPaths : list string :=
  let homeDir := getHomeDirectory platform in
  match os with
  | windows =>
      let localAppData := env_LOCALAPPDATA platform in
      let appData := env_APPDATA platform in
      [ join [localAppData; "Mozilla"; "Firefox"; "Profiles"; "*"; "cache2"];
        join [localAppData; "Mozilla"; "Firefox"; "Profiles"; "*"; "startupCache"];
        join [appData; "Mozilla"; "Firefox"; "Profiles"; "*"; "cache2"];
        join [appData; "Mozilla"; "Firefox"; "Profiles"; "*"; "startupCache"] ]
  | macos =>
      [ join [homeDir; "Library"; "Caches"; "Firefox"];
        join [homeDir; "Library"; "Application Support"; "Firefox"; "Profiles"; "*"; "cache2"];
        join [homeDir; "Library"; "Application Support"; "Firefox"; "Profiles"; "*"; "startupCache"] ]
  | linux =>
      [ join [homeDir; ".cache"; "mozilla"; "firefox"];
        join [homeDir; ".mozilla"; "firefox"; "*"; "cache2"];
        join [homeDir; ".mozilla"; "firefox"; "*"; "startupCache"] ]
  end.

Definition getEdgePaths : list string :=
  let homeDir := getHomeDirectory platform in
  match os with
  | windows =>
      let localAppData := env_LOCALAPPDATA platform in
      [ join [localAppData; "Microsoft"; "Edge"; "User Data"; "Default"; "Cache"];
        join [localAppData; "Microsoft"; "Edge"; "User Data"; "Default"; "Code Cache"];
        join [localAppData; "Microsoft"; "Edge"; "User Data"; "Default"; "GPUCache"];
        join [localAppData; "Microsoft"; "Edge"; "User Data"; "ShaderCache"] ]
  | macos =>
      [ join [homeDir; "Library"; "Caches"; "Microsoft Edge"];
        join [homeDir; "Library"; "Application Support"; "Microsoft Edge"; "Default"; "GPUCache"] ]
  | linux =>
      [ join [homeDir; ".cache"; "microsoft-edge"];
        join [homeDir; ".config"; "microsoft-edge"; "Default"; "GPUCache"] ]
  end.

Definition getSafariPaths : list string :=
  let homeDir := getHomeDirectory platform in
  [ join [homeDir; "Library"; "Caches"; "com.apple.Safari"];
    join [homeDir; "Library"; "Safari"; "WebpageIcons.db"];
    join [homeDir; "Library"; "Safari"; "Webpage Previews"] ].

(** The body of [for (const file of files)]: delete and count a file that
    is old enough. *)
Definition cleanBrowserFile (file : string) : M (World FS * Counts) unit :=
  oldEnough <- lift (isFileOldEnough platform file (maxFileAge config)) ;;
  if oldEnough : bool then
    result <- lift (deleteFile dryRun file) ;;
    if deleted result then local_modify (count_file (dr_size result)) else ret tt
  else ret tt.

(** The [try] sits inside the loop: a failure on one path does not stop
    the next ones. *)
Definition cleanBrowserPaths (browserPaths : list string) (browserName : string)
  : M (World FS) Counts :=
  with_locals (mkCounts 0 0)
    (for_of browserPaths (fun browserPath =>
       try_catch
         (if includes browserPath "*" then
            files <- lift (findFiles config [join [browserPath; "**"; "*"]] []) ;;
            for_of files cleanBrowserFile
          else
            there <- lift (pathExists browserPath) ;;
            if there : bool then
              cacheFiles <- lift (findFiles config [join [browserPath; "**"; "*"]] []) ;;
              for_of cacheFiles cleanBrowserFile ;;
              empty <- lift (isDirectoryEmpty browserPath) ;;
              if empty : bool then
                result <- lift (deleteDirectory dryRun platform budget browserPath) ;;
                if deleted result then local_modify count_directory else ret tt
              else ret tt
            else ret tt)
         (fun error =>
            lift (errors_push ("Error cleaning " +:+ browserName +:+ " cache at "
                               +:+ browserPath +:+ ": " +:+ errMessage error)))) ;;
     local_get).

Definition cleanChrome : M (World FS) Counts := cleanBrowserPaths getChromePaths "Chrome".
Definition cleanFirefox : M (World FS) Counts := cleanBrowserPaths getFirefoxPaths "Firefox".
Definition cleanEdge : M (World FS) Counts := cleanBrowserPaths getEdgePaths "Edge".
Definition cleanSafari : M (World FS) Counts := cleanBrowserPaths getSafariPaths "Safari".

(** [OSDetector.isMacOS()] *)
Definition isMacOS : bool :=
  match os with
  | macos => true
  | _ => false
  end.

Definition clean : M (World FS) CleanupResult :=
  clearErrors ;;
  totals <- with_locals (mkCounts 0 0)
    ((if chrome (browsers config) then
        result <- lift cleanChrome ;;
        local_modify (add_counts result)
      else ret tt) ;;
     (if firefox (browsers config) then
        result <- lift cleanFirefox ;;
        local_modify (add_counts result)
      else ret tt) ;;
     (if edge (browsers config) then
        result <- lift cleanEdge ;;
        local_modify (add_counts result)
      else ret tt) ;;
     (if safari (browsers config) && isMacOS then
        result <- lift cleanSafari ;;
        local_modify (add_counts result)
      else ret tt) ;;
     local_get) ;;
  errs <- getErrors ;;
  ret (mkResult "browsers" (c_filesDeleted totals) (c_spaceSaved totals) None None errs).

End Methods.
End BrowserCleaner.

(** ** CleanupManager *)

(** The six cleaners a manager instantiates, each given by what its
    [clean()] (or [organize()], [find()]) does to a fresh cleaner. *)
Record Cleaners (FS : Type) : Type := mkCleaners {
  TempCleaner_run : M (World FS) CleanupResult;
  CacheCleaner_run : M (World FS) CleanupResult;
  BrowserCleaner_run : M (World FS) CleanupResult;
  TrashCleaner_run : M (World FS) CleanupResult;
  DownloadsOrganizer_run : M (World FS) CleanupResult;
  LargeFileFinder_run : M (World FS) CleanupResult
}.
Arguments mkCleaners {FS}.
Arguments TempCleaner_run {FS} c.
Arguments CacheCleaner_run {FS} c.
Arguments BrowserCleaner_run {FS} c.
Arguments TrashCleaner_run {FS} c.
Arguments DownloadsOrganizer_run {FS} c.
Arguments LargeFileFinder_run {FS} c.

(** The manager's state: the file system and [private results]. *)
Record Manager (FS : Type) : Type := mkManager {
  m_fs : FS;
  results : list CleanupResult
}.
Arguments mkManager {FS} m_fs results.
Arguments m_fs {FS} m.
Arguments results {FS} m.

Module CleanupManager.
Section Methods.
Context {FS : Type}.
Variable cleaners : Cleaners FS.

(** [new XCleaner(...)] followed by [await cleaner.clean()]: the cleaner
    starts with [errors = []] and works on the manager's file system. *)
Definition runCleaner (clean : M (World FS) CleanupResult) : M (Manager FS) CleanupResult :=
  fun m =>
    match clean (mkWorld (m_fs m) []) with
    | Some (r, w) => Some (r, mkManager (fs w) (results m))
    | None => None
    end.

(** [this.results.push(result)] *)
Definition results_push (result : CleanupResult) : M (Manager FS) unit :=
  fun m => Some (Ok tt, mkManager (m_fs m) (results m ++ [result])).

(** The shape shared by the six task methods; the spinner and logger
    calls only print. *)
Definition runTask (clean : M (World FS) CleanupResult)
    (failure : string -> CleanupResult) : M (Manager FS) CleanupResult :=
  try_catch
    (result <- runCleaner clean ;;
     results_push result ;;
     ret result)
    (fun error =>
       let result := failure (errMessage error) in
       results_push result ;;
       ret result).

Definition cleanTempFiles : M (Manager FS) CleanupResult :=
  runTask (TempCleaner_run cleaners)
    (fun message => mkResult "temp" 0 0 None None [message]).

Definition cleanCacheFiles : M (Manager FS) CleanupResult :=
  runTask (CacheCleaner_run cleaners)
    (fun message => mkResult "cache" 0 0 None None [message]).

Definition cleanBrowserCaches : M (Manager FS) CleanupResult :=
  runTask (BrowserCleaner_run cleaners)
    (fun message => mkResult "browsers" 0 0 None None [message]).

Definition emptyTrash : M (Manager FS) CleanupResult :=
  runTask (TrashCleaner_run cleaners)
    (fun message => mkResult "trash" 0 0 None None [message]).

Definition organizeDownloads : M (Manager FS) CleanupResult :=
  runTask (DownloadsOrganizer_run cleaners)
    (fun message => mkResult "downloads" 0 0 (Some 0) None [message]).

Definition findLargeFiles : M (Manager FS) CleanupResult :=
  runTask (LargeFileFinder_run cleaners)
    (fun message => mkResult "largeFiles" 0 0 None (Some []) [message]).

Definition runAllTasks : M (Manager FS) unit :=
  cleanTempFiles ;;
  cleanCacheFiles ;;
  cleanBrowserCaches ;;
  emptyTrash ;;
  organizeDownloads ;;
  findLargeFiles ;;
  ret tt (* printSummary *).

End Methods.
End CleanupManager.

(** The cleaners [CleanupManager] really instantiates. *)
Definition engine_cleaners {FS : Type} `{NodeFS FS} (config : CleanupConfig) (dryRun : bool)
    (platform : Platform) (budget : nat) : Cleaners FS :=
  mkCleaners
    (TempCleaner.clean config dryRun platform budget)
    (CacheCleaner.clean config dryRun platform budget)
    (BrowserCleaner.clean config dryRun platform budget)
    (TrashCleaner.clean config dryRun platform budget)
    (organize config dryRun platform budget)
    (find config platform).

(** ** cli.ts *)

(** The task flags of [program.opts()]. *)
Record Options : Type := mkOptions {
  opt_temp : bool;
  opt_cache : bool;
  opt_browsers : bool;
  opt_trash : bool;
  opt_downloads : bool;
  opt_largeFiles : bool
}.

(** [options[task]] *)
Definition option_set (options : Options) (task : string) : bool :=
  if String.eqb task "temp" then opt_temp options
  else if String.eqb task "cache" then opt_cache options
  else if String.eqb task "browsers" then opt_browsers options
  else if String.eqb task "trash" then opt_trash options
  else if String.eqb task "downloads" then opt_downloads options
  else if String.eqb task "largeFiles" then opt_largeFiles options
  else false.

Definition specificTasks (options : Options) : list string :=
  List.filter (option_set options)
    ["temp"; "cache"; "browsers"; "trash"; "downloads"; "largeFiles"].

Section Cli.
Context {FS : Type}.
Variable cleaners : Cleaners FS.

(** The [switch (task)] of [runSpecificTasks]; it has no [default]. *)
Definition runSpecificTask (task : string) : M (Manager FS) unit :=
  if String.eqb task "temp" then CleanupManager.cleanTempFiles cleaners ;; ret tt
  else if String.eqb task "cache" then CleanupManager.cleanCacheFiles cleaners ;; ret tt
  else if String.eqb task "browsers" then CleanupManager.cleanBrowserCaches cleaners ;; ret tt
  else if String.eqb task "trash" then CleanupManager.emptyTrash cleaners ;; ret tt
  else if String.eqb task "downloads" then CleanupManager.organizeDownloads cleaners ;; ret tt
  else if String.eqb task "largeFiles" then CleanupManager.findLargeFiles cleaners ;; ret tt
  else ret tt.

Definition runSpecificTasks (tasks : list string) : M (Manager FS) unit :=
  for_of tasks runSpecificTask.

End Cli.

(** ** InteractiveMode *)

(** What the user answers to the two prompts of [handleLargeFiles]: the
    indices ticked in the checkbox list, and the final confirmation. *)
Record DeleteAnswers : Type := mkDeleteAnswers {
  filesToDelete : list nat;
  confirmDelete : bool
}.

Section Interactive.
Context {FS : Type}.
Variable cleaners : Cleaners FS.

(** [handleLargeFiles]; the prompts are shown only when something was
    found, the second one only when something was ticked. The branch
    taken after the confirmation only logs. *)
Definition handleLargeFiles (answers : DeleteAnswers) : M (Manager FS) unit :=
  result <- CleanupManager.findLargeFiles cleaners ;;
  match largeFiles result with
  | Some (_ :: _) =>
      if (0 <? length (filesToDelete answers))%nat then
        if confirmDelete answers then ret tt (* logger.info: "Would delete ..." *)
        else ret tt
      else ret tt
  | _ => ret tt (* "No large files found." *)
  end.

End Interactive.

(** ** ReportGenerator *)

(** [{ totalFiles, totalSpace, totalOrganized, totalErrors }] *)
Record Summary : Type := mkSummary {
  totalFiles : Z;
  totalSpace : Z;
  totalOrganized : Z;
  totalErrors : Z
}.

(** The double nearest to an integer, ties to the even mantissa:
    integers up to [2^53] in magnitude are doubles, beyond that only
    the 53 leading bits are kept. Magnitudes of [2^1024] and more,
    which JavaScript turns into an infinity, are outside the model. *)
Definition round_to_double (z : Z) : Z :=
  let m := Z.abs z in
  if m <=? 2 ^ 53 then z
  else
    let e := Z.log2 m - 52 in
    let q := m / 2 ^ e in
    let r := m mod 2 ^ e in
    let q' :=
      if 2 * r <? 2 ^ e then q
      else if 2 ^ e <? 2 * r then q + 1
      else if Z.even q then q else q + 1 in
    Z.sgn z * (q' * 2 ^ e).

(** [a + b] on numbers that hold integers. *)
Definition js_add (a b : Z) : Z := round_to_double (a + b).

(** [results.reduce((summary, result) => ..., { 0, 0, 0, 0 })];
    [result.filesOrganized || 0] reads an absent count as 0. *)
Definition generateSummary (results : list CleanupResult) : Summary :=
  fold_left
    (fun summary result =>
       mkSummary
         (js_add (totalFiles summary) (filesDeleted result))
         (js_add (totalSpace summary) (spaceSaved result))
         (js_add (totalOrganized summary)
            match filesOrganized result with Some n => n | None => 0 end)
         (js_add (totalErrors summary) (Z.of_nat (length (result_errors result)))))
    results (mkSummary 0 0 0 0).

(** ** ConfigManager *)

(** A parsed JSON document; an object keeps its properties in insertion
    order. *)
#[warnings="-register-all"]
Inductive json : Type :=
  | JNull
  | JBool (b : bool)
  | JNumber (n : Z)
  | JString (s : string)
  | JArray (items : list json)
  | JObject (properties : list (string * json)).

Fixpoint obj_get (key : string) (properties : list (string * json)) : option json :=
  match properties with
  | [] => None
  | (k, v) :: rest => if String.eqb k key then Some v else obj_get key rest
  end.

(** Assignment to a property: an existing key keeps its place. *)
Fixpoint obj_set (key : string) (value : json) (properties : list (string * json))
  : list (string * json) :=
  match properties with
  | [] => [(key, value)]
  | (k, v) :: rest =>
      if String.eqb k key then (k, value) :: rest else (k, v) :: obj_set key value rest
  end.

Fixpoint indexed {A : Type} (from : nat) (items : list A) : list (string * A) :=
  match items with
  | [] => []
  | x :: rest => (show_nat from, x) :: indexed (S from) rest
  end.

Fixpoint chars (s : string) : list json :=
  match s with
  | EmptyString => []
  | String c rest => JString (String c "") :: chars rest
  end.

(** The own enumerable properties that [...value] copies. *)
Definition own_properties (value : json) : list (string * json) :=
  match value with
  | JObject properties => properties
  | JArray items => indexed 0 items
  | JString s => indexed 0 (chars s)
  | _ => []
  end.

(** [{ ...a, ...b }] *)
Definition spread (a b : json) : json :=
  JObject (fold_left (fun o kv => obj_set (fst kv) (snd kv) o)
             (own_properties a ++ own_properties b) []).

Definition JStrings (l : list string) : json := JArray (map JString l).

Module ConfigManager.
Section Methods.
Variable platform : Platform.

Definition createDefaultConfig : json :=
  let homeDir := getHomeDirectory platform in
  let osType := getOS platform in
  let downloadsPath := path_joins osType [homeDir; "Downloads"] in
  JObject
    [ ("largeFileThreshold", JNumber (1024 * 1024 * 1024));
      ("customTempPaths", JArray []);
      ("customCachePaths", JArray []);
      ("downloadsPath", JString downloadsPath);
      ("exclusions", JArray []);
      ("browsers", JObject
         [ ("chrome", JBool true);
           ("firefox", JBool true);
           ("edge", JBool true);
           ("safari", JBool match osType with macos => true | _ => false end) ]);
      ("organizeDownloads", JObject
         [ ("enabled", JBool true);
           ("categories", JObject
              [ ("Images", JStrings [".jpg"; ".jpeg"; ".png"; ".gif"; ".bmp"; ".svg"; ".webp"; ".ico"]);
                ("Videos", JStrings [".mp4"; ".avi"; ".mkv"; ".mov"; ".wmv"; ".flv"; ".webm"; ".m4v"]);
                ("Audio", JStrings [".mp3"; ".wav"; ".flac"; ".aac"; ".ogg"; ".wma"; ".m4a"]);
                ("Documents", JStrings [".pdf"; ".doc"; ".docx"; ".txt"; ".rtf"; ".odt"; ".pages"]);
                ("Spreadsheets", JStrings [".xls"; ".xlsx"; ".csv"; ".ods"; ".numbers"]);
                ("Presentations", JStrings [".ppt"; ".pptx"; ".odp"; ".key"]);
                ("Archives", JStrings [".zip"; ".rar"; ".7z"; ".tar"; ".gz"; ".bz2"; ".xz"]);
                ("Installers", JStrings [".exe"; ".msi"; ".dmg"; ".pkg"; ".deb"; ".rpm"; ".appimage"]);
                ("Code", JStrings [".js"; ".ts"; ".html"; ".css"; ".py"; ".java"; ".cpp"; ".c"; ".php"; ".rb"]) ]) ]);
      ("confirmDeletions", JBool true);
      ("backupBeforeDelete", JBool false);
      ("maxFileAge", JNumber 0) ].

(** [loadConfig]. [configFile] is what the disk holds at [configPath]:
    [None] when [pathExists] answers false, otherwise what [readJson]
    returns or throws. *)
Definition loadConfig (configFile : option (Result json)) : json :=
  let defaultConfig := createDefaultConfig in
  match configFile with
  | Some (Ok configData) => spread defaultConfig configData
  | Some (Throw _) => defaultConfig (* console.warn, then fall through *)
  | None => defaultConfig
  end.

End Methods.
End ConfigManager.
Import ConfigManager.

(** ** The loaded configuration as a [CleanupConfig]

    [loadConfig] returns the merged document as it is, and the cleaners
    read it at the types the interface [CleanupConfig] declares.
    [typed_config] gives the record they work with when every field is
    there with a value of its declared type, and nothing otherwise: what
    the cleaners do with a document of another shape is not modelled.
    The numbers are the integers of [json]; the value of [browsers], of
    [organizeDownloads] and of [categories] is an object that names no
    key twice; a category whose name is a sequence of digits, which
    [Object.entries] would list before the others, is not accepted. *)

Definition as_number (value : json) : option Z :=
  match value with JNumber n => Some n | _ => None end.

Definition as_bool (value : json) : option bool :=
  match value with JBool b => Some b | _ => None end.

Definition as_string (value : json) : option string :=
  match value with JString text => Some text | _ => None end.

Fixpoint all_some {A : Type} (items : list (option A)) : option (list A) :=
  match items with
  | [] => Some []
  | Some item :: rest =>
      match all_some rest with
      | Some others => Some (item :: others)
      | None => None
      end
  | None :: _ => None
  end.

Definition as_strings (value : json) : option (list string) :=
  match value with
  | JArray items => all_some (map as_string items)
  | _ => None
  end.

(** The properties of an object that names no key twice. *)
Definition as_record (value : json) : option (list (string * json)) :=
  match value with
  | JObject properties =>
      if bool_decide (NoDup (map fst properties)) then Some properties else None
  | _ => None
  end.

Definition field {A : Type} (key : string) (properties : list (string * json))
    (read : json -> option A) : option A :=
  match obj_get key properties with
  | Some value => read value
  | None => None
  end.

Definition digits_only (key : string) : bool :=
  forallb (fun c => (48 <=? nat_of_ascii c)%nat && (nat_of_ascii c <=? 57)%nat)
    (list_ascii_of_string key).

Definition as_browsers (value : json) : option Browsers :=
  properties ← as_record value;
  chrome ← field "chrome" properties as_bool;
  firefox ← field "firefox" properties as_bool;
  edge ← field "edge" properties as_bool;
  safari ← field "safari" properties as_bool;
  Some (mkBrowsers chrome firefox edge safari).

Definition as_categories (value : json) : option (list (string * list string)) :=
  properties ← as_record value;
  all_some
    (map (fun entry : string * json =>
            if digits_only (fst entry) then None
            else extensions ← as_strings (snd entry); Some (fst entry, extensions))
       properties).

Definition as_organizeDownloads (value : json) : option OrganizeDownloads :=
  properties ← as_record value;
  enabled ← field "enabled" properties as_bool;
  categories ← field "categories" properties as_categories;
  Some (mkOrganizeDownloads enabled categories).

Definition typed_config (document : json) : option CleanupConfig :=
  match document with
  | JObject properties =>
      largeFileThreshold ← field "largeFileThreshold" properties as_number;
      customTempPaths ← field "customTempPaths" properties as_strings;
      customCachePaths ← field "customCachePaths" properties as_strings;
      downloadsPath ← field "downloadsPath" properties as_string;
      exclusions ← field "exclusions" properties as_strings;
      browsers ← field "browsers" properties as_browsers;
      organizeDownloads ← field "organizeDownloads" properties as_organizeDownloads;
      confirmDeletions ← field "confirmDeletions" properties as_bool;
      backupBeforeDelete ← field "backupBeforeDelete" properties as_bool;
      maxFileAge ← field "maxFileAge" properties as_number;
      Some (mkConfig largeFileThreshold customTempPaths customCachePaths downloadsPath
              exclusions browsers organizeDownloads confirmDeletions backupBeforeDelete
              maxFileAge)
  | _ => None
  end.

(** ** MemFS: an in-memory file system

    Absolute POSIX paths mapped to nodes. It implements [NodeFS] so that
    the engine can be run on concrete trees. Its [mem_glob] follows the
    matching rules of fast-glob for the pattern forms the engine uses:
    [*] inside a segment, [**] as a whole segment, a trailing [/] for
    directories; a segment that starts with a dot is matched only by a
    pattern segment that spells the dot out; [ignore] entries are
    patterns too, compared with the whole path of an entry (its hidden
    segments included), and an ignored directory hides what is below
    it. Matches are listed from the top of the tree down. The other
    glob metacharacters ([?], brackets, braces, parentheses, [!]) are
    not interpreted: [MemFS] is to be used with patterns and roots that
    contain none of them. *)

Record Node : Type := mkNode {
  n_isDirectory : bool;
  n_size : Z;
  n_mtime : Z;
  n_writable : bool
}.

Record MemFS : Type := mkMemFS {
  nodes : gmap string Node
}.

Definition file (size mtime : Z) : Node := mkNode false size mtime true.
Definition readonly_file (size mtime : Z) : Node := mkNode false size mtime false.
Definition directory : Node := mkNode true 0 0 true.

Definition ENOENT (syscall p : string) : exn :=
  Error ("ENOENT: no such file or directory, " +:+ syscall +:+ " '" +:+ p +:+ "'").

Definition mem_stat (p : string) (m : MemFS) : Result Stats :=
  match nodes m !! p with
  | Some n => Ok (mkStats (n_size n) (n_mtime n) (n_isDirectory n))
  | None => Throw (ENOENT "stat" p)
  end.

Definition mem_access (p : string) (mode : AccessMode) (m : MemFS) : Result unit :=
  match nodes m !! p, mode with
  | None, _ => Throw (ENOENT "access" p)
  | Some n, W_OK =>
      if n_writable n then Ok tt
      else Throw (Error ("EACCES: permission denied, access '" +:+ p +:+ "'"))
  | Some _, F_OK => Ok tt
  end.

(** [dir/], the prefix of everything below [dir]. *)
Definition below (dir : string) : string :=
  if ends_with_sep linux dir then dir else dir +:+ "/".

Definition is_below (dir p : string) : bool :=
  startsWith p (below dir) && negb (String.eqb p (below dir)).

(** The name of [p] inside [dir] when [p] is an entry of [dir]. *)
Definition child_name (dir p : string) : option string :=
  if is_below dir p then
    let name := string_drop (String.length (below dir)) p in
    if includes name "/" then None else Some name
  else None.

Definition mem_readdir (p : string) (m : MemFS) : Result (list Dirent) :=
  match nodes m !! p with
  | None => Throw (ENOENT "scandir" p)
  | Some n =>
      if n_isDirectory n then
        Ok (omap (fun kv =>
                    match child_name p (fst kv) with
                    | Some name =>
                        Some (mkDirent name (negb (n_isDirectory (snd kv))) (n_isDirectory (snd kv)))
                    | None => None
                    end)
              (map_to_list (nodes m)))
      else Throw (Error ("ENOTDIR: not a directory, scandir '" +:+ p +:+ "'"))
  end.

(** [fs.remove]: the entry and everything below it; a missing path is not
    an error. *)
Definition mem_remove (p : string) (m : MemFS) : Result unit * MemFS :=
  (Ok tt,
   mkMemFS
     (filter (fun kv => negb (String.eqb (fst kv) p || is_below p (fst kv)) = true) (nodes m))).

Definition mem_ensureDir (p : string) (m : MemFS) : Result unit * MemFS :=
  match nodes m !! p with
  | Some n =>
      if n_isDirectory n then (Ok tt, m)
      else (Throw (Error ("EEXIST: file already exists, mkdir '" +:+ p +:+ "'")), m)
  | None => (Ok tt, mkMemFS (<[p := directory]> (nodes m)))
  end.

Definition rekey (src dest p : string) : string :=
  if String.eqb p src then dest
  else if is_below src p then dest +:+ string_drop (String.length src) p
  else p.

(** [fs.move] without [overwrite]. *)
Definition mem_move (src dest : string) (m : MemFS) : Result unit * MemFS :=
  match nodes m !! src, nodes m !! dest with
  | None, _ => (Throw (ENOENT "rename" src), m)
  | Some _, Some _ => (Throw (Error "dest already exists."), m)
  | Some _, None =>
      (Ok tt,
       mkMemFS
         (list_to_map (map (fun kv => (rekey src dest (fst kv), snd kv)) (map_to_list (nodes m)))))
  end.

Fixpoint split_path_from (p current : string) : list string :=
  match p with
  | EmptyString => [current]
  | String c rest =>
      if Ascii.eqb c "/" then current :: split_path_from rest ""
      else split_path_from rest (current +:+ String c "")
  end.

Definition split_path (p : string) : list string := split_path_from p "".

(** [*] inside one segment. *)
Fixpoint wildcard (pattern s : string) {struct pattern} : bool :=
  match pattern with
  | EmptyString => String.eqb s ""
  | String c pattern' =>
      if Ascii.eqb c "*" then
        (fix star (s : string) : bool :=
           wildcard pattern' s ||
           match s with
           | EmptyString => false
           | String _ s' => star s'
           end) s
      else
        match s with
        | String c' s' => Ascii.eqb c c' && wildcard pattern' s'
        | EmptyString => false
        end
  end.

(** With [dot = false] a hidden segment needs a pattern that starts with
    the dot. *)
Definition segment_match (dot : bool) (pattern segment : string) : bool :=
  (dot || negb (startsWith segment ".") || startsWith pattern ".") && wildcard pattern segment.

Fixpoint segments_match (dot : bool) (patterns segments : list string) {struct patterns} : bool :=
  match patterns with
  | [] => bool_decide (segments = [])
  | pattern :: patterns' =>
      if String.eqb pattern "**" then
        match patterns' with
        | [] =>
            negb (bool_decide (segments = [])) &&
            forallb (fun segment => dot || negb (startsWith segment ".")) segments
        | _ =>
            (fix globstar (segments : list string) : bool :=
               segments_match dot patterns' segments ||
               match segments with
               | [] => false
               | segment :: segments' =>
                   (dot || negb (startsWith segment ".")) && globstar segments'
               end) segments
        end
      else
        match segments with
        | [] => false
        | segment :: segments' =>
            segment_match dot pattern segment && segments_match dot patterns' segments'
        end
  end.

Definition strip_trailing_slash (pattern : string) : string :=
  if ends_with_sep linux pattern && negb (String.eqb pattern "/")
  then string_take (String.length pattern - 1) pattern
  else pattern.

Definition glob_match (dot : bool) (pattern p : string) : bool :=
  segments_match dot (split_path (strip_trailing_slash pattern)) (split_path p).

(** The path and the directories above it: [/a/b] gives [/a/b], [/a]. *)
Fixpoint self_and_ancestors (segments : list string) (upto : nat) : list (list string) :=
  match upto with
  | O => []
  | S upto' => take (S upto') segments :: self_and_ancestors segments upto'
  end.

Definition ignored (ignore : list string) (p : string) : bool :=
  let segments := split_path p in
  existsb (fun pattern =>
             existsb (segments_match true (split_path (strip_trailing_slash pattern)))
               (self_and_ancestors segments (length segments)))
    ignore.

(** fast-glob walks the tree from the top: a directory is listed before
    anything below it. Entries of the same depth keep the order of the
    map. *)
Fixpoint insert_by_depth (p : string) (sorted : list string) : list string :=
  match sorted with
  | [] => [p]
  | q :: rest =>
      if (length (split_path p) <=? length (split_path q))%nat then p :: q :: rest
      else q :: insert_by_depth p rest
  end.

Definition top_down (paths : list string) : list string :=
  fold_right insert_by_depth [] paths.

Definition mem_glob (patterns ignore : list string) (kind : GlobKind) (m : MemFS)
  : Result (list string) :=
  Ok (top_down
        (omap (fun kv =>
                 let p := fst kv in
                 let kind_ok :=
                   match kind with
                   | onlyFiles => negb (n_isDirectory (snd kv))
                   | onlyDirectories => n_isDirectory (snd kv)
                   end in
                 if kind_ok && existsb (fun pattern => glob_match false pattern p) patterns
                    && negb (ignored ignore p)
                 then Some p else None)
           (map_to_list (nodes m)))).

#[export] Instance MemFS_NodeFS : NodeFS MemFS := {
  fs_stat := mem_stat;
  fs_access := mem_access;
  fs_readdir := mem_readdir;
  fs_remove := mem_remove;
  fs_ensureDir := mem_ensureDir;
  fs_move := mem_move;
  fast_glob := mem_glob
}.

(** A tree given as a list of entries. *)
Definition tree (entries : list (string * Node)) : World MemFS :=
  mkWorld (mkMemFS (list_to_map entries)) [].

(** The paths present in a world, for reading off results. *)
Definition paths_of (w : World MemFS) : list string :=
  map fst (map_to_list (nodes (fs w))).

(** * Vocabulary of the statements *)

(** [preserves proj m]: whatever [m] does, when it finishes the part
    [proj] of the state is what it was. *)
Definition preserves {S T A : Type} (proj : S -> T) (m : M S A) : Prop :=
  forall s r s', m s = Some (r, s') -> proj s' = proj s.

(** [returns m]: [m] never throws; when it finishes, it finishes
    normally. *)
Definition returns {S A : Type} (m : M S A) : Prop :=
  forall s r s', m s = Some (r, s') -> exists a, r = Ok a.

(** [evolves R proj m]: whenever [m] finishes, the part [proj] of the
    state it leaves is related by [R] to the one it started from. *)
Definition evolves {S T A : Type} (R : relation T) (proj : S -> T) (m : M S A) : Prop :=
  forall s r s', m s = Some (r, s') -> R (proj s) (proj s').

(** The names [generateUniqueFileName] tries, in order: the name itself,
    then the name with [" (1)"], [" (2)"], ... before the extension. *)
Definition candidate (fileName : string) (n : nat) : string :=
  match n with
  | O => fileName
  | S _ => parse_name fileName +:+ " (" +:+ show_nat n +:+ ")" +:+ extname fileName
  end.

(** The same sequence, seen from the middle of the loop. *)
Definition next_name (name ext : string) (counter : nat) (current : string) (j : nat) : string :=
  match j with
  | O => current
  | S j' => name +:+ " (" +:+ show_nat (counter + j') +:+ ")" +:+ ext
  end.

(** The directory reached from [seed] through [names]. *)
Definition descend (os : OS) (seed : string) (names : list string) : string :=
  fold_left (path_join os) names seed.

Fixpoint count_sep (os : OS) (s : string) : nat :=
  match s with
  | EmptyString => O
  | String c rest => ((if Ascii.eqb c (path_sep os) then 1 else 0) + count_sep os rest)%nat
  end.

(** A name a directory can list: not empty, no separator in it. *)
Definition valid_name (os : OS) (name : string) : Prop :=
  name <> "" /\ count_sep os name = O.

(** [value[key]]; [None] is [undefined]. *)
Definition get (key : string) (value : json) : option json :=
  match value with
  | JObject properties => obj_get key properties
  | _ => None
  end.

(** The binding that assigning [properties] one after the other leaves
    for [key]: the last one. *)
Fixpoint last_binding (key : string) (properties : list (string * json)) : option json :=
  match properties with
  | [] => None
  | (k, v) :: rest =>
      match last_binding key rest with
      | Some value => Some value
      | None => if String.eqb k key then Some v else None
      end
  end.

(** The messages [deleteFile], [deleteDirectory], [findFiles] and
    [findDirectories] record: each names the operation that failed. *)
Definition primitive_failure (message : string) : Prop :=
  startsWith message "Failed to delete " = true \/
  startsWith message "Failed to find " = true.

(** An error list keeps holding such messages only. *)
Definition only_primitive_failures : relation (list string) :=
  fun before after => Forall primitive_failure before -> Forall primitive_failure after.

(** [config] with other safety settings. *)
Definition with_safety_settings (confirm backup : bool) (age : Z) (config : CleanupConfig)
  : CleanupConfig :=
  mkConfig (largeFileThreshold config) (customTempPaths config) (customCachePaths config)
    (downloadsPath config) (exclusions config) (browsers config) (organizeDownloads config)
    confirm backup age.

(** Every character is an ASCII character. *)
Definition ascii_only (s : string) : bool :=
  forallb (fun c => (nat_of_ascii c <? 128)%nat) (list_ascii_of_string s).

Definition no_separator (os : OS) (s : string) : bool :=
  forallb (fun c => negb (is_sep os c)) (list_ascii_of_string s).

(** A name of one directory entry: not empty, not [.] or [..], no
    separator in it. *)
Definition plain_segment (os : OS) (name : string) : bool :=
  negb (String.eqb name "") && negb (String.eqb name ".") && negb (String.eqb name "..")
  && no_separator os name.

Fixpoint segments_from (os : OS) (p current : string) : list string :=
  match p with
  | EmptyString => [current]
  | String c rest =>
      if is_sep os c then current :: segments_from os rest ""
      else segments_from os rest (current +:+ String c "")
  end.

(** A path [path.join] has nothing to resolve in: plain segments, put
    together by single separators (on Windows, backslashes only),
    possibly below a root, and no separator at the end. *)
Definition normal_path (os : OS) (p : string) : bool :=
  match os with
  | windows => negb (includes p "/")
  | _ => true
  end &&
  match segments_from os p "" with
  | first :: rest =>
      (plain_segment os first || (String.eqb first "" && negb (bool_decide (rest = []))))
      && forallb (plain_segment os) rest
  | [] => false
  end.

(** [category] is the answer of a first-match lookup of [extension] in
    [entries]: the name of the first entry, in the order of the list,
    whose extensions contain it, or nothing when no entry does. *)
Definition first_listing (entries : list (string * list string)) (extension : string)
    (category : option string) : Prop :=
  match category with
  | Some c =>
      exists before extensions after,
        entries = before ++ (c, extensions) :: after /\
        In extension extensions /\
        Forall (fun entry => ~ In extension (snd entry)) before
  | None => Forall (fun entry => ~ In extension (snd entry)) entries
  end.

(** [if (flag) await task()] *)
Definition run_if {S A : Type} (flag : bool) (task : M S A) : M S unit :=
  if flag then task ;; ret tt else ret tt.

(** The sum of a field over the records of a run. *)
Definition total {A : Type} (field : A -> Z) (records : list A) : Z :=
  fold_right Z.add 0 (map field records).

(** [result.filesOrganized || 0] *)
Definition organized_count (result : CleanupResult) : Z :=
  match filesOrganized result with Some n => n | None => 0 end.

(** The records of a run whose sums JavaScript computes exactly: no
    count is negative and no total exceeds [2^53]. *)
Definition exactly_summable (results : list CleanupResult) : Prop :=
  Forall (fun result =>
            0 <= filesDeleted result /\ 0 <= spaceSaved result /\ 0 <= organized_count result)
    results /\
  total filesDeleted results <= 2 ^ 53 /\
  total spaceSaved results <= 2 ^ 53 /\
  total organized_count results <= 2 ^ 53 /\
  total (fun result => Z.of_nat (length (result_errors result))) results <= 2 ^ 53.

Section Vocabulary.
Context {FS : Type} `{NodeFS FS}.
Variable config : CleanupConfig.
Variable platform : Platform.

Let os : OS := getOS platform.

(** What [getFileSize] answers in a world. *)
Definition size_of (filePath : string) (w : World FS) : Z :=
  match fs_stat filePath (fs w) with
  | Ok stats => st_size stats
  | Throw _ => 0
  end.

(** The outcome of a failed deletion: one message appended, nothing
    raised. *)
Definition delete_failed (filePath : string) (error : exn) (fs' : FS) (w : World FS)
  : option (Result DeleteResult * World FS) :=
  Some (Ok (mkDeleteResult false 0),
        mkWorld fs' (errors w ++ ["Failed to delete " +:+ filePath +:+ ": " +:+ errMessage error])).

(** What one task leaves in the result list: the cleaner's own record, or,
    when the cleaner throws, the record [failure] builds from the message;
    and the file system the task leaves behind. *)
Definition task_record (clean : M (World FS) CleanupResult) (failure : string -> CleanupResult)
    (disk : FS) : option (CleanupResult * FS) :=
  match clean (mkWorld disk []) with
  | Some (Ok result, w) => Some (result, fs w)
  | Some (Throw error, w) => Some (failure (errMessage error), fs w)
  | None => None
  end.

(** What visiting one directory entry appends to [largeFiles], given what
    a recursive call appends. *)
Definition item_finds (below_item : string -> LargeFiles) (disk : FS) (dirPath : string)
    (item : Dirent) : LargeFiles :=
  let itemPath := path_join os dirPath (d_name item) in
  if shouldSkipPath config platform itemPath (d_name item) then []
  else if d_isFile item then
    match fs_stat itemPath disk with
    | Ok stats =>
        if largeFileThreshold config <=? st_size stats then [(itemPath, st_size stats)] else []
    | Throw _ => []
    end
  else if d_isDirectory item then below_item itemPath
  else [].

(** What [traverseDirectory] appends to [largeFiles]. *)
Fixpoint scan (gas : nat) (dirPath : string) (depth : nat) (disk : FS) : LargeFiles :=
  if (10 <? depth)%nat then []
  else
    match gas with
    | O => []
    | S gas' =>
        match fs_readdir dirPath disk with
        | Ok items =>
            flat_map
              (item_finds (fun itemPath => scan gas' itemPath (depth + 1) disk) disk dirPath)
              items
        | Throw _ => []
        end
    end.

(** What [find] collects from one seed: nothing when the seed does not
    exist, the scan from depth 0 otherwise. *)
Definition seed_finds (disk : FS) (seed : string) : LargeFiles :=
  match fs_access seed F_OK disk with
  | Ok _ => scan 11 seed 0 disk
  | Throw _ => []
  end.

(** What [find] collects before sorting: the seeds' findings, seed after
    seed. *)
Definition found_files (disk : FS) : LargeFiles :=
  flat_map (seed_finds disk) (getSearchPaths platform).

(** The scan descends into [name] only when it is neither hidden nor a
    system directory. *)
Definition visible_name (name : string) : Prop :=
  startsWith name "." = false /\ name ∉ systemDirs.

(** The roots of a list that [pathExists] finds, each as often as it is
    listed. *)
Definition existing_roots (disk : FS) (roots : list string) : list string :=
  List.filter (fun root => match fs_access root F_OK disk with Ok _ => true | Throw _ => false end)
    roots.

(** One call of [fs.remove]. *)
Definition removal (disk disk' : FS) : Prop :=
  exists p, disk' = snd (fs_remove p disk).

(** Reached through calls of [fs.remove] alone. *)
Definition only_removals : relation FS := rtc removal.

(** One step of the cache task: a root of its list that exists under
    its literal name at that moment is cleaned, and what the cleaning
    counts is added to the totals. *)
Definition cache_root_cleaned (dryRun : bool) (budget : nat) (wc wc' : World FS * Counts)
  : Prop :=
  exists root counts,
    In root (CacheCleaner.getCachePaths config platform) /\
    fs_access root F_OK (fs (fst wc)) = Ok tt /\
    CacheCleaner.cleanCachePath config dryRun platform budget root (fst wc)
    = Some (Ok counts, fst wc') /\
    snd wc' = add_counts counts (snd wc).

(** The files the organizer is handed: the answer of the search for
    the files directly inside [downloads], and nothing when the search
    fails. *)
Definition downloads_listing (downloads : string) (disk : FS) : list string :=
  match fast_glob (map normalizeSlashes [path_join os downloads "*"])
          (map normalizeSlashes (exclusions config)) onlyFiles disk with
  | Ok files => files
  | Throw _ => []
  end.

(** One call of the downloads organizer: creating the directory of a
    configured category inside [downloads], or moving one of the files
    of [listing] into such a directory, under its own name or under
    that name with a counter, which names an entry of that directory
    and nothing further down or up. *)
Definition filing (downloads : string) (listing : list string) (disk disk' : FS) : Prop :=
  exists category,
    In category (map fst (categories (organizeDownloads config))) /\ category <> "" /\
    (disk' = snd (fs_ensureDir (path_join os downloads category) disk) \/
     exists src n,
       In src listing /\
       plain_segment os (candidate (basename os src) n) = true /\
       disk' = snd (fs_move src
                      (path_join os (path_join os downloads category)
                         (candidate (basename os src) n))
                      disk)).

(** Reached through such calls alone. *)
Definition only_filings (downloads : string) (listing : list string) : relation FS :=
  rtc (filing downloads listing).

(** The organizer has a category folder for the entry: its name has an
    extension and no leading dot, and the first category that lists the
    lowercase extension has a name that is not empty. *)
Definition has_category_folder (filePath : string) : bool :=
  let fileName := basename os filePath in
  let fileExt := toLowerCase (extname fileName) in
  negb (String.eqb fileExt "" || startsWith fileName ".") &&
  match getCategoryForExtension config fileExt with
  | Some category => negb (String.eqb category "")
  | None => false
  end.

(** The age filter, in the words of the specification: a file passes
    when [maxFileAge] is 0, or when its modification time can be read
    and lies more than [maxFileAge] days before now. *)
Definition admitted_by_age (disk : FS) (file : string) : bool :=
  (maxFileAge config =? 0) ||
  match fs_stat file disk with
  | Ok stats => maxFileAge config * 24 * 60 * 60 * 1000 <? Date_now platform - st_mtime stats
  | Throw _ => false
  end.

(** Deleting one file and counting it: a dry run counts the file and
    its size and leaves it; a live run checks write access, removes the
    file and counts it, or records the failure and counts nothing. *)
Definition delete_counted (dryRun : bool) (file : string) (wc : World FS * Counts)
  : World FS * Counts :=
  let w := fst wc in
  let c := snd wc in
  let failed disk error :=
    mkWorld disk (errors w ++ ["Failed to delete " +:+ file +:+ ": " +:+ errMessage error]) in
  if dryRun then (w, count_file (size_of file w) c)
  else
    match fs_access file W_OK (fs w) with
    | Throw error => (failed (fs w) error, c)
    | Ok _ =>
        match fs_remove file (fs w) with
        | (Ok _, disk') => (mkWorld disk' (errors w), count_file (size_of file w) c)
        | (Throw error, disk') => (failed disk' error, c)
        end
    end.

(** The sweep of the files a temp path holds: each file the age filter
    admits is deleted and counted, in the order of the list; the others
    are passed over. *)
Definition age_sweep (dryRun : bool) (files : list string) (wc : World FS * Counts)
  : World FS * Counts :=
  fold_left
    (fun wc file => if admitted_by_age (fs (fst wc)) file then delete_counted dryRun file wc else wc)
    files wc.

(** The search for the files of a temp path answers [files]. *)
Definition temp_files_found (tempPath : string) (disk : FS) (files : list string) : Prop :=
  fast_glob (map normalizeSlashes (TempCleaner.tempFilePatterns platform tempPath))
            (map normalizeSlashes (exclusions config)) onlyFiles disk
  = Ok files.

(** The search for the directories directly inside a temp path finds
    none. *)
Definition no_subdirectories (tempPath : string) (disk : FS) : Prop :=
  fast_glob [path_joins os [tempPath; "*/"]] (exclusions config) onlyDirectories disk = Ok [].

(** Directories only list valid names. *)
Definition lists_valid_names (disk : FS) : Prop :=
  forall dir items item,
    fs_readdir dir disk = Ok items -> In item items -> valid_name os (d_name item).

(** [dirs] is a chain of nested directories below [dir], each listed by
    its parent as a directory and none of them skipped by the scan. *)
Fixpoint unskipped_chain (disk : FS) (dir : string) (dirs : list string) : Prop :=
  match dirs with
  | [] => True
  | name :: rest =>
      (exists items item,
         fs_readdir dir disk = Ok items /\ In item items /\
         d_name item = name /\ d_isFile item = false /\ d_isDirectory item = true) /\
      shouldSkipPath config platform (path_join os dir name) name = false /\
      unskipped_chain disk (path_join os dir name) rest
  end.

(** [dir] lists [name] as a file that is not skipped and whose size, as
    [stat] reads it, reaches the threshold. *)
Definition large_file_in (disk : FS) (dir name : string) (size : Z) : Prop :=
  exists items item stats,
    fs_readdir dir disk = Ok items /\ In item items /\
    d_name item = name /\ d_isFile item = true /\
    shouldSkipPath config platform (path_join os dir name) name = false /\
    fs_stat (path_join os dir name) disk = Ok stats /\
    st_size stats = size /\ largeFileThreshold config <= size.

End Vocabulary.

(** * Scenarios

    Concrete trees and configurations on which the engine is run. *)

(** A Linux machine: home [/home/u], temp directory [/tmp]. *)
Definition linux_box : Platform :=
  mkPlatform linux "/home/u" "/tmp" 1700000000000 "" "".

(** The stock settings, with two download categories. *)
Definition plain_config : CleanupConfig :=
  mkConfig (1024 * 1024 * 1024) [] [] "/home/u/Downloads" []
    (mkBrowsers true true true false)
    (mkOrganizeDownloads true [("Images", [".jpg"]); ("Documents", [".pdf"])])
    true false 0.

(** A temp directory holding one file the user may not write to. *)
Definition readonly_world : World MemFS :=
  tree
    [ ("/tmp", directory);
      ("/tmp/locked.tmp", readonly_file 5 0) ].

(** What a live [deleteFile] records for that file. *)
Definition locked_message : string :=
  "Failed to delete /tmp/locked.tmp: EACCES: permission denied, access '/tmp/locked.tmp'".

(** An XDG trash with two discarded files and their two sidecars. *)
Definition trash_fixture : World MemFS :=
  tree
    [ ("/home/u", directory);
      ("/home/u/.local", directory);
      ("/home/u/.local/share", directory);
      ("/home/u/.local/share/Trash", directory);
      ("/home/u/.local/share/Trash/files", directory);
      ("/home/u/.local/share/Trash/info", directory);
      ("/home/u/.local/share/Trash/files/a.txt", file 10 0);
      ("/home/u/.local/share/Trash/files/b.txt", file 20 0);
      ("/home/u/.local/share/Trash/info/a.txt.trashinfo", file 1 0);
      ("/home/u/.local/share/Trash/info/b.txt.trashinfo", file 2 0) ].

(** The same trash once its four entries are gone. *)
Definition emptied_trash : World MemFS :=
  tree
    [ ("/home/u", directory);
      ("/home/u/.local", directory);
      ("/home/u/.local/share", directory);
      ("/home/u/.local/share/Trash", directory);
      ("/home/u/.local/share/Trash/files", directory);
      ("/home/u/.local/share/Trash/info", directory) ].

(** [plain_config] with one exclusion. *)
Definition excluding_config : CleanupConfig :=
  mkConfig (1024 * 1024 * 1024) [] [] "/home/u/Downloads" ["important-folder"]
    (mkBrowsers true true true false)
    (mkOrganizeDownloads true [("Images", [".jpg"]); ("Documents", [".pdf"])])
    true false 0.

(** A temp file and a download whose paths contain the exclusion. *)
Definition protected_world : World MemFS :=
  tree
    [ ("/tmp", directory);
      ("/tmp/important-folder", directory);
      ("/tmp/important-folder/session.tmp", file 7 0);
      ("/home/u", directory);
      ("/home/u/Downloads", directory);
      ("/home/u/Downloads/important-folder.jpg", file 9 0) ].

(** [plain_config] with [maxFileAge = days]. *)
Definition aged_config (days : Z) : CleanupConfig :=
  mkConfig (1024 * 1024 * 1024) [] [] "/home/u/Downloads" []
    (mkBrowsers true true true false)
    (mkOrganizeDownloads true [("Images", [".jpg"]); ("Documents", [".pdf"])])
    true false days.

(** One day in milliseconds. *)
Definition day_ms : Z := 24 * 60 * 60 * 1000.

(** Two temp files: one modified exactly five days before [Date.now()],
    one modified six days before. *)
Definition aged_world : World MemFS :=
  tree
    [ ("/tmp", directory);
      ("/tmp/five.tmp", file 3 (1700000000000 - 5 * day_ms));
      ("/tmp/six.tmp", file 4 (1700000000000 - 6 * day_ms)) ].

(** A category map whose first entry for [.jpg] has the empty name. *)
Definition nameless_config : CleanupConfig :=
  mkConfig (1024 * 1024 * 1024) [] [] "/home/u/Downloads" []
    (mkBrowsers true true true false)
    (mkOrganizeDownloads true [("", [".jpg"]); ("Images", [".jpg"])])
    true false 0.

(** A downloads folder whose [Images] already holds [photo.jpg] and
    [photo (1).jpg]. *)
Definition downloads_world : World MemFS :=
  tree
    [ ("/home/u", directory);
      ("/home/u/Downloads", directory);
      ("/home/u/Downloads/photo.jpg", file 9 0);
      ("/home/u/Downloads/Images", directory);
      ("/home/u/Downloads/Images/photo.jpg", file 1 0);
      ("/home/u/Downloads/Images/photo (1).jpg", file 2 0) ].

(** A downloads folder whose only entry is a directory named like an
    image. *)
Definition album_world : World MemFS :=
  tree
    [ ("/home/u", directory);
      ("/home/u/Downloads", directory);
      ("/home/u/Downloads/album.jpg", directory) ].

(** A cleaner that just reports [n] files and [10 * n] bytes. *)
Definition done (name : string) (n : Z) : M (World MemFS) CleanupResult :=
  ret (mkResult name n (10 * n) None None []).

(** A run in which the cache cleaner and the large-file finder throw. *)
Definition flaky_cleaners : Cleaners MemFS :=
  mkCleaners (done "temp" 3) (throw (Error "cache index is corrupt"))
    (done "browsers" 1) (done "trash" 4) (done "downloads" 0) (throw Thrown).

(** A configuration file that sets one browser flag and one field the
    schema does not know. *)
Definition partial_document : json :=
  JObject
    [ ("browsers", JObject [("chrome", JBool false)]);
      ("theme", JString "dark") ].

(** The records of a run of two tasks, and two records whose bytes
    add up to [2^53 + 1]. *)
Definition two_records : list CleanupResult :=
  [ mkResult "temp" 2 7 None None [];
    mkResult "downloads" 0 0 (Some 1) None ["Failed to organize file a.jpg: locked"] ].

Definition huge_records : list CleanupResult :=
  [ mkResult "temp" 1 (2 ^ 53) None None [];
    mkResult "cache" 1 1 None None [] ].

(** What [loadConfig] gives on [linux_box] when there is no
    configuration file, read as a [CleanupConfig]. *)
Definition default_linux_config : CleanupConfig :=
  mkConfig (1024 * 1024 * 1024) [] [] "/home/u/Downloads" []
    (mkBrowsers true true true false)
    (mkOrganizeDownloads true
       [ ("Images", [".jpg"; ".jpeg"; ".png"; ".gif"; ".bmp"; ".svg"; ".webp"; ".ico"]);
         ("Videos", [".mp4"; ".avi"; ".mkv"; ".mov"; ".wmv"; ".flv"; ".webm"; ".m4v"]);
         ("Audio", [".mp3"; ".wav"; ".flac"; ".aac"; ".ogg"; ".wma"; ".m4a"]);
         ("Documents", [".pdf"; ".doc"; ".docx"; ".txt"; ".rtf"; ".odt"; ".pages"]);
         ("Spreadsheets", [".xls"; ".xlsx"; ".csv"; ".ods"; ".numbers"]);
         ("Presentations", [".ppt"; ".pptx"; ".odp"; ".key"]);
         ("Archives", [".zip"; ".rar"; ".7z"; ".tar"; ".gz"; ".bz2"; ".xz"]);
         ("Installers", [".exe"; ".msi"; ".dmg"; ".pkg"; ".deb"; ".rpm"; ".appimage"]);
         ("Code", [".js"; ".ts"; ".html"; ".css"; ".py"; ".java"; ".cpp"; ".c"; ".php"; ".rb"]) ])
    true false 0.

(** [plain_config] with a threshold of 1000 bytes. *)
Definition small_threshold_config : CleanupConfig :=
  mkConfig 1000 [] [] "/home/u/Downloads" []
    (mkBrowsers true true true false)
    (mkOrganizeDownloads true [("Images", [".jpg"]); ("Documents", [".pdf"])])
    true false 0.

(** Names of nested directories. *)
Definition ten_dirs : list string :=
  ["d1"; "d2"; "d3"; "d4"; "d5"; "d6"; "d7"; "d8"; "d9"; "d10"].

Definition eleven_dirs : list string := ten_dirs ++ ["d11"].

(** Eleven nested directories below the home directory, with a large
    file in the tenth and one in the eleventh. *)
Definition deep_world : World MemFS :=
  tree
    [ ("/home/u", directory);
      ("/home/u/d1", directory);
      ("/home/u/d1/d2", directory);
      ("/home/u/d1/d2/d3", directory);
      ("/home/u/d1/d2/d3/d4", directory);
      ("/home/u/d1/d2/d3/d4/d5", directory);
      ("/home/u/d1/d2/d3/d4/d5/d6", directory);
      ("/home/u/d1/d2/d3/d4/d5/d6/d7", directory);
      ("/home/u/d1/d2/d3/d4/d5/d6/d7/d8", directory);
      ("/home/u/d1/d2/d3/d4/d5/d6/d7/d8/d9", directory);
      ("/home/u/d1/d2/d3/d4/d5/d6/d7/d8/d9/d10", directory);
      ("/home/u/d1/d2/d3/d4/d5/d6/d7/d8/d9/d10/big.bin", file 5000 0);
      ("/home/u/d1/d2/d3/d4/d5/d6/d7/d8/d9/d10/d11", directory);
      ("/home/u/d1/d2/d3/d4/d5/d6/d7/d8/d9/d10/d11/big.bin", file 5000 0) ].

(** The same chain hung below [Documents], which is a seed as well. *)
Definition overlap_world : World MemFS :=
  tree
    [ ("/home/u", directory);
      ("/home/u/Documents", directory);
      ("/home/u/Documents/d1", directory);
      ("/home/u/Documents/d1/d2", directory);
      ("/home/u/Documents/d1/d2/d3", directory);
      ("/home/u/Documents/d1/d2/d3/d4", directory);
      ("/home/u/Documents/d1/d2/d3/d4/d5", directory);
      ("/home/u/Documents/d1/d2/d3/d4/d5/d6", directory);
      ("/home/u/Documents/d1/d2/d3/d4/d5/d6/d7", directory);
      ("/home/u/Documents/d1/d2/d3/d4/d5/d6/d7/d8", directory);
      ("/home/u/Documents/d1/d2/d3/d4/d5/d6/d7/d8/d9", directory);
      ("/home/u/Documents/d1/d2/d3/d4/d5/d6/d7/d8/d9/d10", directory);
      ("/home/u/Documents/d1/d2/d3/d4/d5/d6/d7/d8/d9/d10/big.bin", file 5000 0) ].

(** [small_threshold_config] with the empty string as its only
    exclusion. *)
Definition blank_exclusion_config : CleanupConfig :=
  mkConfig 1000 [] [] "/home/u/Downloads" [""]
    (mkBrowsers true true true false)
    (mkOrganizeDownloads true [("Images", [".jpg"]); ("Documents", [".pdf"])])
    true false 0.

(** A cache directory with one stale log in it and an empty directory
    next to it. *)
Definition cache_world : World MemFS :=
  tree
    [ ("/srv", directory);
      ("/srv/app", directory);
      ("/srv/app/cache", directory);
      ("/srv/app/cache/old.log", file 4 0);
      ("/srv/app/empty", directory) ].

(** [cache_world] next to a [/tmp] that holds a log, and what a live
    run of the cache task leaves of it. *)
Definition mixed_cache_world : World MemFS :=
  tree
    [ ("/tmp", directory);
      ("/tmp/build.log", file 3 0);
      ("/srv", directory);
      ("/srv/app", directory);
      ("/srv/app/cache", directory);
      ("/srv/app/cache/old.log", file 4 0) ].

Definition swept_cache_world : World MemFS :=
  tree
    [ ("/tmp", directory);
      ("/srv", directory);
      ("/srv/app", directory);
      ("/srv/app/cache", directory);
      ("/srv/app/cache/old.log", file 4 0) ].

(** [plain_config] with one custom cache path, given as a pattern. *)
Definition pattern_cache_config : CleanupConfig :=
  mkConfig (1024 * 1024 * 1024) [] ["/srv/*/cache"] "/home/u/Downloads" []
    (mkBrowsers true true true false)
    (mkOrganizeDownloads true [("Images", [".jpg"]); ("Documents", [".pdf"])])
    true false 0.

(** A per-volume trash in [/tmp], as [/tmp/.Trash-*] is meant to match,
    and no trash in the home directory. *)
Definition volume_trash_world : World MemFS :=
  tree
    [ ("/tmp", directory);
      ("/tmp/.Trash-1000", directory);
      ("/tmp/.Trash-1000/files", directory);
      ("/tmp/.Trash-1000/files/gone.txt", file 6 0) ].

(** A temp directory with one temporary file and one file that is
    none. *)
Definition single_temp_world : World MemFS :=
  tree
    [ ("/tmp", directory);
      ("/tmp/a.tmp", file 5 0);
      ("/tmp/keep.txt", file 7 0) ].

(** The same directory once the temporary file is gone. *)
Definition swept_temp_world : World MemFS :=
  tree
    [ ("/tmp", directory);
      ("/tmp/keep.txt", file 7 0) ].

(** A Windows machine on which neither [LOCALAPPDATA] nor [APPDATA] is
    set. *)
Definition bare_windows_box : Platform :=
  mkPlatform windows "C:\Users\u" "C:\Users\u\AppData\Local\Temp" 1700000000000 "" "".

(** [locked_message], as the live temp sweep of [readonly_world] records
    it: once for each listing of [/tmp]. *)
Definition locked_twice : list string := [locked_message; locked_message].

(** * Theorems *)

(** ** Frame reasoning *)

Section Frame.
Context {S T : Type} (proj : S -> T).

Lemma preserves_ret {A : Type} (a : A) : preserves proj (ret a).
Proof. intros s r s' E. inversion E. reflexivity. Qed.

Lemma preserves_throw {A : Type} (e : exn) : preserves proj (throw (A := A) e).
Proof. intros s r s' E. inversion E. reflexivity. Qed.

Lemma preserves_diverge {A : Type} : preserves proj (diverge (A := A)).
Proof. intros s r s' E. discriminate. Qed.

Lemma preserves_bind {A B : Type} (m : M S A) (k : A -> M S B) :
  preserves proj m -> (forall a, preserves proj (k a)) -> preserves proj (bind m k).
Proof.
  intros Hm Hk s r s' E. unfold bind in E.
  destruct (m s) as [[[a|e] s1]|] eqn:Em; try discriminate.
  - rewrite (Hk a _ _ _ E). eapply Hm, Em.
  - inversion E; subst. eapply Hm, Em.
Qed.

Lemma preserves_try_catch {A : Type} (body : M S A) (handler : exn -> M S A) :
  preserves proj body -> (forall e, preserves proj (handler e)) ->
  preserves proj (try_catch body handler).
Proof.
  intros Hb Hh s r s' E. unfold try_catch in E.
  destruct (body s) as [[[a|e] s1]|] eqn:Eb; try discriminate.
  - inversion E; subst. eapply Hb, Eb.
  - rewrite (Hh e _ _ _ E). eapply Hb, Eb.
Qed.

Lemma preserves_for_of {A : Type} (xs : list A) (body : A -> M S unit) :
  (forall x, preserves proj (body x)) -> preserves proj (for_of xs body).
Proof.
  intros Hb. induction xs as [|x xs IH]; simpl.
  - apply preserves_ret.
  - apply preserves_bind; auto.
Qed.

Lemma preserves_lift {L A : Type} (m : M S A) :
  preserves proj m -> preserves (fun sl : S * L => proj (fst sl)) (lift m).
Proof.
  intros Hm [s l] r [s' l'] E. unfold lift in E. simpl in *.
  destruct (m s) as [[r1 s1]|] eqn:Em; inversion E; subst.
  eapply Hm, Em.
Qed.

Lemma preserves_local_get {L : Type} :
  preserves (fun sl : S * L => proj (fst sl)) local_get.
Proof. intros s r s' E. inversion E. reflexivity. Qed.

Lemma preserves_local_modify {L : Type} (f : L -> L) :
  preserves (fun sl : S * L => proj (fst sl)) (local_modify f).
Proof. intros s r s' E. inversion E. reflexivity. Qed.

Lemma preserves_with_locals {L A : Type} (init : L) (body : M (S * L) A) :
  preserves (fun sl : S * L => proj (fst sl)) body -> preserves proj (with_locals init body).
Proof.
  intros Hb s r s' E. unfold with_locals in E.
  destruct (body (s, init)) as [[r1 [s1 l1]]|] eqn:Eb; inversion E; subst.
  apply (Hb _ _ _ Eb).
Qed.

End Frame.

(** Takes a goal [preserves proj m] apart along the structure of [m]. *)
Create HintDb frame.

Ltac frame_step :=
  first
    [ solve [ auto with frame ]
    | apply preserves_ret | apply preserves_throw | apply preserves_diverge
    | apply preserves_local_get | apply preserves_local_modify
    | apply preserves_bind; [ | intros ? ]
    | apply preserves_try_catch; [ | intros ? ]
    | apply preserves_for_of; intros ?
    | apply preserves_with_locals
    | apply preserves_lift
    | progress cbv zeta
    | match goal with
      | |- preserves _ (if ?b then _ else _) => destruct b
      | |- preserves _ (match ?x with _ => _ end) => destruct x
      end ].

Ltac frame := repeat frame_step; eauto with frame.

(** ** The deletion primitives *)

Section DeletionEngine.
Context {FS : Type} `{NodeFS FS}.

Lemma getFileSize_eq (filePath : string) (w : World FS) :
  getFileSize filePath w = Some (Ok (size_of filePath w), w).
Proof.
  unfold getFileSize, size_of, try_catch, bind, stat, ret.
  destruct (fs_stat filePath (fs w)); reflexivity.
Qed.

Lemma pathExists_eq (p : string) (w : World FS) :
  pathExists p w =
  Some (Ok (match fs_access p F_OK (fs w) with Ok _ => true | Throw _ => false end), w).
Proof.
  unfold pathExists, try_catch, bind, access, ret.
  destruct (fs_access p F_OK (fs w)); reflexivity.
Qed.

(** [deleteFile], step by step. *)
Lemma deleteFile_unfold (dryRun : bool) (filePath : string) (w : World FS) :
  deleteFile dryRun filePath w =
  if dryRun then Some (Ok (mkDeleteResult true (size_of filePath w)), w)
  else
    match fs_access filePath W_OK (fs w) with
    | Throw error => delete_failed filePath error (fs w) w
    | Ok _ =>
        match fs_remove filePath (fs w) with
        | (Ok _, fs') => Some (Ok (mkDeleteResult true (size_of filePath w)), mkWorld fs' (errors w))
        | (Throw error, fs') => delete_failed filePath error fs' w
        end
    end.
Proof.
  unfold deleteFile, try_catch, bind at 1.
  rewrite getFileSize_eq.
  destruct dryRun; simpl.
  - unfold bind, ret. destruct w; reflexivity.
  - unfold bind, ret, access, remove, write, errors_push, delete_failed.
    destruct (fs_access filePath W_OK (fs w)) as [[]|error]; simpl.
    + destruct (fs_remove filePath (fs w)) as [[[]|error] fs']; reflexivity.
    + destruct w; reflexivity.
Qed.

(** C5. [deleteFile] always returns a record and never throws. The size
    is read first, in the world the call starts in. Under dry-run it
    answers [deleted = true] with that size and the world is untouched.
    On a live run it checks write access and then removes the file,
    answering [deleted = true] with the size read before; when the check
    or the removal throws it answers [deleted = false, size = 0] and
    appends exactly one message, which names the path and the error. *)
Theorem deleteFile_contract (dryRun : bool) (filePath : string) (w : World FS) :
  exists result w',
    deleteFile dryRun filePath w = Some (Ok result, w') /\
    (dryRun = true ->
       result = mkDeleteResult true (size_of filePath w) /\ w' = w) /\
    (dryRun = false ->
       (result = mkDeleteResult true (size_of filePath w) /\
        fs_access filePath W_OK (fs w) = Ok tt /\
        fs_remove filePath (fs w) = (Ok tt, fs w') /\
        errors w' = errors w)
       \/
       (result = mkDeleteResult false 0 /\
        exists error,
          errors w' =
            errors w ++ ["Failed to delete " +:+ filePath +:+ ": " +:+ errMessage error] /\
          ((fs_access filePath W_OK (fs w) = Throw error /\ fs w' = fs w) \/
           (fs_access filePath W_OK (fs w) = Ok tt /\
            fs_remove filePath (fs w) = (Throw error, fs w'))))).
Proof.
  rewrite deleteFile_unfold. unfold delete_failed.
  destruct dryRun.
  - do 2 eexists. split; [reflexivity|]. split; [auto|discriminate].
  - destruct (fs_access filePath W_OK (fs w)) as [[]|error] eqn:Ea.
    + destruct (fs_remove filePath (fs w)) as [[[]|error] fs'] eqn:Er.
      * do 2 eexists. split; [reflexivity|]. split; [discriminate|].
        intros _. left. simpl. auto.
      * do 2 eexists. split; [reflexivity|]. split; [discriminate|].
        intros _. right. split; [reflexivity|]. exists error. simpl. auto.
    + do 2 eexists. split; [reflexivity|]. split; [discriminate|].
      intros _. right. split; [reflexivity|]. exists error. simpl. auto.
Qed.

End DeletionEngine.

(** The contract on [readonly_world], live: the access check throws, so
    the answer is [deleted = false, size = 0], one message is recorded
    and the disk is as before. *)
Lemma deleteFile_contract_witness :
  exists result w',
    deleteFile false "/tmp/locked.tmp" readonly_world = Some (Ok result, w') /\
    result = mkDeleteResult false 0 /\
    fs w' = fs readonly_world /\
    errors w' = [locked_message].
Proof.
  destruct (deleteFile_contract false "/tmp/locked.tmp" readonly_world)
    as (result & w' & E & _ & Hlive).
  exists result, w'. split; [exact E|].
  destruct (Hlive eq_refl) as [(_ & Haccess & _)|(Hresult & error & Herrors & Hwhy)].
  - vm_compute in Haccess. discriminate Haccess.
  - split; [exact Hresult|].
    destruct Hwhy as [(Haccess & Hfs)|(Haccess & _)].
    + split; [exact Hfs|]. rewrite Herrors.
      vm_compute in Haccess. injection Haccess as <-. reflexivity.
    + vm_compute in Haccess. discriminate Haccess.
Defined.

(** ** Dry run: nothing on disk changes *)

Section DryRun.
Context {FS : Type} `{NodeFS FS}.
Variable config : CleanupConfig.
Variable platform : Platform.
Variable budget : nat.

(** The reads leave the whole world alone, whatever part one looks at. *)
Lemma preserves_stat {T : Type} (proj : World FS -> T) (p : string) : preserves proj (stat p).
Proof. intros w r w' E. inversion E. reflexivity. Qed.

Lemma preserves_access {T : Type} (proj : World FS -> T) (p : string) (mode : AccessMode) :
  preserves proj (access p mode).
Proof. intros w r w' E. inversion E. reflexivity. Qed.

Lemma preserves_readdir {T : Type} (proj : World FS -> T) (p : string) :
  preserves proj (readdir p).
Proof. intros w r w' E. inversion E. reflexivity. Qed.

Lemma preserves_glob {T : Type} (proj : World FS -> T) (patterns ignore : list string)
    (kind : GlobKind) :
  preserves proj (glob patterns ignore kind).
Proof. intros w r w' E. inversion E. reflexivity. Qed.

Lemma preserves_getErrors {T : Type} (proj : World FS -> T) : preserves proj getErrors.
Proof. intros w r w' E. inversion E. reflexivity. Qed.

(** The error list is not on disk. *)
Lemma preserves_errors_push (msg : string) : preserves (@fs FS) (errors_push msg).
Proof. intros w r w' E. inversion E. reflexivity. Qed.

Lemma preserves_clearErrors : preserves (@fs FS) clearErrors.
Proof. intros w r w' E. inversion E. reflexivity. Qed.

#[local] Hint Resolve preserves_stat preserves_access preserves_readdir preserves_glob
  preserves_getErrors preserves_errors_push preserves_clearErrors : frame.

Lemma preserves_getFileSize {T : Type} (proj : World FS -> T) (p : string) :
  preserves proj (getFileSize p).
Proof. unfold getFileSize. frame. Qed.

Lemma preserves_pathExists {T : Type} (proj : World FS -> T) (p : string) :
  preserves proj (pathExists p).
Proof. unfold pathExists. frame. Qed.

Lemma preserves_isDirectoryEmpty {T : Type} (proj : World FS -> T) (p : string) :
  preserves proj (isDirectoryEmpty p).
Proof. unfold isDirectoryEmpty. frame. Qed.

Lemma preserves_isFileOldEnough {T : Type} (proj : World FS -> T) (p : string) (age : Z) :
  preserves proj (isFileOldEnough platform p age).
Proof. unfold isFileOldEnough. frame. Qed.

Lemma preserves_findFiles (patterns excludes : list string) :
  preserves (@fs FS) (findFiles config patterns excludes).
Proof. unfold findFiles. frame. Qed.

Lemma preserves_findDirectories (patterns excludes : list string) :
  preserves (@fs FS) (findDirectories config patterns excludes).
Proof. unfold findDirectories. frame. Qed.

Lemma preserves_getDirectorySize {T : Type} (proj : World FS -> T) (n : nat) (p : string) :
  preserves proj (getDirectorySize platform n p).
Proof.
  revert p. induction n as [|n IH]; intros p; simpl.
  - apply preserves_diverge.
  - frame.
Qed.

#[local] Hint Resolve preserves_getFileSize preserves_pathExists preserves_isDirectoryEmpty
  preserves_isFileOldEnough preserves_findFiles preserves_findDirectories
  preserves_getDirectorySize : frame.

Lemma preserves_deleteFile_dry (p : string) : preserves (@fs FS) (deleteFile true p).
Proof. unfold deleteFile. simpl. frame. Qed.

Lemma preserves_deleteDirectory_dry (p : string) :
  preserves (@fs FS) (deleteDirectory true platform budget p).
Proof. unfold deleteDirectory. simpl. frame. Qed.

#[local] Hint Resolve preserves_deleteFile_dry preserves_deleteDirectory_dry : frame.

Lemma preserves_probeUniqueName {T : Type} (proj : World FS -> T) (fuel : nat)
    (dirPath name ext : string) (counter : nat) (uniqueName : string) :
  preserves proj (probeUniqueName platform fuel dirPath name ext counter uniqueName).
Proof.
  revert counter uniqueName. induction fuel as [|fuel IH]; intros counter uniqueName; simpl.
  - apply preserves_diverge.
  - frame.
Qed.

#[local] Hint Resolve preserves_probeUniqueName : frame.

Lemma preserves_organizeFile_dry (filePath downloads : string) :
  preserves (@fs FS) (organizeFile config true platform budget filePath downloads).
Proof. unfold organizeFile, generateUniqueFileName. simpl. frame. Qed.

#[local] Hint Resolve preserves_organizeFile_dry : frame.

Lemma preserves_organize_dry : preserves (@fs FS) (organize config true platform budget).
Proof. unfold organize. frame. Qed.

Lemma preserves_cleanTempPath_dry (tempPath : string) :
  preserves (@fs FS) (cleanTempPath config true platform budget tempPath).
Proof. unfold cleanTempPath, cleanTempFile, cleanEmptyDirectory. frame. Qed.

#[local] Hint Resolve preserves_cleanTempPath_dry : frame.

Lemma preserves_TempCleaner_dry : preserves (@fs FS) (TempCleaner.clean config true platform budget).
Proof. unfold TempCleaner.clean. frame. Qed.

Lemma preserves_cleanLinuxTrash_dry (trashPath : string) :
  preserves (@fs FS) (cleanLinuxTrash config true platform budget trashPath).
Proof. unfold cleanLinuxTrash, deleteAndCount, removeIfEmpty. frame. Qed.

Lemma preserves_cleanWindowsRecycleBin_dry (trashPath : string) :
  preserves (@fs FS) (cleanWindowsRecycleBin config true platform budget trashPath).
Proof. unfold cleanWindowsRecycleBin, deleteAndCount, removeIfEmpty. frame. Qed.

#[local] Hint Resolve preserves_cleanLinuxTrash_dry preserves_cleanWindowsRecycleBin_dry : frame.

Lemma preserves_emptyTrashDirectory_dry (trashPath : string) :
  preserves (@fs FS) (emptyTrashDirectory config true platform budget trashPath).
Proof. unfold emptyTrashDirectory, deleteAndCount, removeIfEmpty. frame. Qed.

#[local] Hint Resolve preserves_emptyTrashDirectory_dry : frame.

Lemma preserves_TrashCleaner_dry : preserves (@fs FS) (TrashCleaner.clean config true platform budget).
Proof. unfold TrashCleaner.clean, cleanTrashPath. frame. Qed.

End DryRun.

(** ** The names the organizer probes *)

Section Categorizer.
Context {FS : Type} `{NodeFS FS}.
Variable config : CleanupConfig.
Variable platform : Platform.
Variable budget : nat.

Lemma next_name_shift (name ext : string) (counter : nat) (current : string) (j : nat) :
  next_name name ext (S counter) (name +:+ " (" +:+ show_nat counter +:+ ")" +:+ ext) j
  = next_name name ext counter current (S j).
Proof.
  destruct j; cbn [next_name].
  - rewrite Nat.add_0_r. reflexivity.
  - replace (S counter + j)%nat with (counter + S j)%nat by lia. reflexivity.
Qed.

Lemma probeUniqueName_least (dirPath name ext : string) (w : World FS) (m : nat) :
  forall (fuel counter : nat) (current : string),
    (forall j, (j < m)%nat ->
       fs_access (path_join (getOS platform) dirPath (next_name name ext counter current j))
         F_OK (fs w) = Ok tt) ->
    (exists e,
       fs_access (path_join (getOS platform) dirPath (next_name name ext counter current m))
         F_OK (fs w) = Throw e) ->
    (m < fuel)%nat ->
    probeUniqueName platform fuel dirPath name ext counter current w
    = Some (Ok (next_name name ext counter current m), w).
Proof.
  induction m as [|m IH]; intros fuel counter current Htaken [e Hfree] Hfuel;
    (destruct fuel as [|fuel]; [lia|]); cbn [probeUniqueName]; unfold bind;
    rewrite pathExists_eq.
  - cbn [next_name] in Hfree. rewrite Hfree. reflexivity.
  - pose proof (Htaken O ltac:(lia)) as Hfirst. cbn [next_name] in Hfirst.
    rewrite Hfirst.
    rewrite (IH fuel (S counter) (name +:+ " (" +:+ show_nat counter +:+ ")" +:+ ext)).
    + rewrite (next_name_shift name ext counter current). reflexivity.
    + intros j Hj. rewrite (next_name_shift name ext counter current).
      apply Htaken. lia.
    + exists e. rewrite (next_name_shift name ext counter current). exact Hfree.
    + lia.
Qed.

Lemma candidate_next_name (fileName : string) (n : nat) :
  next_name (parse_name fileName) (extname fileName) 1 fileName n = candidate fileName n.
Proof. destruct n; reflexivity. Qed.

End Categorizer.

(** ** Dry-run reports against live reports *)

(** C1, as stated, fails: on a temp directory whose only file is read-only
    the dry run reports one file and 5 bytes, the live run on the same
    state reports none and records an error. The totals of a task differ
    even when no operation fails. On [protected_world] the live sweep of
    [/tmp] removes the one file and then the directory it has emptied,
    and counts two entries; the dry sweep finds the directory still full
    and counts one. And the temp task, which lists [/tmp] twice among its
    roots, counts the file twice on a dry run, 14 bytes, and once on a
    live run, 7 bytes; neither run records an error. *)
Lemma dry_run_counts_differ_from_live :
  deleteFile true "/tmp/locked.tmp" readonly_world
    = Some (Ok (mkDeleteResult true 5), readonly_world) /\
  deleteFile false "/tmp/locked.tmp" readonly_world
    = Some (Ok (mkDeleteResult false 0), mkWorld (fs readonly_world) [locked_message]) /\
  cleanTempPath plain_config true linux_box 5 "/tmp" readonly_world
    = Some (Ok (mkCounts 1 5), readonly_world) /\
  cleanTempPath plain_config false linux_box 5 "/tmp" readonly_world
    = Some (Ok (mkCounts 0 0), mkWorld (fs readonly_world) [locked_message]) /\
  cleanTempPath plain_config true linux_box 5 "/tmp" protected_world
    = Some (Ok (mkCounts 1 7), protected_world) /\
  (exists w',
     cleanTempPath plain_config false linux_box 5 "/tmp" protected_world
       = Some (Ok (mkCounts 2 7), w') /\
     errors w' = []) /\
  TempCleaner.clean plain_config true linux_box 5 protected_world
    = Some (Ok (mkResult "temp" 2 14 None None []), protected_world) /\
  (exists w',
     TempCleaner.clean plain_config false linux_box 5 protected_world
       = Some (Ok (mkResult "temp" 2 7 None None []), w')).
Proof.
  repeat split; try (vm_compute; reflexivity); eexists; try split; vm_compute; reflexivity.
Qed.

Section Projection.
Context {FS : Type} `{NodeFS FS}.
Variable config : CleanupConfig.
Variable platform : Platform.
Variable budget : nat.

Lemma probeUniqueName_shape (fuel : nat) (dirPath name ext : string) (counter : nat)
    (uniqueName : string) (w : World FS) :
  probeUniqueName platform fuel dirPath name ext counter uniqueName w = None \/
  exists free, probeUniqueName platform fuel dirPath name ext counter uniqueName w
               = Some (Ok free, w).
Proof.
  revert counter uniqueName.
  induction fuel as [|fuel IH]; intros counter uniqueName; simpl.
  - left. reflexivity.
  - unfold bind. rewrite pathExists_eq.
    destruct (fs_access _ F_OK (fs w)).
    + apply IH.
    + right. eexists. reflexivity.
Qed.

Lemma deleteDirectory_live_dry (dirPath : string) (w w' : World FS) (live : DeleteResult) :
  deleteDirectory false platform budget dirPath w = Some (Ok live, w') ->
  deleted live = true ->
  deleteDirectory true platform budget dirPath w = Some (Ok live, w).
Proof.
  unfold deleteDirectory, try_catch, bind. simpl.
  destruct (getDirectorySize platform budget dirPath w) as [[[size|e] w1]|] eqn:E;
    try discriminate.
  - assert (w1 = w) by exact (preserves_getDirectorySize platform (fun w => w) _ _ _ _ _ E).
    subst w1. unfold remove, write, errors_push, ret.
    destruct (fs_remove dirPath (fs w)) as [[[]|e] fs']; intros E1 D;
      inversion E1; subst; simpl in D; try discriminate.
    reflexivity.
  - unfold errors_push, ret. intros E1 D. inversion E1; subst. discriminate.
Qed.

Lemma organizeFile_live_dry (filePath downloads : string) (w w' : World FS) :
  organizeFile config false platform budget filePath downloads w = Some (Ok true, w') ->
  forall r w'', organizeFile config true platform budget filePath downloads w = Some (r, w'') ->
                r = Ok true.
Proof.
  unfold organizeFile, try_catch. cbv zeta.
  destruct (_ || _).
  { unfold ret. intros E. discriminate. }
  destruct (getCategoryForExtension config _) as [category|].
  2:{ unfold ret. intros E. discriminate. }
  destruct (String.eqb category "").
  { unfold ret. intros E. discriminate. }
  intros _ r w''. simpl. unfold bind at 1 2. unfold ret at 1.
  rewrite pathExists_eq.
  destruct (fs_access _ F_OK (fs w)).
  - unfold bind, generateUniqueFileName.
    match goal with
    | |- context [probeUniqueName ?p ?f ?d ?n ?e ?c ?u w] =>
        destruct (probeUniqueName_shape f d n e c u w) as [E|[free E]]; rewrite E
    end.
    + discriminate.
    + unfold ret. intros E1. inversion E1. reflexivity.
  - unfold bind, ret. intros E1. inversion E1. reflexivity.
Qed.

Lemma deleteDirectory_dry_counts (dirPath : string) (w w' : World FS) (r : Result DeleteResult) :
  deleteDirectory false platform budget dirPath w = Some (r, w') ->
  exists size,
    deleteDirectory true platform budget dirPath w = Some (Ok (mkDeleteResult true size), w).
Proof.
  unfold deleteDirectory, try_catch, bind. simpl.
  destruct (getDirectorySize platform budget dirPath w) as [[[size|e] w1]|] eqn:E;
    try discriminate.
  - assert (w1 = w) by exact (preserves_getDirectorySize platform (fun w => w) _ _ _ _ _ E).
    subst w1. intros _. exists size. reflexivity.
  - exfalso. destruct budget as [|budget']; [discriminate E|].
    cbn [getDirectorySize] in E. unfold try_catch, ret in E.
    destruct (with_locals _ _ _) as [[[?|?] ?]|]; discriminate E.
Qed.

Lemma organizeFile_dry_answer (filePath downloads : string) (w w' : World FS) (r : Result bool) :
  organizeFile config true platform budget filePath downloads w = Some (r, w') ->
  r = Ok (has_category_folder config platform filePath) /\ w' = w.
Proof.
  unfold organizeFile, has_category_folder, try_catch. cbv zeta.
  destruct (_ || _); cbn [negb andb].
  { unfold ret. intros E. inversion E. split; reflexivity. }
  destruct (getCategoryForExtension config _) as [category|].
  2:{ unfold ret. intros E. inversion E. split; reflexivity. }
  destruct (String.eqb category ""); cbn [negb].
  { unfold ret. intros E. inversion E. split; reflexivity. }
  simpl. unfold bind at 1 2. unfold ret at 1.
  rewrite pathExists_eq.
  destruct (fs_access _ F_OK (fs w)).
  - unfold bind, generateUniqueFileName.
    match goal with
    | |- context [probeUniqueName ?p ?f ?d ?n ?e ?c ?u w] =>
        destruct (probeUniqueName_shape f d n e c u w) as [E|[free E]]; rewrite E
    end.
    + discriminate.
    + unfold ret. intros E1. inversion E1. split; reflexivity.
  - unfold bind, ret. intros E1. inversion E1. split; reflexivity.
Qed.

Lemma first_free_name (taken : nat -> Result unit) (n : nat) :
  (exists e, taken n = Throw e) ->
  exists m, (m <= n)%nat /\ (forall j, (j < m)%nat -> taken j = Ok tt) /\
            exists e, taken m = Throw e.
Proof.
  induction n as [n IH] using lt_wf_ind. intros [e Hfree].
  assert ((forall j, (j < n)%nat -> taken j = Ok tt) \/
          exists j e', (j < n)%nat /\ taken j = Throw e') as [Hall|(j & e' & Hj & Hfree')].
  { clear IH Hfree. induction n as [|n IHn].
    - left. intros j Hj. lia.
    - destruct IHn as [Hall|(j & e' & Hj & Hfree')].
      + destruct (taken n) as [[]|e'] eqn:En.
        * left. intros j Hj. destruct (decide (j = n)) as [->|]; [exact En|apply Hall; lia].
        * right. exists n, e'. split; [lia|exact En].
      + right. exists j, e'. split; [lia|exact Hfree']. }
  - exists n. split; [lia|]. split; [exact Hall|]. exists e. exact Hfree.
  - destruct (IH j Hj (ex_intro _ e' Hfree')) as (m & Hm & Hbelow & Hm').
    exists m. split; [lia|]. split; assumption.
Qed.

Lemma organizeFile_dry_returns (filePath downloads : string) (w : World FS) (c : string) (n : nat) :
  let os := getOS platform in
  let fileName := basename os filePath in
  getCategoryForExtension config (toLowerCase (extname fileName)) = Some c ->
  (exists e,
     fs_access (path_join os (path_join os downloads c) (candidate fileName n)) F_OK (fs w)
     = Throw e) ->
  (n < budget)%nat \/ n = O ->
  organizeFile config true platform budget filePath downloads w
  = Some (Ok (has_category_folder config platform filePath), w).
Proof.
  intros os fileName Hcat Hfree Hn.
  destruct (first_free_name
              (fun j => fs_access (path_join os (path_join os downloads c) (candidate fileName j))
                          F_OK (fs w)) n Hfree) as (m & Hm & Htaken & [e Hm']).
  unfold organizeFile, has_category_folder, try_catch. cbv zeta.
  fold os. fold fileName. rewrite Hcat.
  destruct (_ || _); cbn [negb andb]; [reflexivity|].
  destruct (String.eqb c ""); cbn [negb]; [reflexivity|].
  unfold bind at 1. unfold ret at 1. unfold bind at 1. unfold bind at 2.
  rewrite pathExists_eq.
  destruct m as [|m].
  - cbn [candidate] in Hm'. rewrite Hm'. reflexivity.
  - pose proof (Htaken O ltac:(lia)) as Hfirst. cbn [candidate] in Hfirst.
    rewrite Hfirst.
    unfold bind at 1. unfold generateUniqueFileName.
    rewrite (probeUniqueName_least platform (path_join os downloads c) (parse_name fileName)
               (extname fileName) w (S m)).
    + reflexivity.
    + intros j Hj. rewrite candidate_next_name. apply Htaken, Hj.
    + exists e. rewrite candidate_next_name. exact Hm'.
    + destruct Hn as [Hn|Hn]; lia.
Qed.

Lemma organizeFile_live_failure (filePath downloads : string) (w w' : World FS) (r : Result bool) :
  organizeFile config false platform budget filePath downloads w = Some (r, w') ->
  errors w' <> errors w ->
  has_category_folder config platform filePath = true.
Proof.
  unfold organizeFile, has_category_folder, try_catch. cbv zeta.
  destruct (_ || _); cbn [negb andb].
  { unfold ret. intros E. inversion E. congruence. }
  destruct (getCategoryForExtension config _) as [category|].
  2:{ unfold ret. intros E. inversion E. congruence. }
  destruct (String.eqb category ""); cbn [negb].
  { unfold ret. intros E. inversion E. congruence. }
  reflexivity.
Qed.

(** C1, amended. A dry run of [deleteFile], [deleteDirectory] or
    [organizeFile], and of the temp, trash and downloads tasks built from
    them, leaves the file system exactly as it found it. What a dry run
    of one of the three operations reports is a projection. [deleteFile]
    answers [deleted = true] with the size read by [stat], whatever the
    live call would do. [deleteDirectory] answers [deleted = true] with
    the size of the tree whenever the live call on the same state
    answers at all, failed or not. [organizeFile] answers whether the
    organizer has a category folder for the entry, whatever the disk
    holds, and it answers as soon as one of the names it may probe is
    free; a live call that records a failure is one the dry run counts.
    Whenever the live operation on the same state succeeds, the dry run
    reports that same value. Nothing is stated for the totals of a task:
    they can differ from the live totals even when no operation fails. *)
Theorem dry_run_is_a_projection (filePath downloads : string) :
  preserves (@fs FS) (deleteFile true filePath) /\
  preserves (@fs FS) (deleteDirectory true platform budget filePath) /\
  preserves (@fs FS) (organizeFile config true platform budget filePath downloads) /\
  preserves (@fs FS) (TempCleaner.clean config true platform budget) /\
  preserves (@fs FS) (TrashCleaner.clean config true platform budget) /\
  preserves (@fs FS) (organize config true platform budget) /\
  (forall w : World FS,
     deleteFile true filePath w = Some (Ok (mkDeleteResult true (size_of filePath w)), w) /\
     forall live w', deleteFile false filePath w = Some (Ok live, w') ->
                     deleted live = true ->
                     live = mkDeleteResult true (size_of filePath w)) /\
  (forall (w w' : World FS) live,
     deleteDirectory false platform budget filePath w = Some (Ok live, w') ->
     deleted live = true ->
     deleteDirectory true platform budget filePath w = Some (Ok live, w)) /\
  (forall w w' : World FS,
     organizeFile config false platform budget filePath downloads w = Some (Ok true, w') ->
     forall r w'', organizeFile config true platform budget filePath downloads w = Some (r, w'') ->
                   r = Ok true) /\
  (forall (w w' : World FS) r,
     deleteDirectory false platform budget filePath w = Some (r, w') ->
     exists size,
       deleteDirectory true platform budget filePath w
       = Some (Ok (mkDeleteResult true size), w)) /\
  (forall (w w' : World FS) r,
     organizeFile config true platform budget filePath downloads w = Some (r, w') ->
     r = Ok (has_category_folder config platform filePath) /\ w' = w) /\
  (forall (w : World FS) c n,
     let os := getOS platform in
     let fileName := basename os filePath in
     getCategoryForExtension config (toLowerCase (extname fileName)) = Some c ->
     (exists e,
        fs_access (path_join os (path_join os downloads c) (candidate fileName n)) F_OK (fs w)
        = Throw e) ->
     (n < budget)%nat \/ n = O ->
     organizeFile config true platform budget filePath downloads w
     = Some (Ok (has_category_folder config platform filePath), w)) /\
  (forall (w : World FS),
     has_category_folder config platform filePath = false ->
     organizeFile config true platform budget filePath downloads w = Some (Ok false, w)) /\
  (forall (w w' : World FS) r,
     organizeFile config false platform budget filePath downloads w = Some (r, w') ->
     errors w' <> errors w ->
     has_category_folder config platform filePath = true).
Proof.
  split; [apply preserves_deleteFile_dry|].
  split; [apply preserves_deleteDirectory_dry|].
  split; [apply preserves_organizeFile_dry|].
  split; [apply preserves_TempCleaner_dry|].
  split; [apply preserves_TrashCleaner_dry|].
  split; [apply preserves_organize_dry|].
  split; [|split].
  - intros w. split.
    + apply (deleteFile_unfold true).
    + intros live w'. rewrite (deleteFile_unfold false). unfold delete_failed.
      destruct (fs_access filePath W_OK (fs w)).
      * destruct (fs_remove filePath (fs w)) as [[[]|e] fs']; intros E D;
          inversion E; subst; try discriminate; reflexivity.
      * intros E D. inversion E; subst. discriminate.
  - intros w w' live. apply deleteDirectory_live_dry.
  - split; [intros w w'; apply organizeFile_live_dry|].
    split; [intros w w' r; apply deleteDirectory_dry_counts|].
    split; [intros w w' r; apply organizeFile_dry_answer|].
    split; [intros w c n; apply organizeFile_dry_returns|].
    split; [|intros w w' r; apply organizeFile_live_failure].
    intros w. unfold organizeFile, has_category_folder, try_catch. cbv zeta.
    destruct (_ || _); cbn [negb andb]; [reflexivity|].
    destruct (getCategoryForExtension config _) as [category|]; [|reflexivity].
    destruct (String.eqb category ""); cbn [negb]; [reflexivity|discriminate].
Qed.

End Projection.

(** The theorem on [aged_world]: the live deletion of [/tmp/five.tmp]
    succeeds, so the dry run reports the very same record, and leaves the
    world alone. *)
Lemma dry_run_is_a_projection_witness :
  exists live w',
    deleteFile false "/tmp/five.tmp" aged_world = Some (Ok live, w') /\
    deleted live = true /\
    deleteFile true "/tmp/five.tmp" aged_world = Some (Ok live, aged_world).
Proof.
  destruct (dry_run_is_a_projection plain_config linux_box 5 "/tmp/five.tmp" "/home/u/Downloads")
    as (_ & _ & _ & _ & _ & _ & Hfile & _).
  destruct (Hfile aged_world) as (Hdry & Hlive).
  destruct (deleteFile false "/tmp/five.tmp" aged_world) as [[[live|e] w']|] eqn:E;
    try (vm_compute in E; discriminate E).
  exists live, w'. split; [reflexivity|].
  assert (deleted live = true) as Hdeleted.
  { vm_compute in E. injection E as <- _. reflexivity. }
  split; [exact Hdeleted|].
  rewrite (Hlive live w' eq_refl Hdeleted). exact Hdry.
Defined.

(** C10. Under dry-run [deleteFile] answers [deleted = true] for every
    path, whether or not it exists or can be written to; when [stat] fails
    (a path that does not exist) the reported size is 0. So a dry run can
    count a file whose live deletion fails: on [readonly_world] the dry
    run of the temp sweep counts the read-only file, the live run counts
    nothing and records the failure as an error. *)
Theorem dry_run_deletes_every_path :
  (forall (FS : Type) (NFS : NodeFS FS) (filePath : string) (w : World FS),
     exists size,
       deleteFile true filePath w = Some (Ok (mkDeleteResult true size), w) /\
       (forall error, fs_stat filePath (fs w) = Throw error -> size = 0)) /\
  deleteFile true "/tmp/missing.tmp" readonly_world
    = Some (Ok (mkDeleteResult true 0), readonly_world) /\
  deleteFile true "/tmp/locked.tmp" readonly_world
    = Some (Ok (mkDeleteResult true 5), readonly_world) /\
  (exists dry live w',
     cleanTempPath plain_config true linux_box 5 "/tmp" readonly_world
       = Some (Ok dry, readonly_world) /\
     cleanTempPath plain_config false linux_box 5 "/tmp" readonly_world
       = Some (Ok live, w') /\
     c_filesDeleted dry = 1 /\ c_filesDeleted live = 0 /\
     errors w' = [locked_message]).
Proof.
  split; [|split; [|split]].
  - intros FS NFS filePath w. exists (size_of filePath w). split.
    + apply (deleteFile_unfold true).
    + intros error E. unfold size_of. rewrite E. reflexivity.
  - vm_compute. reflexivity.
  - vm_compute. reflexivity.
  - do 3 eexists. repeat split; vm_compute; reflexivity.
Qed.

(** ** Trash *)

(** On Windows and Linux [emptyTrashDirectory] never touches its own
    counters: whatever the helper counted is dropped. *)
Lemma emptyTrashDirectory_drops_counts {FS : Type} `{NodeFS FS}
    (config : CleanupConfig) (dryRun : bool) (platform : Platform) (budget : nat)
    (trashPath : string) (w w' : World FS) (r : Result Counts) :
  getOS platform <> macos ->
  emptyTrashDirectory config dryRun platform budget trashPath w = Some (r, w') ->
  r = Ok (mkCounts 0 0).
Proof.
  intros Hos. unfold emptyTrashDirectory, with_locals, bind, try_catch, lift, local_get, ret.
  cbv beta iota zeta delta [fst snd].
  destruct (getOS platform) eqn:Eos; try congruence.
  - destruct (cleanWindowsRecycleBin config dryRun platform budget trashPath w)
      as [[[c|e] w1]|]; cbv beta iota zeta delta [fst snd errors_push];
      intros E; inversion E; reflexivity.
  - destruct (cleanLinuxTrash config dryRun platform budget trashPath w)
      as [[[c|e] w1]|]; cbv beta iota zeta delta [fst snd errors_push];
      intros E; inversion E; reflexivity.
Qed.

(** C2, evaluated. A live run of the trash task on [trash_fixture] removes
    the two files and the two sidecars, and [cleanLinuxTrash] counts them
    (4 entries, 33 bytes), but the record the task returns says
    [filesDeleted = 0] and [spaceSaved = 0]. *)
Theorem linux_trash_result_counts_nothing :
  TrashCleaner.clean plain_config false linux_box 5 trash_fixture
    = Some (Ok (mkResult "trash" 0 0 None None []), emptied_trash) /\
  cleanLinuxTrash plain_config false linux_box 5 "/home/u/.local/share/Trash" trash_fixture
    = Some (Ok (mkCounts 4 33), emptied_trash).
Proof. split; vm_compute; reflexivity. Qed.

(** ** Exclusions and the glob-driven sweeps *)

(** C3, evaluated. With [exclusions = ["important-folder"]] the temp sweep
    still deletes [/tmp/important-folder/session.tmp], and then the
    emptied directory itself, and the downloads task still moves
    [important-folder.jpg]: the sweeps hand the exclusions to the glob
    engine as ignore patterns, and the pattern [important-folder] is not
    the path of anything the sweeps find. *)
Theorem exclusion_substring_not_honoured_by_sweeps :
  includes "/tmp/important-folder/session.tmp" "important-folder" = true /\
  cleanTempPath excluding_config false linux_box 5 "/tmp" protected_world
    = Some (Ok (mkCounts 2 7),
            tree
              [ ("/tmp", directory);
                ("/home/u", directory);
                ("/home/u/Downloads", directory);
                ("/home/u/Downloads/important-folder.jpg", file 9 0) ]) /\
  includes "/home/u/Downloads/important-folder.jpg" "important-folder" = true /\
  organize excluding_config false linux_box 5 protected_world
    = Some (Ok (mkResult "downloads" 0 0 (Some 1) None []),
            tree
              [ ("/tmp", directory);
                ("/tmp/important-folder", directory);
                ("/tmp/important-folder/session.tmp", file 7 0);
                ("/home/u", directory);
                ("/home/u/Downloads", directory);
                ("/home/u/Downloads/Images", directory);
                ("/home/u/Downloads/Images/important-folder.jpg", file 9 0) ]).
Proof. repeat split; vm_compute; reflexivity. Qed.

(** ** The age filter *)

Section AgeFilter.
Context {FS : Type} `{NodeFS FS}.
Variable config : CleanupConfig.
Variable dryRun : bool.
Variable platform : Platform.
Variable budget : nat.

Lemma isFileOldEnough_eq (filePath : string) (maxAgeInDays : Z) (w : World FS) :
  isFileOldEnough platform filePath maxAgeInDays w =
  Some (Ok (if maxAgeInDays =? 0 then true
            else match fs_stat filePath (fs w) with
                 | Ok stats =>
                     maxAgeInDays * 24 * 60 * 60 * 1000 <? Date_now platform - st_mtime stats
                 | Throw _ => false
                 end), w).
Proof.
  unfold isFileOldEnough. destruct (maxAgeInDays =? 0); [reflexivity|].
  unfold try_catch, bind, stat, ret.
  destruct (fs_stat filePath (fs w)); reflexivity.
Qed.

Lemma cleanTempFile_eq (file : string) (wc : World FS * Counts) :
  cleanTempFile config dryRun platform file wc =
  Some (Ok tt,
        if admitted_by_age config platform (fs (fst wc)) file
        then delete_counted dryRun file wc else wc).
Proof.
  destruct wc as [w c]. unfold cleanTempFile. unfold bind at 1. unfold lift at 1.
  cbv beta iota zeta delta [fst snd]. rewrite isFileOldEnough_eq.
  replace (if maxFileAge config =? 0 then true else _)
    with (admitted_by_age config platform (fs w) file)
    by (unfold admitted_by_age; destruct (maxFileAge config =? 0); reflexivity).
  destruct (admitted_by_age config platform (fs w) file); [|reflexivity].
  unfold bind, lift, delete_counted. cbv beta iota zeta delta [fst snd].
  rewrite deleteFile_unfold. destruct dryRun; [reflexivity|].
  destruct (fs_access file W_OK (fs w)) as [[]|error]; [|reflexivity].
  destruct (fs_remove file (fs w)) as [[[]|error] disk']; reflexivity.
Qed.

Lemma age_sweep_loop (files : list string) (wc : World FS * Counts) :
  for_of files (cleanTempFile config dryRun platform) wc =
  Some (Ok tt, age_sweep config platform dryRun files wc).
Proof.
  revert wc. induction files as [|file files IH]; intros wc; [reflexivity|].
  cbn [for_of]. unfold bind at 1. rewrite cleanTempFile_eq. apply IH.
Qed.

Lemma cleanTempPath_sweeps (tempPath : string) (files : list string) (w : World FS) :
  temp_files_found config platform tempPath (fs w) files ->
  let swept := age_sweep config platform dryRun files (w, mkCounts 0 0) in
  no_subdirectories config platform tempPath (fs (fst swept)) ->
  cleanTempPath config dryRun platform budget tempPath w = Some (Ok (snd swept), fst swept).
Proof.
  intros Hfiles swept Hdirs. unfold temp_files_found, no_subdirectories in *.
  unfold cleanTempPath, with_locals. unfold bind at 1. unfold try_catch at 1.
  unfold bind at 1. unfold lift at 1, findFiles, try_catch at 1, bind at 1, glob at 1.
  cbv beta iota zeta delta [fst snd app map]. fold (map normalizeSlashes).
  rewrite Hfiles. unfold ret at 1. cbv beta iota.
  unfold bind at 1. rewrite age_sweep_loop. fold swept.
  unfold bind at 1. unfold lift at 1, findDirectories, try_catch at 1, bind at 1, glob at 1.
  cbv beta iota zeta delta [app]. rewrite Hdirs. unfold ret at 1.
  destruct swept as [w1 c1]. reflexivity.
Qed.

(** C6. The age filter answers true exactly when [maxFileAge] is 0 or
    the file's modification time can be read and [now - mtime] is
    strictly more than [maxFileAge] days; so, with a non-zero
    [maxFileAge], a file exactly that many days old is not admitted and
    a file one day older is. The sweep of a temp path applies the filter
    to every file its search finds, in order: a file that is not
    admitted is passed over, an admitted file is deleted and counted
    ([age_sweep]). For a temp path whose search finds one file and no
    directory: when the file is not admitted, the sweep leaves the world
    as it is and counts nothing, in either mode; when it is admitted, a
    live run on which the access check and the removal succeed removes
    it and counts it with its size, and a dry run counts it and leaves
    it. *)
Theorem age_filter_strict (tempPath : string) (files : list string) (w : World FS) :
  temp_files_found config platform tempPath (fs w) files ->
  let day := 24 * 60 * 60 * 1000 in
  let days := maxFileAge config in
  let swept := age_sweep config platform dryRun files (w, mkCounts 0 0) in
  (forall file w0,
     isFileOldEnough platform file days w0
     = Some (Ok (admitted_by_age config platform (fs w0) file), w0)) /\
  (forall file disk stats,
     fs_stat file disk = Ok stats ->
     let age := Date_now platform - st_mtime stats in
     (admitted_by_age config platform disk file = true <-> days = 0 \/ age > days * day) /\
     (days <> 0 -> age = days * day -> admitted_by_age config platform disk file = false) /\
     (age = (days + 1) * day -> admitted_by_age config platform disk file = true)) /\
  (forall file disk error,
     fs_stat file disk = Throw error ->
     (admitted_by_age config platform disk file = true <-> days = 0)) /\
  for_of files (cleanTempFile config dryRun platform) (w, mkCounts 0 0) = Some (Ok tt, swept) /\
  (no_subdirectories config platform tempPath (fs (fst swept)) ->
   cleanTempPath config dryRun platform budget tempPath w = Some (Ok (snd swept), fst swept)) /\
  (forall file stats,
     files = [file] ->
     fs_stat file (fs w) = Ok stats ->
     let age := Date_now platform - st_mtime stats in
     (days <> 0 -> age <= days * day ->
      no_subdirectories config platform tempPath (fs w) ->
      cleanTempPath config dryRun platform budget tempPath w = Some (Ok (mkCounts 0 0), w)) /\
     (days = 0 \/ age > days * day ->
      dryRun = true ->
      no_subdirectories config platform tempPath (fs w) ->
      cleanTempPath config dryRun platform budget tempPath w
      = Some (Ok (mkCounts 1 (st_size stats)), w)) /\
     (days = 0 \/ age > days * day ->
      dryRun = false ->
      forall disk',
        fs_access file W_OK (fs w) = Ok tt ->
        fs_remove file (fs w) = (Ok tt, disk') ->
        no_subdirectories config platform tempPath disk' ->
        cleanTempPath config dryRun platform budget tempPath w
        = Some (Ok (mkCounts 1 (st_size stats)), mkWorld disk' (errors w)))).
Proof.
  intros Hfiles day days swept.
  assert (forall file disk stats,
            fs_stat file disk = Ok stats ->
            (admitted_by_age config platform disk file = true <->
             days = 0 \/ Date_now platform - st_mtime stats > days * day)) as Hfilter.
  { intros file disk stats Hstat. unfold admitted_by_age. rewrite Hstat. fold days.
    destruct (days =? 0) eqn:E0; cbn [orb].
    - apply Z.eqb_eq in E0. split; auto.
    - apply Z.eqb_neq in E0. rewrite Z.ltb_lt. unfold day. split; [intros; right; lia|].
      intros [?|?]; [contradiction|lia]. }
  split; [|split; [|split; [|split; [|split]]]].
  - intros file w0. rewrite isFileOldEnough_eq. unfold admitted_by_age. fold days.
    destruct (days =? 0); reflexivity.
  - intros file disk stats Hstat age. split; [exact (Hfilter file disk stats Hstat)|]. split.
    + intros Hne Hage. apply not_true_is_false. intros Hyes.
      apply (Hfilter file disk stats Hstat) in Hyes. fold age in Hyes. lia.
    + intros Hage. apply (Hfilter file disk stats Hstat). fold age. right. unfold day in *. lia.
  - intros file disk error Hstat. unfold admitted_by_age. rewrite Hstat. fold days.
    destruct (days =? 0) eqn:E0; cbn [orb].
    + apply Z.eqb_eq in E0. split; auto.
    + apply Z.eqb_neq in E0. split; [discriminate|contradiction].
  - apply age_sweep_loop.
  - apply cleanTempPath_sweeps. exact Hfiles.
  - intros file stats -> Hstat age.
    pose proof (cleanTempPath_sweeps tempPath [file] w Hfiles) as Hsweep.
    cbv zeta in Hsweep. unfold age_sweep in Hsweep. cbn [fold_left fst snd] in Hsweep.
    pose proof (Hfilter file (fs w) stats Hstat) as Hadmitted. fold age in Hadmitted.
    split; [|split].
    + intros Hne Hage Hdirs.
      destruct (admitted_by_age config platform (fs w) file) eqn:E.
      * destruct Hadmitted as [Hyes _]. specialize (Hyes eq_refl). lia.
      * apply Hsweep. exact Hdirs.
    + intros Hold -> Hdirs. apply Hadmitted in Hold. rewrite Hold in Hsweep.
      unfold delete_counted, size_of in Hsweep. cbn [fst snd] in Hsweep.
      rewrite Hstat in Hsweep. apply Hsweep. exact Hdirs.
    + intros Hold -> disk' Haccess Hremove Hdirs. apply Hadmitted in Hold. rewrite Hold in Hsweep.
      unfold delete_counted, size_of in Hsweep. cbn [fst snd] in Hsweep.
      rewrite Hstat, Haccess, Hremove in Hsweep. apply Hsweep. exact Hdirs.
Qed.

End AgeFilter.

(** The theorem at [maxFileAge = 5] on a temp directory that holds a
    file modified exactly five days ago and a file modified six days
    ago: a live sweep removes the second and keeps the first. *)
Lemma age_filter_strict_witness :
  temp_files_found (aged_config 5) linux_box "/tmp" (fs aged_world)
    ["/tmp/six.tmp"; "/tmp/five.tmp"] /\
  cleanTempPath (aged_config 5) false linux_box 5 "/tmp" aged_world
  = Some (Ok (mkCounts 1 4),
          tree
            [ ("/tmp", directory);
              ("/tmp/five.tmp", file 3 (1700000000000 - 5 * day_ms)) ]).
Proof.
  assert (temp_files_found (aged_config 5) linux_box "/tmp" (fs aged_world)
            ["/tmp/six.tmp"; "/tmp/five.tmp"]) as Hfiles
    by (vm_compute; reflexivity).
  split; [exact Hfiles|].
  destruct (age_filter_strict (aged_config 5) false linux_box 5 "/tmp"
              ["/tmp/six.tmp"; "/tmp/five.tmp"] aged_world Hfiles)
    as (_ & _ & _ & _ & Hsweep & _).
  rewrite Hsweep; vm_compute; reflexivity.
Defined.

(** Scenario: with [maxFileAge = 5] the sweep removes the six-day-old file
    and keeps the five-day-old one. *)
Example age_boundary_sweep :
  cleanTempPath (aged_config 5) false linux_box 5 "/tmp" aged_world
  = Some (Ok (mkCounts 1 4),
          tree
            [ ("/tmp", directory);
              ("/tmp/five.tmp", file 3 (1700000000000 - 5 * day_ms)) ]).
Proof. vm_compute. reflexivity. Qed.

(** ** The downloads categorizer *)


Section CategorizerContract.
Context {FS : Type} `{NodeFS FS}.
Variable config : CleanupConfig.
Variable platform : Platform.
Variable budget : nat.

Lemma organizeFile_untouched (dryRun : bool) (filePath downloads : string) (w : World FS) :
  let fileName := basename (getOS platform) filePath in
  let fileExt := toLowerCase (extname fileName) in
  let category := getCategoryForExtension config fileExt in
  fileExt = "" \/ startsWith fileName "." = true \/ category = None \/ category = Some "" ->
  organizeFile config dryRun platform budget filePath downloads w = Some (Ok false, w).
Proof.
  intros fileName fileExt category Hskip.
  unfold organizeFile, try_catch. cbv zeta. fold fileName. fold fileExt. fold category.
  destruct (String.eqb fileExt "" || startsWith fileName ".") eqn:Eguard; [reflexivity|].
  apply orb_false_iff in Eguard. destruct Eguard as [Eext Ehidden].
  apply String.eqb_neq in Eext.
  destruct Hskip as [?|[?|[Hc|Hc]]]; try congruence; rewrite Hc; reflexivity.
Qed.

Lemma organizeFile_moves (filePath downloads : string) (w : World FS)
    (c : string) (fs1 : FS) (n : nat) :
  let os := getOS platform in
  let fileName := basename os filePath in
  let fileExt := toLowerCase (extname fileName) in
  let categoryPath := path_join os downloads c in
  fileExt <> "" ->
  startsWith fileName "." = false ->
  getCategoryForExtension config fileExt = Some c ->
  c <> "" ->
  fs_ensureDir categoryPath (fs w) = (Ok tt, fs1) ->
  (forall j, (j < n)%nat ->
     fs_access (path_join os categoryPath (candidate fileName j)) F_OK fs1 = Ok tt) ->
  (exists e, fs_access (path_join os categoryPath (candidate fileName n)) F_OK fs1 = Throw e) ->
  (n < budget)%nat \/ n = O ->
  organizeFile config false platform budget filePath downloads w =
  match fs_move filePath (path_join os categoryPath (candidate fileName n)) fs1 with
  | (Ok _, fs2) => Some (Ok true, mkWorld fs2 (errors w))
  | (Throw e, fs2) =>
      Some (Ok false,
            mkWorld fs2
              (errors w ++ ["Failed to organize file " +:+ filePath +:+ ": " +:+ errMessage e]))
  end.
Proof.
  intros os fileName fileExt categoryPath Hext Hhidden Hcat Hc Hdir Htaken [e Hfree] Hn.
  unfold organizeFile, try_catch. cbv zeta.
  fold os. fold fileName. fold fileExt. rewrite Hcat.
  apply String.eqb_neq in Hext. apply String.eqb_neq in Hc.
  rewrite Hext, Hhidden, Hc. cbn [orb negb].
  fold categoryPath.
  unfold bind at 1. unfold ensureDir at 1, write. rewrite Hdir.
  unfold bind at 1. unfold bind at 2. rewrite pathExists_eq. cbn [fs errors].
  destruct n as [|n].
  - cbn [candidate] in Hfree. rewrite Hfree.
    unfold move, write, bind, ret, errors_push. cbn [fs errors].
    cbn [candidate].
    destruct (fs_move filePath (path_join os categoryPath fileName) fs1) as [[[]|e'] fs2];
      reflexivity.
  - pose proof (Htaken O ltac:(lia)) as Hfirst. cbn [candidate] in Hfirst.
    rewrite Hfirst.
    unfold bind at 1. unfold generateUniqueFileName.
    rewrite (probeUniqueName_least platform categoryPath (parse_name fileName)
               (extname fileName) (mkWorld fs1 (errors w)) (S n)).
    + rewrite candidate_next_name.
      unfold move, write, bind, ret, errors_push. cbn [fs errors].
      destruct (fs_move filePath _ fs1) as [[[]|e'] fs2]; reflexivity.
    + intros j Hj. rewrite candidate_next_name. cbn [fs]. apply Htaken, Hj.
    + exists e. rewrite candidate_next_name. cbn [fs]. exact Hfree.
    + destruct Hn; [assumption|discriminate].
Qed.

Lemma firstCategory_first (entries : list (string * list string)) (extension : string) :
  first_listing entries extension (firstCategory entries extension).
Proof.
  induction entries as [|[c extensions] rest IH]; cbn [firstCategory first_listing].
  - constructor.
  - destruct (bool_decide (extension ∈ extensions)) eqn:Elisted.
    + apply bool_decide_eq_true in Elisted. apply list_elem_of_In in Elisted.
      exists [], extensions, rest. split; [reflexivity|]. split; [exact Elisted|constructor].
    + apply bool_decide_eq_false in Elisted.
      assert (~ In extension extensions) as Hnot
        by (intros Hin; apply Elisted, list_elem_of_In, Hin).
      destruct (firstCategory rest extension) as [found|]; cbn [first_listing] in *.
      * destruct IH as (before & extensions' & after & -> & Hin & Hbefore).
        exists ((c, extensions) :: before), extensions', after.
        split; [reflexivity|]. split; [exact Hin|]. constructor; assumption.
      * constructor; assumption.
Qed.

Lemma first_listing_unique (entries : list (string * list string)) (extension : string)
    (category : option string) :
  first_listing entries extension category -> category = firstCategory entries extension.
Proof.
  revert category. induction entries as [|[c extensions] rest IH]; intros category Hfirst;
    cbn [firstCategory].
  - destruct category as [found|]; [|reflexivity].
    destruct Hfirst as ([|? ?] & ? & ? & Habs & _); discriminate.
  - destruct (bool_decide (extension ∈ extensions)) eqn:Elisted.
    + apply bool_decide_eq_true in Elisted. apply list_elem_of_In in Elisted.
      destruct category as [found|]; cbn [first_listing] in Hfirst.
      * destruct Hfirst as ([|entry before] & extensions' & after & Hsplit & Hin & Hbefore).
        -- inversion Hsplit. reflexivity.
        -- inversion Hsplit; subst. inversion Hbefore; subst. contradiction.
      * inversion Hfirst; subst. contradiction.
    + apply bool_decide_eq_false in Elisted.
      assert (~ In extension extensions) as Hnot
        by (intros Hin; apply Elisted, list_elem_of_In, Hin).
      apply IH. destruct category as [found|]; cbn [first_listing] in *.
      * destruct Hfirst as ([|entry before] & extensions' & after & Hsplit & Hin & Hbefore).
        -- inversion Hsplit; subst. contradiction.
        -- inversion Hsplit; subst. inversion Hbefore; subst.
           exists before, extensions', after. split; [reflexivity|]. split; assumption.
      * inversion Hfirst; subst. assumption.
Qed.

Lemma plain_segment_not_empty (os : OS) (name : string) :
  plain_segment os name = true -> name <> "".
Proof.
  unfold plain_segment. intros Hplain ->. discriminate.
Qed.


End CategorizerContract.


(** Scenario: [photo.jpg], [report.pdf] and [note] in the downloads
    folder; two files are moved, [note] stays. *)
Example organize_scenario :
  organize plain_config false linux_box 5
    (tree
       [ ("/home/u/Downloads", directory);
         ("/home/u/Downloads/photo.jpg", file 9 0);
         ("/home/u/Downloads/report.pdf", file 8 0);
         ("/home/u/Downloads/note", file 7 0) ])
  = Some (Ok (mkResult "downloads" 0 0 (Some 2) None []),
          tree
            [ ("/home/u/Downloads", directory);
              ("/home/u/Downloads/Images", directory);
              ("/home/u/Downloads/Images/photo.jpg", file 9 0);
              ("/home/u/Downloads/Documents", directory);
              ("/home/u/Downloads/Documents/report.pdf", file 8 0);
              ("/home/u/Downloads/note", file 7 0) ]).
Proof. vm_compute. reflexivity. Qed.

(** ** The orchestrator *)

Section Orchestrator.
Context {FS : Type}.
Variable cleaners : Cleaners FS.

Lemma runTask_eq (clean : M (World FS) CleanupResult) (failure : string -> CleanupResult)
    (m : Manager FS) :
  CleanupManager.runTask clean failure m =
  match task_record clean failure (m_fs m) with
  | Some (result, disk) => Some (Ok result, mkManager disk (results m ++ [result]))
  | None => None
  end.
Proof.
  unfold CleanupManager.runTask, task_record, try_catch, bind, CleanupManager.runCleaner, CleanupManager.results_push, ret.
  destruct (clean (mkWorld (m_fs m) [])) as [[[result|error] w]|]; reflexivity.
Qed.

Lemma task_record_total (clean : M (World FS) CleanupResult)
    (failure : string -> CleanupResult) (disk : FS) :
  (forall w, is_Some (clean w)) -> exists result disk', task_record clean failure disk = Some (result, disk').
Proof.
  intros Htotal. unfold task_record.
  destruct (Htotal (mkWorld disk [])) as [[[result|error] w] E]; rewrite E; eauto.
Qed.

(** C8. When each cleaner finishes (normally or by throwing),
    [CleanupManager.runAllTasks] finishes without throwing, and it has appended exactly
    six records to the result list, in the order temp, cache, browsers,
    trash, downloads, large files. Each task starts on the file system
    the previous one left. The record of a task is the cleaner's own
    result, or, when the cleaner threw, a record with zero counts whose
    only error is the message of what was thrown. *)
Theorem runAllTasks_isolates_failures (m : Manager FS) :
  (forall w, is_Some (TempCleaner_run cleaners w)) ->
  (forall w, is_Some (CacheCleaner_run cleaners w)) ->
  (forall w, is_Some (BrowserCleaner_run cleaners w)) ->
  (forall w, is_Some (TrashCleaner_run cleaners w)) ->
  (forall w, is_Some (DownloadsOrganizer_run cleaners w)) ->
  (forall w, is_Some (LargeFileFinder_run cleaners w)) ->
  exists r1 r2 r3 r4 r5 r6 d1 d2 d3 d4 d5 d6,
    task_record (TempCleaner_run cleaners)
      (fun message => mkResult "temp" 0 0 None None [message]) (m_fs m) = Some (r1, d1) /\
    task_record (CacheCleaner_run cleaners)
      (fun message => mkResult "cache" 0 0 None None [message]) d1 = Some (r2, d2) /\
    task_record (BrowserCleaner_run cleaners)
      (fun message => mkResult "browsers" 0 0 None None [message]) d2 = Some (r3, d3) /\
    task_record (TrashCleaner_run cleaners)
      (fun message => mkResult "trash" 0 0 None None [message]) d3 = Some (r4, d4) /\
    task_record (DownloadsOrganizer_run cleaners)
      (fun message => mkResult "downloads" 0 0 (Some 0) None [message]) d4 = Some (r5, d5) /\
    task_record (LargeFileFinder_run cleaners)
      (fun message => mkResult "largeFiles" 0 0 None (Some []) [message]) d5 = Some (r6, d6) /\
    CleanupManager.runAllTasks cleaners m
      = Some (Ok tt, mkManager d6 (results m ++ [r1; r2; r3; r4; r5; r6])).
Proof.
  intros H1 H2 H3 H4 H5 H6.
  destruct (task_record_total _ (fun message => mkResult "temp" 0 0 None None [message])
              (m_fs m) H1) as (r1 & d1 & E1).
  destruct (task_record_total _ (fun message => mkResult "cache" 0 0 None None [message])
              d1 H2) as (r2 & d2 & E2).
  destruct (task_record_total _ (fun message => mkResult "browsers" 0 0 None None [message])
              d2 H3) as (r3 & d3 & E3).
  destruct (task_record_total _ (fun message => mkResult "trash" 0 0 None None [message])
              d3 H4) as (r4 & d4 & E4).
  destruct (task_record_total _ (fun message => mkResult "downloads" 0 0 (Some 0) None [message])
              d4 H5) as (r5 & d5 & E5).
  destruct (task_record_total _ (fun message => mkResult "largeFiles" 0 0 None (Some []) [message])
              d5 H6) as (r6 & d6 & E6).
  exists r1, r2, r3, r4, r5, r6, d1, d2, d3, d4, d5, d6.
  repeat (split; [assumption|]).
  unfold CleanupManager.runAllTasks, CleanupManager.cleanTempFiles, CleanupManager.cleanCacheFiles, CleanupManager.cleanBrowserCaches, CleanupManager.emptyTrash,
    CleanupManager.organizeDownloads, CleanupManager.findLargeFiles.
  unfold bind at 1. rewrite runTask_eq, E1.
  unfold bind at 1. rewrite runTask_eq. cbn [m_fs results]. rewrite E2.
  unfold bind at 1. rewrite runTask_eq. cbn [m_fs results]. rewrite E3.
  unfold bind at 1. rewrite runTask_eq. cbn [m_fs results]. rewrite E4.
  unfold bind at 1. rewrite runTask_eq. cbn [m_fs results]. rewrite E5.
  unfold bind at 1. rewrite runTask_eq. cbn [m_fs results]. rewrite E6.
  unfold ret. repeat rewrite <- app_assoc. reflexivity.
Qed.

End Orchestrator.

Lemma runAllTasks_isolates_failures_witness :
  CleanupManager.runAllTasks flaky_cleaners (mkManager (fs readonly_world) [])
  = Some (Ok tt,
          mkManager (fs readonly_world)
            [ mkResult "temp" 3 30 None None [];
              mkResult "cache" 0 0 None None ["cache index is corrupt"];
              mkResult "browsers" 1 10 None None [];
              mkResult "trash" 4 40 None None [];
              mkResult "downloads" 0 0 None None [];
              mkResult "largeFiles" 0 0 None (Some []) ["Unknown error"] ]).
Proof.
  destruct (runAllTasks_isolates_failures flaky_cleaners (mkManager (fs readonly_world) []))
    as (r1 & r2 & r3 & r4 & r5 & r6 & d1 & d2 & d3 & d4 & d5 & d6
        & E1 & E2 & E3 & E4 & E5 & E6 & E);
    try (intros w; eexists; reflexivity).
  rewrite E.
  vm_compute in E1. inversion E1; subst r1 d1.
  vm_compute in E2. inversion E2; subst r2 d2.
  vm_compute in E3. inversion E3; subst r3 d3.
  vm_compute in E4. inversion E4; subst r4 d4.
  vm_compute in E5. inversion E5; subst r5 d5.
  vm_compute in E6. inversion E6; subst r6 d6.
  reflexivity.
Defined.

(** ** Loading the configuration *)

Lemma obj_get_set (key key' : string) (value : json) (properties : list (string * json)) :
  obj_get key (obj_set key' value properties) =
  if String.eqb key' key then Some value else obj_get key properties.
Proof.
  induction properties as [|[k v] rest IH]; simpl.
  - reflexivity.
  - destruct (String.eqb_spec k key') as [->|Hk]; simpl.
    + destruct (String.eqb key' key); reflexivity.
    + rewrite IH. destruct (String.eqb_spec k key) as [->|Hk'].
      * apply String.eqb_neq in Hk. rewrite String.eqb_sym in Hk. rewrite Hk. reflexivity.
      * reflexivity.
Qed.

Lemma obj_get_assign (key : string) (assigned object : list (string * json)) :
  obj_get key (fold_left (fun o kv => obj_set (fst kv) (snd kv) o) assigned object) =
  match last_binding key assigned with
  | Some value => Some value
  | None => obj_get key object
  end.
Proof.
  revert object. induction assigned as [|[k v] rest IH]; intros object; simpl.
  - reflexivity.
  - rewrite IH, obj_get_set.
    destruct (last_binding key rest); [reflexivity|].
    destruct (String.eqb k key); reflexivity.
Qed.

Lemma last_binding_app (key : string) (a b : list (string * json)) :
  last_binding key (a ++ b) =
  match last_binding key b with
  | Some value => Some value
  | None => last_binding key a
  end.
Proof.
  induction a as [|[k v] a IH]; simpl.
  - destruct (last_binding key b); reflexivity.
  - rewrite IH. destruct (last_binding key b); reflexivity.
Qed.

(** What [{ ...defaults, ...document }] holds under a top-level key: the
    document's value when it has the key, else the default's. *)
Lemma spread_get (key : string) (defaults document : json) :
  get key (spread defaults document) =
  match last_binding key (own_properties document) with
  | Some value => Some value
  | None => last_binding key (own_properties defaults)
  end.
Proof.
  unfold spread, get. rewrite obj_get_assign, last_binding_app.
  destruct (last_binding key (own_properties document)); [reflexivity|].
  destruct (last_binding key (own_properties defaults)); reflexivity.
Qed.

(** C9, evaluated. Loading [partial_document] replaces the whole
    [browsers] object by the document's: [firefox], [edge] and [safari]
    are undefined in the loaded configuration although their defaults are
    defined, while the missing top-level fields do take their defaults
    and the unknown field [theme] is carried along unread. *)
Theorem nested_defaults_are_lost :
  let loaded := loadConfig linux_box (Some (Ok partial_document)) in
  let defaults := createDefaultConfig linux_box in
  get "browsers" loaded = Some (JObject [("chrome", JBool false)]) /\
  (get "browsers" loaded ≫= get "firefox") = None /\
  (get "browsers" defaults ≫= get "firefox") = Some (JBool true) /\
  (get "browsers" loaded ≫= get "edge") = None /\
  (get "browsers" defaults ≫= get "edge") = Some (JBool true) /\
  get "maxFileAge" loaded = Some (JNumber 0) /\
  get "largeFileThreshold" loaded = Some (JNumber 1073741824) /\
  get "theme" loaded = Some (JString "dark").
Proof. repeat split. Qed.

(** A missing or unreadable file gives the defaults. *)
Lemma loadConfig_without_file (platform : Platform) (error : exn) :
  loadConfig platform None = createDefaultConfig platform /\
  loadConfig platform (Some (Throw error)) = createDefaultConfig platform.
Proof. split; reflexivity. Qed.

(** ** The large-file scan *)

Section LargeFileScan.
Context {FS : Type} `{NodeFS FS}.
Variable config : CleanupConfig.
Variable platform : Platform.

Let os : OS := getOS platform.

Lemma visitItem_finds (descend : string -> M (World FS * LargeFiles) unit)
    (below_item : string -> LargeFiles) (dirPath : string) (item : Dirent)
    (w : World FS) :
  (forall itemPath found,
     descend itemPath (w, found) = Some (Ok tt, (w, found ++ below_item itemPath))) ->
  forall found,
    visitItem config platform descend dirPath item (w, found)
    = Some (Ok tt, (w, found ++ item_finds config platform below_item (fs w) dirPath item)).
Proof.
  intros Hdescend found. unfold visitItem, item_finds. cbv zeta.
  destruct (shouldSkipPath config platform _ _).
  { unfold ret. rewrite app_nil_r. reflexivity. }
  unfold try_catch.
  destruct (d_isFile item).
  - unfold bind, lift, stat. cbn [fst snd].
    destruct (fs_stat _ (fs w)) as [stats|error].
    + destruct (largeFileThreshold config <=? st_size stats).
      * reflexivity.
      * unfold ret. rewrite app_nil_r. reflexivity.
    + unfold ret. rewrite app_nil_r. reflexivity.
  - destruct (d_isDirectory item).
    + rewrite Hdescend. reflexivity.
    + unfold ret. rewrite app_nil_r. reflexivity.
Qed.

Lemma for_of_visitItem (descend : string -> M (World FS * LargeFiles) unit)
    (below_item : string -> LargeFiles) (dirPath : string) (w : World FS)
    (items : list Dirent) :
  (forall itemPath found,
     descend itemPath (w, found) = Some (Ok tt, (w, found ++ below_item itemPath))) ->
  forall found,
    for_of items (visitItem config platform descend dirPath) (w, found)
    = Some (Ok tt, (w, found ++ flat_map (item_finds config platform below_item (fs w) dirPath) items)).
Proof.
  intros Hdescend. induction items as [|item items IH]; intros found; simpl.
  - unfold ret. rewrite app_nil_r. reflexivity.
  - unfold bind. rewrite (visitItem_finds descend below_item); [|exact Hdescend].
    rewrite IH. rewrite <- app_assoc. reflexivity.
Qed.

(** The traversal always returns, never throws, reads only, and appends
    exactly [scan]: the depth test stops the recursion before the gas
    runs out. *)
Lemma traverseDirectory_rec_scan (gas : nat) :
  forall (depth : nat) (dirPath : string) (w : World FS) (found : LargeFiles),
    (11 - depth <= gas)%nat ->
    traverseDirectory_rec config platform gas dirPath depth (w, found)
    = Some (Ok tt, (w, found ++ scan config platform gas dirPath depth (fs w))).
Proof.
  induction gas as [|gas IH]; intros depth dirPath w found Hgas; simpl.
  - destruct (10 <? depth)%nat eqn:Edepth.
    + unfold ret. rewrite app_nil_r. reflexivity.
    + apply Nat.ltb_ge in Edepth. lia.
  - destruct (10 <? depth)%nat eqn:Edepth.
    + unfold ret. rewrite app_nil_r. reflexivity.
    + apply Nat.ltb_ge in Edepth.
      unfold try_catch. unfold bind at 1. unfold lift, readdir. cbn [fst snd].
      destruct (fs_readdir dirPath (fs w)) as [items|error].
      * rewrite (for_of_visitItem _ (fun itemPath => scan config platform gas itemPath (depth + 1) (fs w))).
        -- reflexivity.
        -- intros itemPath found'. apply IH. lia.
      * unfold ret. rewrite app_nil_r. reflexivity.
Qed.

Lemma findLargeFilesInPath_scan (searchPath : string) (w : World FS) :
  findLargeFilesInPath config platform searchPath w
  = Some (Ok (scan config platform 11 searchPath 0 (fs w)), w).
Proof.
  unfold findLargeFilesInPath, with_locals, bind, try_catch, traverseDirectory.
  rewrite traverseDirectory_rec_scan by lia. reflexivity.
Qed.

End LargeFileScan.

(** *** Paths below a seed *)

Lemma count_sep_app (os : OS) (a b : string) :
  count_sep os (a +:+ b) = (count_sep os a + count_sep os b)%nat.
Proof. induction a as [|c a IH]; simpl; [reflexivity|rewrite IH; lia]. Qed.

Lemma string_app_assoc (a b c : string) : a +:+ (b +:+ c) = (a +:+ b) +:+ c.
Proof.
  induction a as [|x a IH]; [reflexivity|].
  change (String x (a +:+ (b +:+ c)) = String x ((a +:+ b) +:+ c)).
  f_equal. exact IH.
Qed.

Lemma last_char_app (a b : string) : b <> "" -> last_char (a +:+ b) = last_char b.
Proof.
  intros Hb. induction a as [|c a IH]; simpl; [reflexivity|].
  destruct (a +:+ b) eqn:E; [|exact IH].
  destruct a; simpl in E; [contradiction|discriminate].
Qed.

Lemma last_char_not_sep (os : OS) (s : string) (c : ascii) :
  count_sep os s = O -> last_char s = Some c -> Ascii.eqb c (path_sep os) = false.
Proof.
  induction s as [|c' s IH]; simpl; [discriminate|].
  destruct (Ascii.eqb c' (path_sep os)) eqn:E; [discriminate|]. simpl. intros Hcount.
  destruct s; [intros [= <-]; exact E|apply IH, Hcount].
Qed.

Lemma ends_with_sep_name (os : OS) (prefix name : string) :
  valid_name os name -> ends_with_sep os (prefix +:+ name) = false.
Proof.
  intros [Hne Hcount]. unfold ends_with_sep. rewrite last_char_app by exact Hne.
  destruct (last_char name) as [c|] eqn:E; [|reflexivity].
  eapply last_char_not_sep; eassumption.
Qed.

Lemma path_join_valid (os : OS) (dir name : string) :
  dir <> "" -> valid_name os name ->
  path_join os dir name <> "" /\
  ends_with_sep os (path_join os dir name) = false /\
  count_sep os (path_join os dir name)
  = (count_sep os dir + if ends_with_sep os dir then 0 else 1)%nat.
Proof.
  intros Hdir Hname. pose proof Hname as [Hne Hcount]. unfold path_join.
  apply String.eqb_neq in Hdir. apply String.eqb_neq in Hne. rewrite Hdir, Hne.
  apply String.eqb_neq in Hdir.
  destruct (ends_with_sep os dir).
  - split; [|split].
    + destruct dir; [contradiction|discriminate].
    + apply ends_with_sep_name, Hname.
    + rewrite count_sep_app, Hcount. reflexivity.
  - split; [|split].
    + destruct dir; [contradiction|discriminate].
    + change (String (path_sep os) name) with (String (path_sep os) "" +:+ name).
      rewrite string_app_assoc. apply ends_with_sep_name, Hname.
    + rewrite count_sep_app. simpl. rewrite Ascii.eqb_refl, Hcount. lia.
Qed.

Lemma count_sep_descend (os : OS) (names : list string) :
  forall dir,
    dir <> "" -> ends_with_sep os dir = false -> Forall (valid_name os) names ->
    count_sep os (descend os dir names) = (count_sep os dir + length names)%nat.
Proof.
  induction names as [|name names IH]; intros dir Hdir Hend Hvalid.
  - simpl. lia.
  - inversion Hvalid as [|? ? Hname Hnames]; subst.
    destruct (path_join_valid os dir name Hdir Hname) as (Hne & Hend' & Hcount).
    change (descend os dir (name :: names)) with (descend os (path_join os dir name) names).
    rewrite IH by assumption.
    rewrite Hcount, Hend. simpl. lia.
Qed.

(** The number of separators in a path below [seed] tells how many names
    lead to it. *)
Lemma descend_length (os : OS) (seed : string) (names names' : list string) :
  seed <> "" -> names <> [] -> names' <> [] ->
  Forall (valid_name os) names -> Forall (valid_name os) names' ->
  descend os seed names = descend os seed names' ->
  length names = length names'.
Proof.
  intros Hseed Hn Hn' Hvalid Hvalid' E.
  destruct names as [|name names]; [contradiction|].
  destruct names' as [|name' names']; [contradiction|].
  inversion Hvalid as [|? ? Hname Hnames]; subst.
  inversion Hvalid' as [|? ? Hname' Hnames']; subst.
  apply (f_equal (count_sep os)) in E.
  destruct (path_join_valid os seed name Hseed Hname) as (Hne & Hend & Hcount).
  destruct (path_join_valid os seed name' Hseed Hname') as (Hne' & Hend' & Hcount').
  change (descend os seed (name :: names))
    with (descend os (path_join os seed name) names) in E.
  change (descend os seed (name' :: names'))
    with (descend os (path_join os seed name') names') in E.
  rewrite !count_sep_descend in E by assumption.
  rewrite Hcount, Hcount' in E. simpl. lia.
Qed.

Section DepthCap.
Context {FS : Type} `{NodeFS FS}.
Variable config : CleanupConfig.
Variable platform : Platform.

Let os : OS := getOS platform.

Lemma scan_finds (disk : FS) (name : string) (size : Z) (dirs : list string) :
  forall (dir : string) (depth gas : nat),
    (depth + length dirs <= 10)%nat -> (11 - depth <= gas)%nat ->
    unskipped_chain config platform disk dir dirs ->
    large_file_in config platform disk (descend os dir dirs) name size ->
    In (path_join os (descend os dir dirs) name, size) (scan config platform gas dir depth disk).
Proof.
  induction dirs as [|d dirs IH]; intros dir depth gas Hdepth Hgas Hchain Hfile;
    (destruct gas as [|gas]; [lia|]); cbn [scan];
    (destruct (10 <? depth)%nat eqn:E; [apply Nat.ltb_lt in E; simpl in Hdepth; lia|]).
  - destruct Hfile as (items & item & stats & Hdir & Hin & Hname & Hisfile & Hskip & Hstat
                       & Hsize & Hlarge).
    simpl in Hdir. rewrite Hdir. apply in_flat_map. exists item. split; [exact Hin|].
    unfold item_finds. cbv zeta. unfold os in *. rewrite Hname. simpl in Hskip, Hstat.
    rewrite Hskip, Hisfile, Hstat, Hsize.
    apply Z.leb_le in Hlarge. rewrite Hlarge. left. reflexivity.
  - destruct Hchain as ((items & item & Hdir & Hin & Hname & Hisfile & Hisdir) & Hskip & Hchain).
    rewrite Hdir. apply in_flat_map. exists item. split; [exact Hin|].
    unfold item_finds. cbv zeta. unfold os in *. rewrite Hname, Hskip, Hisfile, Hisdir.
    change (descend os dir (d :: dirs)) with (descend os (path_join os dir d) dirs).
    apply IH; [simpl in Hdepth; lia|lia|exact Hchain|exact Hfile].
Qed.

(** Every path the scan reports lies at most [11 - depth] names below the
    directory it started in. *)
Lemma scan_paths (disk : FS) (gas : nat) :
  lists_valid_names platform disk ->
  forall (dir : string) (depth : nat) (found : string * Z),
    In found (scan config platform gas dir depth disk) ->
    exists names,
      names <> [] /\ (length names + depth <= 11)%nat /\
      Forall (valid_name os) names /\ fst found = descend os dir names.
Proof.
  intros Hvalid. induction gas as [|gas IH]; intros dir depth found; cbn [scan];
    destruct (10 <? depth)%nat eqn:E; try contradiction.
  apply Nat.ltb_ge in E.
  destruct (fs_readdir dir disk) as [items|error] eqn:Hdir; [|contradiction].
  intros Hin. apply in_flat_map in Hin. destruct Hin as (item & Hitem & Hin).
  pose proof (Hvalid dir items item Hdir Hitem) as Hname.
  unfold item_finds in Hin. cbv zeta in Hin. unfold os in *.
  destruct (shouldSkipPath config platform _ _); [contradiction|].
  destruct (d_isFile item).
  - destruct (fs_stat _ disk) as [stats|error]; [|contradiction].
    destruct (largeFileThreshold config <=? st_size stats); [|contradiction].
    destruct Hin as [<-|[]]. exists [d_name item].
    split; [discriminate|]. split; [simpl; lia|]. split; [auto|reflexivity].
  - destruct (d_isDirectory item); [|contradiction].
    apply IH in Hin. destruct Hin as (names & Hne & Hlen & Hnames & Hpath).
    exists (d_name item :: names).
    split; [discriminate|]. split; [simpl; lia|]. split; [auto|exact Hpath].
Qed.

(** No path the scan reports contains a configured exclusion. *)
Lemma scan_respects_exclusions (disk : FS) (gas : nat) :
  forall (dir : string) (depth : nat) (found : string * Z) (exclusion : string),
    In found (scan config platform gas dir depth disk) ->
    In exclusion (exclusions config) ->
    includes (fst found) exclusion = false.
Proof.
  induction gas as [|gas IH]; intros dir depth found exclusion; cbn [scan];
    destruct (10 <? depth)%nat; try contradiction.
  destruct (fs_readdir dir disk) as [items|error]; [|contradiction].
  intros Hin Hex. apply in_flat_map in Hin. destruct Hin as (item & Hitem & Hin).
  unfold item_finds in Hin. cbv zeta in Hin.
  destruct (shouldSkipPath config platform _ _) eqn:Hskip; [contradiction|].
  destruct (d_isFile item).
  - destruct (fs_stat _ disk) as [stats|error]; [|contradiction].
    destruct (largeFileThreshold config <=? st_size stats); [|contradiction].
    destruct Hin as [<-|[]]. simpl.
    unfold shouldSkipPath in Hskip.
    destruct (startsWith (d_name item) "."); [discriminate|].
    destruct (bool_decide _); [discriminate|].
    destruct (match getOS platform with windows => _ | macos => _ | linux => _ end);
      [discriminate|].
    destruct (includes _ exclusion) eqn:Einc; [|reflexivity].
    assert (existsb (fun exclusion => includes
              (path_join (getOS platform) dir (d_name item)) exclusion)
              (exclusions config) = true) as Habs.
    { apply existsb_exists. exists exclusion. split; assumption. }
    congruence.
  - destruct (d_isDirectory item); [|contradiction].
    eapply IH; eassumption.
Qed.

(** So the traversal of a seed reports no path that contains one. *)
Lemma findLargeFilesInPath_respects_exclusions (searchPath : string) (w : World FS)
    (found : string * Z) (exclusion : string) :
  In exclusion (exclusions config) ->
  exists reported,
    findLargeFilesInPath config platform searchPath w = Some (Ok reported, w) /\
    (In found reported -> includes (fst found) exclusion = false).
Proof.
  intros Hex. exists (scan config platform 11 searchPath 0 (fs w)).
  split; [apply findLargeFilesInPath_scan|].
  intros Hin. eapply scan_respects_exclusions; eassumption.
Qed.

End DepthCap.

(** C4, as stated, fails for the results of the task: the home directory
    and its [Documents] are both seeds, so a file eleven directories below
    the seed [/home/u] is reported all the same, by the traversal that
    starts in [/home/u/Documents]; the traversal from [/home/u] itself
    does not report it. *)
Lemma file_eleven_below_home_is_reported :
  In "/home/u" (getSearchPaths linux_box) /\
  length ("Documents" :: ten_dirs) = 11%nat /\
  path_join linux (descend linux "/home/u" ("Documents" :: ten_dirs)) "big.bin"
    = "/home/u/Documents/d1/d2/d3/d4/d5/d6/d7/d8/d9/d10/big.bin" /\
  find small_threshold_config linux_box overlap_world
    = Some (Ok (mkResult "largeFiles" 0 0 None
                  (Some [("/home/u/Documents/d1/d2/d3/d4/d5/d6/d7/d8/d9/d10/big.bin", 5000)])
                  []),
            overlap_world) /\
  findLargeFilesInPath small_threshold_config linux_box "/home/u" overlap_world
    = Some (Ok [], overlap_world).
Proof. repeat split; vm_compute; auto. Qed.

Section DepthCapTheorem.
Context {FS : Type} `{NodeFS FS}.
Variable config : CleanupConfig.
Variable platform : Platform.

Let os : OS := getOS platform.

Lemma descend_app (seed : string) (dirs : list string) (name : string) :
  descend os seed (dirs ++ [name]) = path_join os (descend os seed dirs) name.
Proof. unfold descend. rewrite fold_left_app. reflexivity. Qed.

(** C4, amended. The traversal started from one seed always returns, and
    in what it returns: a file eleven directory levels below that seed
    never appears; a file ten levels below it, reached through directories
    that are not skipped, itself not skipped and at or above the
    threshold, does appear. (The task concatenates the traversals of all
    seeds, and seeds can lie inside one another.) *)
Theorem depth_cap_per_seed (seed : string) (w : World FS) :
  exists found,
    findLargeFilesInPath config platform seed w = Some (Ok found, w) /\
    (seed <> "" -> lists_valid_names platform (fs w) ->
     forall dirs name size,
       length dirs = 11%nat -> Forall (valid_name os) (dirs ++ [name]) ->
       ~ In (path_join os (descend os seed dirs) name, size) found) /\
    (forall dirs name size,
       length dirs = 10%nat ->
       unskipped_chain config platform (fs w) seed dirs ->
       large_file_in config platform (fs w) (descend os seed dirs) name size ->
       In (path_join os (descend os seed dirs) name, size) found).
Proof.
  exists (scan config platform 11 seed 0 (fs w)).
  split; [apply findLargeFilesInPath_scan|]. split.
  - intros Hseed Hvalid dirs name size Hlen Hnames Hin.
    destruct (scan_paths config platform (fs w) 11 Hvalid seed 0 _ Hin)
      as (names & Hne & Hshort & Hvalid' & Hpath).
    simpl in Hpath. rewrite <- descend_app in Hpath.
    apply descend_length in Hpath; try assumption.
    + rewrite length_app, Hlen in Hpath. simpl in Hpath. lia.
    + destruct dirs; discriminate.
  - intros dirs name size Hlen Hchain Hfile.
    apply scan_finds; [lia|lia|exact Hchain|exact Hfile].
Qed.

End DepthCapTheorem.

(** *** [MemFS] lists valid names *)

Lemma includes_slash_count (name : string) :
  includes name "/" = false -> count_sep linux name = O.
Proof.
  induction name as [|c name IH]; [reflexivity|].
  cbn [includes count_sep]. intros E. apply orb_false_iff in E. destruct E as [Ehead Etail].
  rewrite (IH Etail).
  change (String.prefix "/" (String c name))
    with (if ascii_dec "/" c then String.prefix "" name else false) in Ehead.
  destruct (ascii_dec "/" c) as [<-|Hc]; [destruct name; discriminate|].
  change (path_sep linux) with "/"%char.
  destruct (Ascii.eqb_spec c "/"); [congruence|reflexivity].
Qed.

Lemma drop_prefix_nonempty (pre p : string) :
  String.prefix pre p = true -> p <> pre -> string_drop (String.length pre) p <> "".
Proof.
  revert p. induction pre as [|c pre IH]; intros p.
  - intros _ Hne. exact Hne.
  - destruct p as [|c' p]; [discriminate|].
    change (String.prefix (String c pre) (String c' p))
      with (if ascii_dec c c' then String.prefix pre p else false).
    destruct (ascii_dec c c') as [<-|]; [|discriminate].
    intros Hpre Hne. apply IH; [exact Hpre|congruence].
Qed.

Lemma child_name_valid (dir p name : string) :
  child_name dir p = Some name -> valid_name linux name.
Proof.
  unfold child_name, is_below, startsWith.
  destruct (String.prefix (below dir) p) eqn:Epre; [|discriminate].
  destruct (String.eqb p (below dir)) eqn:Eeq; [discriminate|]. simpl.
  destruct (includes _ "/") eqn:Einc; [discriminate|].
  intros [= <-]. split.
  - apply drop_prefix_nonempty; [exact Epre|]. apply String.eqb_neq, Eeq.
  - apply includes_slash_count, Einc.
Qed.

Lemma count_sep_posix (os : OS) (s : string) :
  os <> windows -> count_sep os s = count_sep linux s.
Proof.
  intros Hos. induction s as [|c s IH]; [reflexivity|].
  cbn [count_sep]. rewrite IH. destruct os; [contradiction|reflexivity..].
Qed.

Lemma MemFS_lists_valid_names (platform : Platform) (disk : MemFS) :
  getOS platform <> windows -> lists_valid_names platform disk.
Proof.
  intros Hos dir items item Hdir Hin.
  assert (valid_name linux (d_name item)) as Hvalid.
  { simpl in Hdir. unfold mem_readdir in Hdir.
    destruct (nodes disk !! dir) as [n|]; [|discriminate].
    destruct (n_isDirectory n); [|discriminate].
    injection Hdir as <-.
    apply list_elem_of_In, list_elem_of_omap in Hin.
    destruct Hin as ([p node] & _ & Hitem). simpl in Hitem.
    destruct (child_name dir p) as [name|] eqn:Ename; [|discriminate].
    injection Hitem as <-. simpl. eapply child_name_valid, Ename. }
  unfold valid_name in *. rewrite count_sep_posix by exact Hos. exact Hvalid.
Qed.

(** The theorem on [deep_world]: the traversal from [/home/u] reports
    the file in [d10] and not the file in [d11]. *)
Lemma depth_cap_per_seed_witness :
  exists found,
    findLargeFilesInPath small_threshold_config linux_box "/home/u" deep_world
      = Some (Ok found, deep_world) /\
    In ("/home/u/d1/d2/d3/d4/d5/d6/d7/d8/d9/d10/big.bin", 5000) found /\
    ~ In ("/home/u/d1/d2/d3/d4/d5/d6/d7/d8/d9/d10/d11/big.bin", 5000) found.
Proof.
  destruct (depth_cap_per_seed small_threshold_config linux_box "/home/u" deep_world)
    as (found & E & Hnever & Hfound).
  exists found. split; [exact E|]. split.
  - apply (Hfound ten_dirs "big.bin" 5000).
    + reflexivity.
    + repeat (split;
        [ eexists; eexists (mkDirent _ false true);
          split; [vm_compute; reflexivity|]; split; [simpl; tauto|repeat split]
        | split; [vm_compute; reflexivity|] ]).
      exact I.
    + eexists; eexists (mkDirent "big.bin" true false); eexists.
      split; [vm_compute; reflexivity|]. split; [simpl; tauto|].
      repeat split; try (vm_compute; reflexivity). vm_compute. discriminate.
  - apply (Hnever ltac:(discriminate)
             (MemFS_lists_valid_names linux_box (fs deep_world) ltac:(discriminate))
             eleven_dirs "big.bin" 5000).
    + reflexivity.
    + repeat constructor; discriminate.
Defined.

(** * Further properties of the engine *)

(** ** No cleaner throws *)

Section NeverThrows.
Context {S : Type}.

Lemma returns_ret {A : Type} (a : A) : returns (ret (S := S) a).
Proof. intros s r s' E. inversion E. eauto. Qed.

Lemma returns_diverge {A : Type} : returns (diverge (S := S) (A := A)).
Proof. intros s r s' E. discriminate. Qed.

Lemma returns_bind {A B : Type} (m : M S A) (k : A -> M S B) :
  returns m -> (forall a, returns (k a)) -> returns (bind m k).
Proof.
  intros Hm Hk s r s' E. unfold bind in E.
  destruct (m s) as [[[a|e] s1]|] eqn:Em; try discriminate.
  - eapply Hk, E.
  - destruct (Hm _ _ _ Em) as [a Ha]. discriminate.
Qed.

(** A [try] whose handler does not throw does not throw, whatever its body
    does. *)
Lemma returns_try_catch {A : Type} (body : M S A) (handler : exn -> M S A) :
  (forall e, returns (handler e)) -> returns (try_catch body handler).
Proof.
  intros Hh s r s' E. unfold try_catch in E.
  destruct (body s) as [[[a|e] s1]|] eqn:Eb; try discriminate.
  - inversion E. eauto.
  - eapply Hh, E.
Qed.

Lemma returns_for_of {A : Type} (xs : list A) (body : A -> M S unit) :
  (forall x, returns (body x)) -> returns (for_of xs body).
Proof.
  intros Hb. induction xs as [|x xs IH]; simpl.
  - apply returns_ret.
  - apply returns_bind; auto.
Qed.

Lemma returns_lift {L A : Type} (m : M S A) : returns m -> returns (lift (L := L) m).
Proof.
  intros Hm [s l] r [s' l'] E. unfold lift in E. simpl in E.
  destruct (m s) as [[r1 s1]|] eqn:Em; inversion E; subst.
  eapply Hm, Em.
Qed.

Lemma returns_local_get {L : Type} : returns (local_get (S := S) (L := L)).
Proof. intros s r s' E. inversion E. eauto. Qed.

Lemma returns_local_modify {L : Type} (f : L -> L) : returns (local_modify (S := S) f).
Proof. intros s r s' E. inversion E. eauto. Qed.

Lemma returns_with_locals {L A : Type} (init : L) (body : M (S * L) A) :
  returns body -> returns (with_locals init body).
Proof.
  intros Hb s r s' E. unfold with_locals in E.
  destruct (body (s, init)) as [[r1 [s1 l1]]|] eqn:Eb; inversion E; subst.
  eapply Hb, Eb.
Qed.

End NeverThrows.

Create HintDb throws.

(** Takes a goal [returns m] apart along the structure of [m]. *)
Ltac throws_step :=
  first
    [ solve [ auto with throws ]
    | apply returns_ret | apply returns_diverge
    | apply returns_local_get | apply returns_local_modify
    | apply returns_try_catch; intros ?
    | apply returns_bind; [ | intros ? ]
    | apply returns_for_of; intros ?
    | apply returns_with_locals
    | apply returns_lift
    | progress cbv zeta
    | match goal with
      | |- returns (if ?b then _ else _) => destruct b
      | |- returns (match ?x with _ => _ end) => destruct x
      end ].

Ltac never_throws := repeat throws_step; eauto with throws.

Section CleanersNeverThrow.
Context {FS : Type} `{NodeFS FS}.
Variable config : CleanupConfig.
Variable dryRun : bool.
Variable platform : Platform.
Variable budget : nat.

Lemma returns_errors_push (msg : string) : returns (errors_push (FS := FS) msg).
Proof. intros w r w' E. inversion E. eauto. Qed.

Lemma returns_clearErrors : returns (clearErrors (FS := FS)).
Proof. intros w r w' E. inversion E. eauto. Qed.

Lemma returns_getErrors : returns (getErrors (FS := FS)).
Proof. intros w r w' E. inversion E. eauto. Qed.

#[local] Hint Resolve returns_errors_push returns_clearErrors returns_getErrors : throws.

Lemma returns_getFileSize (p : string) : returns (getFileSize p).
Proof. unfold getFileSize. never_throws. Qed.

Lemma returns_pathExists (p : string) : returns (pathExists p).
Proof. unfold pathExists. never_throws. Qed.

Lemma returns_isDirectoryEmpty (p : string) : returns (isDirectoryEmpty p).
Proof. unfold isDirectoryEmpty. never_throws. Qed.

Lemma returns_isFileOldEnough (p : string) (age : Z) :
  returns (isFileOldEnough platform p age).
Proof. unfold isFileOldEnough. never_throws. Qed.

Lemma returns_findFiles (patterns excludes : list string) :
  returns (findFiles config patterns excludes).
Proof. unfold findFiles. never_throws. Qed.

Lemma returns_findDirectories (patterns excludes : list string) :
  returns (findDirectories config patterns excludes).
Proof. unfold findDirectories. never_throws. Qed.

Lemma returns_deleteFile (p : string) : returns (deleteFile dryRun p).
Proof. unfold deleteFile. never_throws. Qed.

Lemma returns_deleteDirectory (p : string) :
  returns (deleteDirectory dryRun platform budget p).
Proof. unfold deleteDirectory. never_throws. Qed.

#[local] Hint Resolve returns_getFileSize returns_pathExists returns_isDirectoryEmpty
  returns_isFileOldEnough returns_findFiles returns_findDirectories returns_deleteFile
  returns_deleteDirectory : throws.

Lemma returns_organizeFile (filePath downloads : string) :
  returns (organizeFile config dryRun platform budget filePath downloads).
Proof. unfold organizeFile. never_throws. Qed.

Lemma returns_cleanTempPath (tempPath : string) :
  returns (cleanTempPath config dryRun platform budget tempPath).
Proof. unfold cleanTempPath. never_throws. Qed.

Lemma returns_cleanCachePath (cachePath : string) :
  returns (CacheCleaner.cleanCachePath config dryRun platform budget cachePath).
Proof. unfold CacheCleaner.cleanCachePath. never_throws. Qed.

Lemma returns_cleanBrowserPaths (paths : list string) (name : string) :
  returns (BrowserCleaner.cleanBrowserPaths config dryRun platform budget paths name).
Proof. unfold BrowserCleaner.cleanBrowserPaths. never_throws. Qed.

Lemma returns_emptyTrashDirectory (trashPath : string) :
  returns (emptyTrashDirectory config dryRun platform budget trashPath).
Proof. unfold emptyTrashDirectory. never_throws. Qed.

#[local] Hint Resolve returns_organizeFile returns_cleanTempPath returns_cleanCachePath
  returns_cleanBrowserPaths returns_emptyTrashDirectory : throws.

Lemma returns_cleanTrashPath (trashPath : string) :
  returns (cleanTrashPath config dryRun platform budget trashPath).
Proof. unfold cleanTrashPath. never_throws. Qed.

Lemma returns_findLargeFilesInPath (searchPath : string) :
  returns (findLargeFilesInPath config platform searchPath).
Proof. unfold findLargeFilesInPath. never_throws. Qed.

#[local] Hint Resolve returns_cleanTrashPath returns_findLargeFilesInPath : throws.

(** X1. With a loaded configuration whose fields have the types the
    interface [CleanupConfig] declares, none of the six cleaners the
    manager runs ever throws: whenever one of them finishes, it finishes
    by returning its record, every exception raised inside it having
    been caught there. Nothing is stated for a configuration file that
    gives a field a value of another type. *)
Theorem cleaners_never_throw (configFile : option (Result json)) :
  typed_config (loadConfig platform configFile) = Some config ->
  returns (TempCleaner_run (engine_cleaners (FS := FS) config dryRun platform budget)) /\
  returns (CacheCleaner_run (engine_cleaners (FS := FS) config dryRun platform budget)) /\
  returns (BrowserCleaner_run (engine_cleaners (FS := FS) config dryRun platform budget)) /\
  returns (TrashCleaner_run (engine_cleaners (FS := FS) config dryRun platform budget)) /\
  returns (DownloadsOrganizer_run (engine_cleaners (FS := FS) config dryRun platform budget)) /\
  returns (LargeFileFinder_run (engine_cleaners (FS := FS) config dryRun platform budget)).
Proof.
  intros _.
  cbn [engine_cleaners TempCleaner_run CacheCleaner_run BrowserCleaner_run TrashCleaner_run
         DownloadsOrganizer_run LargeFileFinder_run].
  repeat split.
  - unfold TempCleaner.clean. never_throws.
  - unfold CacheCleaner.clean. never_throws.
  - unfold BrowserCleaner.clean, BrowserCleaner.cleanChrome, BrowserCleaner.cleanFirefox,
      BrowserCleaner.cleanEdge, BrowserCleaner.cleanSafari. never_throws.
  - unfold TrashCleaner.clean. never_throws.
  - unfold organize. never_throws.
  - unfold find. never_throws.
Qed.

End CleanersNeverThrow.

(** Without a configuration file the cleaners get the defaults, which
    have the declared types; a file that sets [browsers] to a single
    flag gives a configuration that has not. *)
Lemma cleaners_never_throw_witness :
  typed_config (loadConfig linux_box None) = Some default_linux_config /\
  typed_config (loadConfig linux_box (Some (Ok partial_document))) = None /\
  returns (TempCleaner.clean (FS := MemFS) default_linux_config false linux_box 5) /\
  returns (DownloadsOrganizer.organize (FS := MemFS) default_linux_config false linux_box 5).
Proof.
  assert (typed_config (loadConfig linux_box None) = Some default_linux_config) as Hloaded
    by (vm_compute; reflexivity).
  split; [exact Hloaded|]. split; [vm_compute; reflexivity|].
  destruct (cleaners_never_throw (FS := MemFS) default_linux_config false linux_box 5 None
              Hloaded) as (Htemp & _ & _ & _ & Hdownloads & _).
  split; [exact Htemp|exact Hdownloads].
Defined.

(** ** Dry run, for the other cleaners *)

Section DryRunOthers.
Context {FS : Type} `{NodeFS FS}.
Variable config : CleanupConfig.
Variable platform : Platform.
Variable budget : nat.

#[local] Hint Resolve preserves_stat preserves_access preserves_readdir preserves_glob
  preserves_getErrors preserves_errors_push preserves_clearErrors
  preserves_getFileSize preserves_pathExists preserves_isDirectoryEmpty
  preserves_isFileOldEnough preserves_findFiles preserves_findDirectories
  preserves_getDirectorySize preserves_deleteFile_dry preserves_deleteDirectory_dry : frame.

Lemma preserves_cleanCachePath_dry (cachePath : string) :
  preserves (@fs FS) (CacheCleaner.cleanCachePath config true platform budget cachePath).
Proof.
  unfold CacheCleaner.cleanCachePath, CacheCleaner.cleanCacheFile,
    CacheCleaner.cleanEmptyDirectory. frame.
Qed.

Lemma preserves_cleanBrowserPaths_dry (paths : list string) (name : string) :
  preserves (@fs FS) (BrowserCleaner.cleanBrowserPaths config true platform budget paths name).
Proof. unfold BrowserCleaner.cleanBrowserPaths, BrowserCleaner.cleanBrowserFile. frame. Qed.

#[local] Hint Resolve preserves_cleanCachePath_dry preserves_cleanBrowserPaths_dry : frame.

(** X2. In dry-run mode the cache cleaner, the browser cleaner and the
    deletion of selected large files leave the file system exactly as it
    was, whatever they report. *)
Theorem dry_run_cache_browsers_large_files :
  preserves (@fs FS) (CacheCleaner.clean config true platform budget) /\
  preserves (@fs FS) (BrowserCleaner.clean config true platform budget) /\
  forall filePaths, preserves (@fs FS) (deleteLargeFiles true filePaths).
Proof.
  split; [|split].
  - unfold CacheCleaner.clean. frame.
  - unfold BrowserCleaner.clean, BrowserCleaner.cleanChrome, BrowserCleaner.cleanFirefox,
      BrowserCleaner.cleanEdge, BrowserCleaner.cleanSafari. frame.
  - intros filePaths. unfold deleteLargeFiles. frame.
Qed.

End DryRunOthers.

(** ** What the large-file finder reports *)

Section FindReport.
Context {FS : Type} `{NodeFS FS}.
Variable config : CleanupConfig.
Variable platform : Platform.

Let os : OS := getOS platform.

Lemma find_loop (seeds : list string) (w : World FS) :
  forall found : LargeFiles,
    for_of seeds (fun searchPath =>
       there <- lift (pathExists searchPath) ;;
       if there : bool then
         foundFiles <- lift (findLargeFilesInPath config platform searchPath) ;;
         local_modify (fun largeFiles : LargeFiles => largeFiles ++ foundFiles)
       else ret tt) (w, found)
    = Some (Ok tt, (w, found ++ flat_map (seed_finds config platform (fs w)) seeds)).
Proof.
  induction seeds as [|seed seeds IH]; intros found; simpl.
  - unfold ret. rewrite app_nil_r. reflexivity.
  - unfold bind at 1. unfold bind at 1. unfold lift at 1.
    cbv beta iota zeta delta [fst snd]. rewrite pathExists_eq.
    unfold seed_finds at 1.
    destruct (fs_access seed F_OK (fs w)) as [[]|error].
    + unfold bind at 1. unfold lift at 1. cbv beta iota zeta delta [fst snd].
      rewrite findLargeFilesInPath_scan. unfold local_modify.
      rewrite IH, <- app_assoc. reflexivity.
    + unfold ret. rewrite IH. reflexivity.
Qed.

(** [find], computed: the record it returns and the world it leaves. *)
Lemma find_eq (w : World FS) :
  find config platform w
  = Some (Ok (mkResult "largeFiles" 0 0 None
                (Some (sort_by_size (found_files config platform (fs w)))) []),
          mkWorld (fs w) []).
Proof.
  unfold find, bind at 1, clearErrors. unfold bind at 1, with_locals, bind at 1.
  rewrite find_loop. reflexivity.
Qed.

Lemma insert_by_size_perm (x : string * Z) (sorted : LargeFiles) :
  insert_by_size x sorted ≡ₚ x :: sorted.
Proof.
  induction sorted as [|y rest IH]; simpl; [reflexivity|].
  destruct (snd y <=? snd x); [reflexivity|].
  rewrite IH. apply perm_swap.
Qed.

Lemma sort_by_size_perm (largeFiles : LargeFiles) :
  sort_by_size largeFiles ≡ₚ largeFiles.
Proof.
  induction largeFiles as [|x rest IH]; simpl; [reflexivity|].
  rewrite insert_by_size_perm. apply perm_skip, IH.
Qed.

Lemma insert_by_size_sorted (x : string * Z) (sorted : LargeFiles) :
  StronglySorted (fun a b => snd b <= snd a) sorted ->
  StronglySorted (fun a b => snd b <= snd a) (insert_by_size x sorted).
Proof.
  induction sorted as [|y rest IH]; intros Hsorted; simpl.
  - constructor; constructor.
  - inversion Hsorted as [|? ? Hrest Hy]; subst.
    destruct (snd y <=? snd x) eqn:E.
    + apply Z.leb_le in E. constructor; [exact Hsorted|].
      constructor; [exact E|].
      eapply Forall_impl; [exact Hy|]. simpl. intros z Hz. lia.
    + apply Z.leb_gt in E. constructor; [apply IH, Hrest|].
      rewrite insert_by_size_perm. constructor; [lia|exact Hy].
Qed.

Lemma sort_by_size_sorted (largeFiles : LargeFiles) :
  StronglySorted (fun a b => snd b <= snd a) (sort_by_size largeFiles).
Proof.
  induction largeFiles as [|x rest IH]; simpl; [constructor|].
  apply insert_by_size_sorted, IH.
Qed.

(** Entries of the same size keep the order the scan found them in. *)
Lemma insert_by_size_filter (size : Z) (x : string * Z) (sorted : LargeFiles) :
  StronglySorted (fun a b => snd b <= snd a) sorted ->
  List.filter (fun entry => snd entry =? size) (insert_by_size x sorted)
  = List.filter (fun entry => snd entry =? size) (x :: sorted).
Proof.
  induction sorted as [|y rest IH]; intros Hsorted; [reflexivity|].
  inversion Hsorted as [|? ? Hrest Hy]; subst.
  cbn [insert_by_size].
  destruct (snd y <=? snd x) eqn:E; [reflexivity|].
  apply Z.leb_gt in E.
  cbn [List.filter]. rewrite IH by exact Hrest. cbn [List.filter].
  destruct (snd y =? size) eqn:Hy'; [|reflexivity].
  destruct (snd x =? size) eqn:Hx'; [lia|reflexivity].
Qed.

Lemma sort_by_size_stable (size : Z) (largeFiles : LargeFiles) :
  List.filter (fun entry => snd entry =? size) (sort_by_size largeFiles)
  = List.filter (fun entry => snd entry =? size) largeFiles.
Proof.
  induction largeFiles as [|x rest IH]; [reflexivity|].
  cbn [sort_by_size fold_right].
  rewrite insert_by_size_filter by apply sort_by_size_sorted.
  cbn [List.filter]. unfold sort_by_size in IH. rewrite IH. reflexivity.
Qed.

(** X3. The large-file search is total and read-only (it does not read
    the dry-run flag): it always returns a record, with task
    [largeFiles], both counters 0 and an empty error list, and leaves
    the file system as it was; failures to read a directory or a file
    inside the traversal are silently skipped. *)
Theorem find_is_total_and_read_only (w : World FS) :
  exists largeFiles w',
    find config platform w
    = Some (Ok (mkResult "largeFiles" 0 0 None (Some largeFiles) []), w') /\
    fs w' = fs w /\ errors w' = [].
Proof.
  eexists _, _. split; [apply find_eq|]. split; reflexivity.
Qed.

(** X4. The list the search reports is what the seeds' traversals found,
    every seed that exists contributing its own findings (nothing is
    deduplicated), ordered by decreasing size; entries of equal size stay
    in the order in which they were found. *)
Theorem find_reports_findings_largest_first (w : World FS) :
  exists largeFiles w',
    find config platform w
    = Some (Ok (mkResult "largeFiles" 0 0 None (Some largeFiles) []), w') /\
    largeFiles ≡ₚ found_files config platform (fs w) /\
    StronglySorted (fun a b => snd b <= snd a) largeFiles /\
    forall size,
      List.filter (fun entry => snd entry =? size) largeFiles
      = List.filter (fun entry => snd entry =? size) (found_files config platform (fs w)).
Proof.
  eexists _, _. split; [apply find_eq|].
  split; [apply sort_by_size_perm|].
  split; [apply sort_by_size_sorted|].
  intros size. apply sort_by_size_stable.
Qed.

(** What the scan reports, entry by entry. *)
Lemma scan_entries (disk : FS) (gas : nat) :
  forall (dir : string) (depth : nat) (found : string * Z),
    In found (scan config platform gas dir depth disk) ->
    exists names stats,
      names <> [] /\ (length names + depth <= 11)%nat /\
      Forall visible_name names /\
      fst found = descend os dir names /\
      fs_stat (fst found) disk = Ok stats /\ st_size stats = snd found /\
      largeFileThreshold config <= snd found.
Proof.
  induction gas as [|gas IH]; intros dir depth found; cbn [scan];
    destruct (10 <? depth)%nat eqn:E; try contradiction.
  apply Nat.ltb_ge in E.
  destruct (fs_readdir dir disk) as [items|error] eqn:Hdir; [|contradiction].
  intros Hin. apply in_flat_map in Hin. destruct Hin as (item & Hitem & Hin).
  unfold item_finds in Hin. cbv zeta in Hin. unfold os in *.
  destruct (shouldSkipPath config platform _ _) eqn:Hskip; [contradiction|].
  assert (visible_name (d_name item)) as Hvisible.
  { unfold shouldSkipPath in Hskip. unfold visible_name.
    destruct (startsWith (d_name item) "."); [discriminate|].
    destruct (bool_decide (d_name item ∈ systemDirs)) eqn:Hsys; [discriminate|].
    apply bool_decide_eq_false in Hsys. split; [reflexivity|exact Hsys]. }
  destruct (d_isFile item).
  - destruct (fs_stat _ disk) as [stats|error] eqn:Hstat; [|contradiction].
    destruct (largeFileThreshold config <=? st_size stats) eqn:Hlarge; [|contradiction].
    destruct Hin as [<-|[]]. exists [d_name item], stats.
    apply Z.leb_le in Hlarge. simpl.
    repeat split; try assumption; try reflexivity; try discriminate; try lia.
    constructor; [exact Hvisible|constructor].
  - destruct (d_isDirectory item); [|contradiction].
    apply IH in Hin. destruct Hin as (names & stats & Hne & Hlen & Hnames & Hpath & Hrest).
    exists (d_name item :: names), stats.
    split; [discriminate|]. split; [simpl; lia|].
    split; [constructor; assumption|]. split; [exact Hpath|exact Hrest].
Qed.

(** X5. Every entry the search reports is reached from a seed through at
    most eleven names, none of which starts with a dot or is one of the
    system directory names ([node_modules], [.git], [AppData], ...); its
    size is the size [stat] reads and is at least the configured
    threshold (the threshold itself counts as large); and its path
    contains none of the configured exclusions. *)
Theorem find_reports_only_visible_large_files (w : World FS) :
  exists largeFiles w',
    find config platform w
    = Some (Ok (mkResult "largeFiles" 0 0 None (Some largeFiles) []), w') /\
    forall path size,
      In (path, size) largeFiles ->
      (exists seed names stats,
         In seed (getSearchPaths platform) /\
         names <> [] /\ (length names <= 11)%nat /\ Forall visible_name names /\
         path = descend os seed names /\
         fs_stat path (fs w) = Ok stats /\ st_size stats = size) /\
      largeFileThreshold config <= size /\
      forall exclusion, In exclusion (exclusions config) -> includes path exclusion = false.
Proof.
  eexists _, _. split; [apply find_eq|].
  intros path size Hin.
  apply (Permutation_in _ (sort_by_size_perm _)) in Hin.
  unfold found_files in Hin. apply in_flat_map in Hin.
  destruct Hin as (seed & Hseed & Hin). unfold seed_finds in Hin.
  destruct (fs_access seed F_OK (fs w)); [|contradiction].
  split; [|split].
  - destruct (scan_entries _ _ _ _ _ Hin)
      as (names & stats & Hne & Hlen & Hnames & Hpath & Hstat & Hsize & _).
    exists seed, names, stats. simpl in *.
    repeat split; try assumption. lia.
  - destruct (scan_entries _ _ _ _ _ Hin) as (_ & _ & _ & _ & _ & _ & _ & _ & Hlarge).
    exact Hlarge.
  - intros exclusion Hex.
    apply (scan_respects_exclusions config platform _ _ _ _ _ exclusion Hin Hex).
Qed.

Lemma includes_empty (s : string) : includes s "" = true.
Proof. destruct s; reflexivity. Qed.

Lemma scan_with_empty_exclusion (disk : FS) (gas : nat) (dir : string) (depth : nat) :
  In "" (exclusions config) -> scan config platform gas dir depth disk = [].
Proof.
  intros Hex. destruct gas as [|gas]; cbn [scan];
    destruct (10 <? depth)%nat; try reflexivity.
  destruct (fs_readdir dir disk) as [items|error]; [|reflexivity].
  induction items as [|item items IH]; [reflexivity|].
  cbn [flat_map]. rewrite IH, app_nil_r.
  unfold item_finds. cbv zeta.
  assert (shouldSkipPath config platform (path_join (getOS platform) dir (d_name item))
            (d_name item) = true) as ->; [|reflexivity].
  unfold shouldSkipPath.
  destruct (startsWith (d_name item) "."); [reflexivity|].
  destruct (bool_decide _); [reflexivity|].
  destruct (match getOS platform with windows => _ | macos => _ | linux => _ end);
    [reflexivity|].
  apply existsb_exists. exists "". split; [exact Hex|apply includes_empty].
Qed.

(** X6. An empty string among the configured exclusions switches the
    search off: every path contains the empty string, so every entry is
    skipped and the report is empty, whatever is on disk. *)
Theorem empty_exclusion_hides_every_large_file (w : World FS) :
  In "" (exclusions config) ->
  find config platform w
  = Some (Ok (mkResult "largeFiles" 0 0 None (Some []) []), mkWorld (fs w) []).
Proof.
  intros Hex. rewrite find_eq.
  assert (found_files config platform (fs w) = []) as ->; [|reflexivity].
  unfold found_files. induction (getSearchPaths platform) as [|seed seeds IH]; [reflexivity|].
  cbn [flat_map]. rewrite IH, app_nil_r. unfold seed_finds.
  destruct (fs_access seed F_OK (fs w)); [|reflexivity].
  apply scan_with_empty_exclusion, Hex.
Qed.

End FindReport.

(** On [deep_world] the search reports the file ten directories down;
    with the empty exclusion it reports nothing. *)
Lemma empty_exclusion_hides_every_large_file_witness :
  In "" (exclusions blank_exclusion_config) /\
  find blank_exclusion_config linux_box deep_world
  = Some (Ok (mkResult "largeFiles" 0 0 None (Some []) []), mkWorld (fs deep_world) []) /\
  find small_threshold_config linux_box deep_world
  = Some (Ok (mkResult "largeFiles" 0 0 None
                (Some [("/home/u/d1/d2/d3/d4/d5/d6/d7/d8/d9/d10/big.bin", 5000)]) []),
          mkWorld (fs deep_world) []).
Proof.
  assert (In "" (exclusions blank_exclusion_config)) as Hex by (left; reflexivity).
  split; [exact Hex|]. split.
  - exact (empty_exclusion_hides_every_large_file blank_exclusion_config linux_box deep_world Hex).
  - vm_compute. reflexivity.
Defined.

(** ** Deleting the selected large files *)

Section DeleteLargeFiles.
Context {FS : Type} `{NodeFS FS}.

(** One step of a loop that deletes a file and counts it: the file is
    counted or one error is recorded, never both, never neither. *)
Lemma delete_and_count_step (dryRun : bool) (filePath : string) (w : World FS) (c : Counts) :
  exists w' c' failures,
    (result <- lift (deleteFile dryRun filePath) ;;
     if deleted result then local_modify (count_file (dr_size result)) else ret tt) (w, c)
    = Some (Ok tt, (w', c')) /\
    errors w' = errors w ++ failures /\
    c_filesDeleted c' + Z.of_nat (length failures) = c_filesDeleted c + 1 /\
    c_filesDeleted c <= c_filesDeleted c' /\
    (dryRun = true ->
       w' = w /\ failures = [] /\ c_spaceSaved c' = c_spaceSaved c + size_of filePath w).
Proof.
  unfold bind, lift. cbv beta iota zeta delta [fst snd]. rewrite deleteFile_unfold.
  destruct dryRun.
  - exists w, (count_file (size_of filePath w) c), []. rewrite app_nil_r.
    cbn [deleted dr_size local_modify count_file c_filesDeleted c_spaceSaved length].
    repeat split; lia.
  - destruct (fs_access filePath W_OK (fs w)) as [[]|error].
    + destruct (fs_remove filePath (fs w)) as [[[]|error] fs'].
      * eexists _, _, []. cbn [deleted dr_size local_modify errors].
        rewrite app_nil_r.
        cbn [count_file c_filesDeleted length].
        repeat split; try discriminate; try reflexivity; simpl; lia.
      * eexists _, _, [_]. unfold delete_failed. cbn [deleted ret errors length].
        repeat split; try discriminate; try reflexivity; simpl; lia.
    + eexists _, _, [_]. unfold delete_failed. cbn [deleted ret errors length].
      repeat split; try discriminate; try reflexivity; simpl; lia.
Qed.

Lemma counting_loop (dryRun : bool) (body : string -> M (World FS * Counts) unit)
    (filePaths : list string) :
  (forall filePath w c,
     exists w' c' failures,
       body filePath (w, c) = Some (Ok tt, (w', c')) /\
       errors w' = errors w ++ failures /\
       c_filesDeleted c' + Z.of_nat (length failures) = c_filesDeleted c + 1 /\
       c_filesDeleted c <= c_filesDeleted c' /\
       (dryRun = true ->
          w' = w /\ failures = [] /\
          c_spaceSaved c' = c_spaceSaved c + size_of filePath w)) ->
  forall (w : World FS) (c : Counts),
  exists w' c' failures,
    for_of filePaths body (w, c) = Some (Ok tt, (w', c')) /\
    errors w' = errors w ++ failures /\
    c_filesDeleted c' + Z.of_nat (length failures)
    = c_filesDeleted c + Z.of_nat (length filePaths) /\
    c_filesDeleted c <= c_filesDeleted c' /\
    (dryRun = true ->
       w' = w /\ failures = [] /\
       c_spaceSaved c'
       = c_spaceSaved c + fold_right Z.add 0 (map (fun p => size_of p w) filePaths)).
Proof.
  intros Hstep. induction filePaths as [|p rest IH]; intros w c.
  - exists w, c, []. simpl. rewrite app_nil_r. repeat split; lia.
  - cbn [for_of]. unfold bind.
    destruct (Hstep p w c) as (w1 & c1 & extra1 & E1 & Herr1 & Hn1 & Hle1 & Hdry1).
    rewrite E1.
    destruct (IH w1 c1) as (w' & c' & extra & E & Herr & Hn & Hle & Hdry).
    exists w', c', (extra1 ++ extra). rewrite E.
    split; [reflexivity|]. split; [rewrite Herr, Herr1, app_assoc; reflexivity|].
    split; [rewrite length_app; cbn [length]; lia|].
    split; [lia|].
    intros Hd. destruct (Hdry1 Hd) as (-> & -> & Hs1). destruct (Hdry Hd) as (-> & -> & Hs).
    split; [reflexivity|]. split; [reflexivity|]. cbn [map fold_right]. lia.
Qed.

(** X7. Deleting a selection of large files accounts for every path
    exactly once: each path is either counted as deleted or leaves one
    message in the error list, and the call itself never throws. In
    dry-run mode every path is counted, none fails, nothing changes and
    the space reported is the sum of the sizes read. *)
Theorem deleteLargeFiles_accounts_for_every_path (dryRun : bool) (filePaths : list string)
    (w : World FS) :
  exists counts w' failures,
    deleteLargeFiles dryRun filePaths w = Some (Ok counts, w') /\
    errors w' = errors w ++ failures /\
    c_filesDeleted counts + Z.of_nat (length failures) = Z.of_nat (length filePaths) /\
    0 <= c_filesDeleted counts /\
    (dryRun = true ->
       w' = w /\
       counts = mkCounts (Z.of_nat (length filePaths))
                  (fold_right Z.add 0 (map (fun p => size_of p w) filePaths))).
Proof.
  unfold deleteLargeFiles, with_locals, bind at 1.
  destruct (counting_loop dryRun
              (fun filePath =>
                 result <- lift (deleteFile dryRun filePath) ;;
                 if deleted result then local_modify (count_file (dr_size result)) else ret tt)
              filePaths (delete_and_count_step dryRun) w (mkCounts 0 0))
    as (w' & c' & failures & E & Herr & Hn & Hle & Hdry).
  rewrite E. exists c', w', failures. cbn [c_filesDeleted c_spaceSaved] in *.
  split; [reflexivity|]. split; [exact Herr|]. split; [lia|]. split; [lia|].
  intros Hd. destruct (Hdry Hd) as (-> & -> & Hs). split; [reflexivity|].
  destruct c' as [n sp]. cbn [c_filesDeleted c_spaceSaved length] in *. f_equal; lia.
Qed.

End DeleteLargeFiles.

(** ** Removing directories *)

Section Directories.
Context {FS : Type} `{NodeFS FS}.
Variable config : CleanupConfig.
Variable platform : Platform.
Variable budget : nat.

Lemma returns_getDirectorySize (n : nat) (dirPath : string) :
  returns (getDirectorySize (FS := FS) platform n dirPath).
Proof. destruct n; cbn [getDirectorySize]; never_throws. Qed.

(** The size walk answers a number and leaves the world as it is,
    whenever it finishes. *)
Lemma getDirectorySize_pure (n : nat) (dirPath : string) (w : World FS) :
  getDirectorySize platform n dirPath w <> None ->
  exists size, getDirectorySize platform n dirPath w = Some (Ok size, w).
Proof.
  intros Hsome.
  destruct (getDirectorySize platform n dirPath w) as [[r w']|] eqn:E; [|congruence].
  destruct (returns_getDirectorySize _ _ _ _ _ E) as [size ->].
  pose proof (preserves_getDirectorySize platform (fun w => w) n dirPath _ _ _ E) as Hw.
  simpl in Hw. subst w'. exists size. reflexivity.
Qed.

(** X8. [deleteDirectory] never throws. It measures the directory first;
    in dry-run mode it answers [deleted = true] with that size and
    touches nothing. On a live run it removes the directory without any
    access check (unlike [deleteFile]); when the removal throws it
    answers [deleted = false, size = 0] and appends one message naming
    the directory and the error. *)
Theorem deleteDirectory_contract (dryRun : bool) (dirPath : string) (w : World FS) :
  getDirectorySize platform budget dirPath w <> None ->
  exists size,
    getDirectorySize platform budget dirPath w = Some (Ok size, w) /\
    deleteDirectory dryRun platform budget dirPath w =
    if dryRun then Some (Ok (mkDeleteResult true size), w)
    else
      match fs_remove dirPath (fs w) with
      | (Ok _, fs') => Some (Ok (mkDeleteResult true size), mkWorld fs' (errors w))
      | (Throw error, fs') =>
          Some (Ok (mkDeleteResult false 0),
                mkWorld fs'
                  (errors w ++ ["Failed to delete directory " +:+ dirPath +:+ ": "
                                +:+ errMessage error]))
      end.
Proof.
  intros Hsome. destruct (getDirectorySize_pure budget dirPath w Hsome) as [size E].
  exists size. split; [exact E|].
  unfold deleteDirectory, try_catch, bind at 1. rewrite E.
  destruct dryRun; simpl.
  - unfold bind, ret. destruct w; reflexivity.
  - unfold bind, ret, remove, write, errors_push.
    destruct (fs_remove dirPath (fs w)) as [[[]|error] fs']; reflexivity.
Qed.

Lemma isDirectoryEmpty_eq (dirPath : string) (w : World FS) :
  isDirectoryEmpty dirPath w =
  Some (Ok (match fs_readdir dirPath (fs w) with
            | Ok items => bool_decide (length items = 0%nat)
            | Throw _ => false
            end), w).
Proof.
  unfold isDirectoryEmpty, try_catch, bind, readdir, ret.
  destruct (fs_readdir dirPath (fs w)); reflexivity.
Qed.

Lemma isDirectoryEmpty_false (dirPath : string) (w : World FS) :
  fs_readdir dirPath (fs w) <> Ok [] ->
  isDirectoryEmpty dirPath w = Some (Ok false, w).
Proof.
  intros Hnot. rewrite isDirectoryEmpty_eq.
  destruct (fs_readdir dirPath (fs w)) as [[|item items]|error];
    [congruence|reflexivity|reflexivity].
Qed.


End Directories.

(** [deleteDirectory] on the cache directory of [cache_world], which
    holds four bytes. *)
Lemma deleteDirectory_contract_witness :
  getDirectorySize linux_box 5 "/srv/app/cache" cache_world <> None /\
  exists size,
    getDirectorySize linux_box 5 "/srv/app/cache" cache_world = Some (Ok size, cache_world) /\
    deleteDirectory false linux_box 5 "/srv/app/cache" cache_world =
    match fs_remove "/srv/app/cache" (fs cache_world) with
    | (Ok _, fs') => Some (Ok (mkDeleteResult true size), mkWorld fs' (errors cache_world))
    | (Throw error, fs') =>
        Some (Ok (mkDeleteResult false 0),
              mkWorld fs'
                (errors cache_world ++ ["Failed to delete directory /srv/app/cache: "
                                        +:+ errMessage error]))
    end.
Proof.
  assert (getDirectorySize linux_box 5 "/srv/app/cache" cache_world <> None) as Hsome
    by (vm_compute; discriminate).
  split; [exact Hsome|].
  exact (deleteDirectory_contract linux_box 5 false "/srv/app/cache" cache_world Hsome).
Defined.


(** ** Roots that are looked up literally *)

Section Roots.
Context {FS : Type} `{NodeFS FS}.
Variable config : CleanupConfig.
Variable dryRun : bool.
Variable platform : Platform.
Variable budget : nat.

(** A loop over roots that tests each root with [pathExists] first does
    nothing at all when none of the roots exists under its literal
    name. *)
Lemma missing_roots_are_skipped {L : Type} (work : string -> M (World FS * L) unit)
    (roots : list string) (w : World FS) (l : L) :
  (forall root, In root roots -> exists error, fs_access root F_OK (fs w) = Throw error) ->
  for_of roots (fun root =>
     there <- lift (pathExists root) ;;
     if there : bool then work root else ret tt) (w, l)
  = Some (Ok tt, (w, l)).
Proof.
  induction roots as [|root roots IH]; intros Hmissing; [reflexivity|].
  cbn [for_of]. unfold bind at 1. unfold bind at 1. unfold lift at 1.
  cbv beta iota zeta delta [fst snd]. rewrite pathExists_eq.
  destruct (Hmissing root (or_introl eq_refl)) as [error ->].
  unfold ret at 1. apply IH. intros root' Hin. apply Hmissing. right. exact Hin.
Qed.

(** X10. The trash cleaner looks its roots up under their literal names
    before anything else. When none of them exists as written, the task
    does nothing and reports an empty result; in particular the
    wildcard roots ([/tmp/.Trash-*], [/Volumes/*/.Trashes]) are never
    expanded unless an entry with that very name exists. *)
Theorem trash_roots_are_literal (w : World FS) :
  (forall root, In root (getTrashPaths platform) ->
     exists error, fs_access root F_OK (fs w) = Throw error) ->
  TrashCleaner.clean config dryRun platform budget w
  = Some (Ok (mkResult "trash" 0 0 None None []), mkWorld (fs w) []).
Proof.
  intros Hmissing.
  unfold TrashCleaner.clean, bind at 1, clearErrors. unfold bind at 1, with_locals, bind at 1.
  pose proof (missing_roots_are_skipped
                (fun trashPath =>
                   result <- lift (cleanTrashPath config dryRun platform budget trashPath) ;;
                   local_modify (add_counts result))
                (getTrashPaths platform) (mkWorld (fs w) []) (mkCounts 0 0) Hmissing) as E.
  cbv beta in E. rewrite E. reflexivity.
Qed.

Lemma cache_roots_loop (roots : list string) (wc wc' : World FS * Counts) (r : Result unit) :
  incl roots (CacheCleaner.getCachePaths config platform) ->
  for_of roots (fun cachePath =>
     there <- lift (pathExists cachePath) ;;
     if there : bool then
       result <- lift (CacheCleaner.cleanCachePath config dryRun platform budget cachePath) ;;
       local_modify (add_counts result)
     else ret tt) wc = Some (r, wc') ->
  r = Ok tt /\ rtc (cache_root_cleaned config platform dryRun budget) wc wc'.
Proof.
  revert wc. induction roots as [|root roots IH]; intros [w c] Hroots; cbn [for_of].
  - unfold ret. intros E. inversion E; subst. split; reflexivity.
  - assert (incl roots (CacheCleaner.getCachePaths config platform)) as Hrest
      by (intros x Hx; apply Hroots; right; exact Hx).
    unfold bind at 1. unfold bind at 1. unfold lift at 1.
    cbv beta iota zeta delta [fst snd]. rewrite pathExists_eq.
    destruct (fs_access root F_OK (fs w)) as [[]|error] eqn:Eaccess.
    + unfold bind at 1. unfold lift at 1. cbv beta iota zeta delta [fst snd].
      destruct (CacheCleaner.cleanCachePath config dryRun platform budget root w)
        as [[result w1]|] eqn:Eclean; [|discriminate].
      destruct (returns_cleanCachePath config dryRun platform budget root _ _ _ Eclean)
        as [counts ->].
      unfold local_modify at 1. cbv beta iota zeta delta [fst snd].
      intros E. destruct (IH _ Hrest E) as [-> Hsteps]. split; [reflexivity|].
      eapply rtc_l; [|exact Hsteps].
      exists root, counts. split; [apply Hroots; left; reflexivity|].
      split; [exact Eaccess|]. split; [exact Eclean|reflexivity].
    + unfold ret at 1. intros E. exact (IH _ Hrest E).
Qed.


End Roots.

(** A live run on [volume_trash_world]: the trash in [/tmp/.Trash-1000]
    is what [/tmp/.Trash-*] describes, and it is left as it is. *)
Lemma trash_roots_are_literal_witness :
  (forall root, In root (getTrashPaths linux_box) ->
     exists error, fs_access root F_OK (fs volume_trash_world) = Throw error) /\
  TrashCleaner.clean plain_config false linux_box 5 volume_trash_world
  = Some (Ok (mkResult "trash" 0 0 None None []), mkWorld (fs volume_trash_world) []) /\
  fs_stat "/tmp/.Trash-1000/files/gone.txt" (fs volume_trash_world)
  = Ok (mkStats 6 0 false).
Proof.
  assert (forall root, In root (getTrashPaths linux_box) ->
            exists error, fs_access root F_OK (fs volume_trash_world) = Throw error)
    as Hmissing.
  { intros root Hin. vm_compute in Hin.
    destruct Hin as [<-|[<-|[]]]; eexists; vm_compute; reflexivity. }
  split; [exact Hmissing|]. split.
  - exact (trash_roots_are_literal plain_config false linux_box 5 volume_trash_world Hmissing).
  - vm_compute. reflexivity.
Defined.


(** ** What the trash task counts *)

Section TrashCounts.
Context {FS : Type} `{NodeFS FS}.
Variable config : CleanupConfig.
Variable dryRun : bool.
Variable platform : Platform.
Variable budget : nat.

Hypothesis not_macos : getOS platform <> macos.

(** Adding what [emptyTrashDirectory] returns changes no counter. *)
Lemma add_emptied_keeps_counts (trashPath : string) :
  preserves snd
    (result <- lift (L := Counts) (emptyTrashDirectory config dryRun platform budget trashPath) ;;
     local_modify (add_counts result)).
Proof.
  intros [w c] r [w' c'] E. unfold bind, lift in E.
  cbv beta iota zeta delta [fst snd] in E.
  destruct (emptyTrashDirectory config dryRun platform budget trashPath w)
    as [[found w1]|] eqn:Eempty; [|discriminate].
  rewrite (emptyTrashDirectory_drops_counts _ _ _ _ _ _ _ _ not_macos Eempty) in E.
  unfold local_modify in E. inversion E. destruct c. unfold add_counts. simpl.
  f_equal; lia.
Qed.

Lemma preserves_snd_lift {A : Type} (m : M (World FS) A) :
  preserves snd (lift (L := Counts) m).
Proof.
  intros [w c] r [w' c'] E. unfold lift in E. simpl in E.
  destruct (m w) as [[r1 w1]|]; inversion E. reflexivity.
Qed.

(** A method whose body never throws and leaves its counters alone
    returns the counters it started with. *)
Lemma untouched_counters (body : M (World FS * Counts) unit) (init : Counts)
    (w w' : World FS) (r : Result Counts) :
  preserves snd body -> returns body ->
  with_locals init (body ;; local_get) w = Some (r, w') ->
  r = Ok init.
Proof.
  intros Hcounts Hreturns. unfold with_locals, bind.
  destruct (body (w, init)) as [[r1 [w1 c1]]|] eqn:Em; [|discriminate].
  destruct (Hreturns _ _ _ Em) as [[] ->].
  apply Hcounts in Em. simpl in Em. subst c1.
  unfold local_get. intros E. inversion E. reflexivity.
Qed.

Lemma cleanTrashPath_counts_nothing (trashPath : string) (w w' : World FS)
    (r : Result Counts) :
  cleanTrashPath config dryRun platform budget trashPath w = Some (r, w') ->
  r = Ok (mkCounts 0 0).
Proof.
  unfold cleanTrashPath. apply untouched_counters.
  - apply preserves_try_catch; [|intros error; apply preserves_snd_lift].
    destruct (includes trashPath "*").
    + apply preserves_bind; [apply preserves_snd_lift|]. intros matchingPaths.
      apply preserves_for_of. intros matchedPath. apply add_emptied_keeps_counts.
    + apply preserves_bind; [apply preserves_snd_lift|]. intros [|].
      * apply add_emptied_keeps_counts.
      * apply preserves_ret.
  - apply returns_try_catch. intros error. apply returns_lift, returns_errors_push.
Qed.

(** X12. On Windows and on Linux the trash task always reports
    [filesDeleted = 0] and [spaceSaved = 0], whatever it removed: the
    platform helpers count, but [emptyTrashDirectory] drops what they
    return. *)
Theorem trash_task_counts_nothing_off_macos (w w' : World FS) (r : Result CleanupResult) :
  TrashCleaner.clean config dryRun platform budget w = Some (r, w') ->
  r = Ok (mkResult "trash" 0 0 None None (errors w')).
Proof.
  unfold TrashCleaner.clean, bind at 1, clearErrors. unfold bind at 1.
  match goal with
  | |- context [with_locals ?init ?body ?w0] =>
      destruct (with_locals init body w0) as [[totals w1]|] eqn:Etotals; [|discriminate]
  end.
  apply untouched_counters in Etotals.
  - subst totals. unfold bind, getErrors, ret. intros E. inversion E. reflexivity.
  - apply preserves_for_of. intros trashPath.
    apply preserves_bind; [apply preserves_snd_lift|]. intros [|]; [|apply preserves_ret].
    intros [w0 c] r0 [w2 c2] E. unfold bind, lift in E.
    cbv beta iota zeta delta [fst snd] in E.
    destruct (cleanTrashPath config dryRun platform budget trashPath w0)
      as [[found w3]|] eqn:Epath; [|discriminate].
    rewrite (cleanTrashPath_counts_nothing _ _ _ _ Epath) in E.
    unfold local_modify in E. inversion E. destruct c. unfold add_counts. simpl.
    f_equal; lia.
  - apply returns_for_of. intros trashPath.
    apply returns_bind; [apply returns_lift, returns_pathExists|]. intros [|].
    + apply returns_bind; [apply returns_lift, returns_cleanTrashPath|].
      intros result. apply returns_local_modify.
    + apply returns_ret.
Qed.

End TrashCounts.

(** The live run on [trash_fixture] removes four entries of 33 bytes in
    all and reports none. *)
Lemma trash_task_counts_nothing_off_macos_witness :
  getOS linux_box <> macos /\
  TrashCleaner.clean plain_config false linux_box 5 trash_fixture
  = Some (Ok (mkResult "trash" 0 0 None None []), emptied_trash) /\
  Ok (mkResult "trash" 0 0 None None [])
  = Ok (mkResult "trash" 0 0 None None (errors emptied_trash)).
Proof.
  assert (getOS linux_box <> macos) as Hos by discriminate.
  assert (TrashCleaner.clean plain_config false linux_box 5 trash_fixture
          = Some (Ok (mkResult "trash" 0 0 None None []), emptied_trash)) as Hrun
    by (vm_compute; reflexivity).
  split; [exact Hos|]. split; [exact Hrun|].
  exact (trash_task_counts_nothing_off_macos plain_config false linux_box 5 Hos
           trash_fixture emptied_trash _ Hrun).
Defined.

(** ** What a live run can do to the file system *)

Section Evolution.
Context {S T : Type} (R : relation T) `{!PreOrder R} (proj : S -> T).

Lemma evolves_preserves {A : Type} (m : M S A) : preserves proj m -> evolves R proj m.
Proof. intros Hm s r s' E. rewrite (Hm _ _ _ E). reflexivity. Qed.

Lemma evolves_ret {A : Type} (a : A) : evolves R proj (ret a).
Proof. apply evolves_preserves, preserves_ret. Qed.

Lemma evolves_diverge {A : Type} : evolves R proj (diverge (A := A)).
Proof. apply evolves_preserves, preserves_diverge. Qed.

Lemma evolves_bind {A B : Type} (m : M S A) (k : A -> M S B) :
  evolves R proj m -> (forall a, evolves R proj (k a)) -> evolves R proj (bind m k).
Proof.
  intros Hm Hk s r s' E. unfold bind in E.
  destruct (m s) as [[[a|e] s1]|] eqn:Em; try discriminate.
  - transitivity (proj s1); [eapply Hm, Em|eapply Hk, E].
  - inversion E; subst. eapply Hm, Em.
Qed.

Lemma evolves_try_catch {A : Type} (body : M S A) (handler : exn -> M S A) :
  evolves R proj body -> (forall e, evolves R proj (handler e)) ->
  evolves R proj (try_catch body handler).
Proof.
  intros Hb Hh s r s' E. unfold try_catch in E.
  destruct (body s) as [[[a|e] s1]|] eqn:Eb; try discriminate.
  - inversion E; subst. eapply Hb, Eb.
  - transitivity (proj s1); [eapply Hb, Eb|eapply Hh, E].
Qed.

Lemma evolves_for_of {A : Type} (xs : list A) (body : A -> M S unit) :
  (forall x, evolves R proj (body x)) -> evolves R proj (for_of xs body).
Proof.
  intros Hb. induction xs as [|x xs IH]; simpl.
  - apply evolves_ret.
  - apply evolves_bind; auto.
Qed.

Lemma evolves_lift {L A : Type} (m : M S A) :
  evolves R proj m -> evolves R (fun sl : S * L => proj (fst sl)) (lift m).
Proof.
  intros Hm [s l] r [s' l'] E. unfold lift in E. simpl in *.
  destruct (m s) as [[r1 s1]|] eqn:Em; inversion E; subst.
  eapply Hm, Em.
Qed.

Lemma evolves_local_get {L : Type} :
  evolves R (fun sl : S * L => proj (fst sl)) local_get.
Proof. intros s r s' E. inversion E. reflexivity. Qed.

Lemma evolves_local_modify {L : Type} (f : L -> L) :
  evolves R (fun sl : S * L => proj (fst sl)) (local_modify f).
Proof. intros s r s' E. inversion E. reflexivity. Qed.

Lemma evolves_with_locals {L A : Type} (init : L) (body : M (S * L) A) :
  evolves R (fun sl : S * L => proj (fst sl)) body -> evolves R proj (with_locals init body).
Proof.
  intros Hb s r s' E. unfold with_locals in E.
  destruct (body (s, init)) as [[r1 [s1 l1]]|] eqn:Eb; inversion E; subst.
  apply (Hb _ _ _ Eb).
Qed.

End Evolution.

Create HintDb evolves.

(** Takes a goal [evolves R proj m] apart along the structure of [m];
    read-only leaves are closed by the frame lemmas. *)
Ltac evolve_step :=
  first
    [ solve [ auto with evolves ]
    | apply evolves_preserves; [ .. | solve [ auto with frame ] ]
    | apply evolves_ret | apply evolves_diverge
    | apply evolves_local_get | apply evolves_local_modify
    | apply evolves_bind; [ .. | intros ? ]
    | apply evolves_try_catch; [ .. | intros ? ]
    | apply evolves_for_of; [ .. | intros ? ]
    | apply evolves_with_locals
    | apply evolves_lift
    | typeclasses eauto
    | progress cbv zeta
    | match goal with
      | |- evolves _ _ (if ?b then _ else _) => destruct b
      | |- evolves _ _ (match ?x with _ => _ end) => destruct x
      end ].

Ltac evolve := repeat evolve_step; eauto with evolves.

Section LiveRuns.
Context {FS : Type} `{NodeFS FS}.
Variable config : CleanupConfig.
Variable dryRun : bool.
Variable platform : Platform.
Variable budget : nat.

#[local] Hint Resolve preserves_stat preserves_access preserves_readdir preserves_glob
  preserves_getErrors preserves_errors_push preserves_clearErrors
  preserves_getFileSize preserves_pathExists preserves_isDirectoryEmpty
  preserves_isFileOldEnough preserves_findFiles preserves_findDirectories
  preserves_getDirectorySize preserves_probeUniqueName : frame.

Lemma evolves_remove (p : string) : evolves only_removals (@fs FS) (remove p).
Proof.
  intros w r w' E. unfold remove, write in E.
  destruct (fs_remove p (fs w)) as [r1 disk] eqn:Eremove. inversion E; subst.
  apply rtc_once. exists p. rewrite Eremove. reflexivity.
Qed.

#[local] Hint Resolve evolves_remove : evolves.

Lemma evolves_deleteFile (p : string) : evolves only_removals (@fs FS) (deleteFile dryRun p).
Proof. unfold deleteFile. evolve. Qed.

Lemma evolves_deleteDirectory (p : string) :
  evolves only_removals (@fs FS) (deleteDirectory dryRun platform budget p).
Proof. unfold deleteDirectory. evolve. Qed.

#[local] Hint Resolve evolves_deleteFile evolves_deleteDirectory : evolves.

Lemma evolves_TempCleaner :
  evolves only_removals (@fs FS) (TempCleaner.clean config dryRun platform budget).
Proof.
  unfold TempCleaner.clean, cleanTempPath, cleanTempFile, TempCleaner.cleanEmptyDirectory.
  evolve.
Qed.

Lemma evolves_CacheCleaner :
  evolves only_removals (@fs FS) (CacheCleaner.clean config dryRun platform budget).
Proof.
  unfold CacheCleaner.clean, CacheCleaner.cleanCachePath, CacheCleaner.cleanCacheFile,
    CacheCleaner.cleanEmptyDirectory.
  evolve.
Qed.

Lemma evolves_BrowserCleaner :
  evolves only_removals (@fs FS) (BrowserCleaner.clean config dryRun platform budget).
Proof.
  unfold BrowserCleaner.clean, BrowserCleaner.cleanChrome, BrowserCleaner.cleanFirefox,
    BrowserCleaner.cleanEdge, BrowserCleaner.cleanSafari, BrowserCleaner.cleanBrowserPaths,
    BrowserCleaner.cleanBrowserFile.
  evolve.
Qed.

Lemma evolves_TrashCleaner :
  evolves only_removals (@fs FS) (TrashCleaner.clean config dryRun platform budget).
Proof.
  unfold TrashCleaner.clean, cleanTrashPath, emptyTrashDirectory, cleanLinuxTrash,
    cleanWindowsRecycleBin, deleteAndCount, removeIfEmpty.
  evolve.
Qed.

Lemma evolves_deleteLargeFiles (filePaths : list string) :
  evolves only_removals (@fs FS) (deleteLargeFiles dryRun filePaths).
Proof. unfold deleteLargeFiles. evolve. Qed.

End LiveRuns.

(** X13. Whatever the mode, the four deleting cleaners and the deletion
    of selected large files act on the file system through [fs.remove]
    alone: the file system they leave is reached from the one they
    started on by a sequence of removals; they never create, move or
    write anything. *)
Theorem deleting_cleaners_only_remove {FS : Type} `{NodeFS FS} (config : CleanupConfig)
    (dryRun : bool) (platform : Platform) (budget : nat) :
  evolves only_removals (@fs FS) (TempCleaner.clean config dryRun platform budget) /\
  evolves only_removals (@fs FS) (CacheCleaner.clean config dryRun platform budget) /\
  evolves only_removals (@fs FS) (BrowserCleaner.clean config dryRun platform budget) /\
  evolves only_removals (@fs FS) (TrashCleaner.clean config dryRun platform budget) /\
  forall filePaths, evolves only_removals (@fs FS) (deleteLargeFiles dryRun filePaths).
Proof.
  split; [apply evolves_TempCleaner|].
  split; [apply evolves_CacheCleaner|].
  split; [apply evolves_BrowserCleaner|].
  split; [apply evolves_TrashCleaner|].
  intros filePaths. apply evolves_deleteLargeFiles.
Qed.

Lemma only_removals_subseteq (disk disk' : MemFS) :
  only_removals disk disk' -> nodes disk' ⊆ nodes disk.
Proof.
  induction 1 as [disk|disk disk1 disk' [p ->] _ IH]; [reflexivity|].
  etransitivity; [exact IH|]. cbn [fs_remove MemFS_NodeFS mem_remove snd nodes].
  apply map_filter_subseteq.
Qed.

(** X15. On the in-memory file system, a run of a deleting cleaner adds
    no entry and alters none: every path present afterwards was present
    before, with the same node. *)
Theorem deleting_cleaners_add_nothing (config : CleanupConfig) (dryRun : bool)
    (platform : Platform) (budget : nat) (clean : M (World MemFS) CleanupResult)
    (w w' : World MemFS) (r : Result CleanupResult) :
  In clean [TempCleaner.clean config dryRun platform budget;
            CacheCleaner.clean config dryRun platform budget;
            BrowserCleaner.clean config dryRun platform budget;
            TrashCleaner.clean config dryRun platform budget] ->
  clean w = Some (r, w') ->
  nodes (fs w') ⊆ nodes (fs w).
Proof.
  intros Hin E. apply only_removals_subseteq.
  destruct Hin as [<-|[<-|[<-|[<-|[]]]]].
  - exact (evolves_TempCleaner config dryRun platform budget _ _ _ E).
  - exact (evolves_CacheCleaner config dryRun platform budget _ _ _ E).
  - exact (evolves_BrowserCleaner config dryRun platform budget _ _ _ E).
  - exact (evolves_TrashCleaner config dryRun platform budget _ _ _ E).
Qed.

(** The live temp sweep of [single_temp_world]. *)
Lemma deleting_cleaners_add_nothing_witness :
  TempCleaner.clean plain_config false linux_box 5 single_temp_world
  = Some (Ok (mkResult "temp" 1 5 None None []), swept_temp_world) /\
  nodes (fs swept_temp_world) ⊆ nodes (fs single_temp_world).
Proof.
  assert (TempCleaner.clean plain_config false linux_box 5 single_temp_world
          = Some (Ok (mkResult "temp" 1 5 None None []), swept_temp_world)) as Hrun
    by (vm_compute; reflexivity).
  split; [exact Hrun|].
  exact (deleting_cleaners_add_nothing plain_config false linux_box 5 _
           single_temp_world swept_temp_world _ (or_introl eq_refl) Hrun).
Defined.

(** ** Dry-run totals of the temp cleaner *)

Section TempTotals.
Context {FS : Type} `{NodeFS FS}.
Variable config : CleanupConfig.
Variable platform : Platform.
Variable budget : nat.

Lemma temp_dry_run_loop (counts_of : string -> Counts) (disk : FS) (roots : list string) :
  (forall root,
     In root roots -> fs_access root F_OK disk = Ok tt ->
     cleanTempPath config true platform budget root (mkWorld disk [])
     = Some (Ok (counts_of root), mkWorld disk [])) ->
  forall c : Counts,
    for_of roots (fun tempPath =>
       there <- lift (pathExists tempPath) ;;
       if there : bool then
         result <- lift (cleanTempPath config true platform budget tempPath) ;;
         local_modify (add_counts result)
       else ret tt) (mkWorld disk [], c)
    = Some (Ok tt,
            (mkWorld disk [],
             mkCounts
               (c_filesDeleted c +
                fold_right Z.add 0 (map (fun root => c_filesDeleted (counts_of root))
                                      (existing_roots disk roots)))
               (c_spaceSaved c +
                fold_right Z.add 0 (map (fun root => c_spaceSaved (counts_of root))
                                      (existing_roots disk roots))))).
Proof.
  induction roots as [|root roots IH]; intros Hsweeps c.
  - simpl. unfold ret. destruct c; simpl. rewrite !Z.add_0_r. reflexivity.
  - cbn [for_of]. unfold bind at 1. unfold bind at 1. unfold lift at 1.
    cbv beta iota zeta delta [fst snd]. rewrite pathExists_eq.
    cbn [existing_roots List.filter fs].
    destruct (fs_access root F_OK disk) as [[]|error] eqn:Eaccess.
    + unfold bind at 1. unfold lift at 1. cbv beta iota zeta delta [fst snd].
      rewrite (Hsweeps root (or_introl eq_refl) Eaccess). unfold local_modify at 1.
      cbv beta iota zeta delta [fst snd].
      rewrite IH by (intros root' Hin; apply Hsweeps; right; exact Hin).
      unfold existing_roots. cbn [add_counts c_filesDeleted c_spaceSaved map fold_right].
      rewrite <- !Z.add_assoc. reflexivity.
    + unfold ret at 1.
      rewrite IH by (intros root' Hin; apply Hsweeps; right; exact Hin).
      reflexivity.
Qed.

(** X16. A dry run of the temp cleaner adds up what the sweep of each
    listed root counts, root after root and on the same, unchanged file
    system, provided those sweeps record no error. A root that is listed
    twice, as [/tmp] is on a Linux machine whose system temp directory
    is [/tmp], has its files counted once per listing, while a live run
    can delete them only once. *)
Theorem temp_dry_run_counts_every_listing (counts_of : string -> Counts) (w : World FS) :
  (forall root,
     In root (getTempPaths config platform) -> fs_access root F_OK (fs w) = Ok tt ->
     cleanTempPath config true platform budget root (mkWorld (fs w) [])
     = Some (Ok (counts_of root), mkWorld (fs w) [])) ->
  TempCleaner.clean config true platform budget w
  = Some (Ok (mkResult "temp"
                (fold_right Z.add 0
                   (map (fun root => c_filesDeleted (counts_of root))
                      (existing_roots (fs w) (getTempPaths config platform))))
                (fold_right Z.add 0
                   (map (fun root => c_spaceSaved (counts_of root))
                      (existing_roots (fs w) (getTempPaths config platform))))
                None None []),
          mkWorld (fs w) []).
Proof.
  intros Hsweeps.
  unfold TempCleaner.clean, bind at 1, clearErrors. unfold bind at 1, with_locals, bind at 1.
  rewrite (temp_dry_run_loop counts_of (fs w) _ Hsweeps). reflexivity.
Qed.

End TempTotals.

(** On a stock Linux machine [/tmp] is listed twice: the dry run of
    [single_temp_world] reports two files and ten bytes for the one
    temporary file of five bytes that the live run deletes. *)
Lemma temp_dry_run_counts_every_listing_witness :
  getTempPaths plain_config linux_box = ["/tmp"; "/tmp"; "/var/tmp"; "/home/u/.cache"] /\
  TempCleaner.clean plain_config true linux_box 5 single_temp_world
  = Some (Ok (mkResult "temp" 2 10 None None []), single_temp_world) /\
  TempCleaner.clean plain_config false linux_box 5 single_temp_world
  = Some (Ok (mkResult "temp" 1 5 None None []), swept_temp_world).
Proof.
  split; [reflexivity|]. split; [|vm_compute; reflexivity].
  assert (forall root,
            In root (getTempPaths plain_config linux_box) ->
            fs_access root F_OK (fs single_temp_world) = Ok tt ->
            cleanTempPath plain_config true linux_box 5 root (mkWorld (fs single_temp_world) [])
            = Some (Ok ((fun _ => mkCounts 1 5) root), mkWorld (fs single_temp_world) []))
    as Hsweeps.
  { intros root Hin Haccess. vm_compute in Hin.
    destruct Hin as [<-|[<-|[<-|[<-|[]]]]];
      try (vm_compute in Haccess; discriminate); vm_compute; reflexivity. }
  exact (temp_dry_run_counts_every_listing plain_config linux_box 5 (fun _ => mkCounts 1 5)
           single_temp_world Hsweeps).
Defined.

(** ** Loading the configuration, in general *)

Lemma last_binding_first (key : string) (properties : list (string * json)) :
  NoDup (map fst properties) ->
  last_binding key properties = obj_get key properties.
Proof.
  induction properties as [|[k v] rest IH]; intros Hnodup; simpl; [reflexivity|].
  apply NoDup_cons in Hnodup. destruct Hnodup as [Hfresh Hnodup].
  rewrite IH by exact Hnodup.
  destruct (String.eqb_spec k key) as [->|Hk].
  - destruct (obj_get key rest) as [value|] eqn:Eget; [|reflexivity].
    exfalso. apply Hfresh. clear -Eget.
    induction rest as [|[k' v'] rest IH]; simpl in *; [discriminate|].
    destruct (String.eqb_spec k' key) as [->|Hk']; [left|right; apply IH, Eget].
  - destruct (obj_get key rest); reflexivity.
Qed.

(** X17. The loaded configuration is a shallow merge: under every
    top-level key it holds the value the document gives that key (the
    last one, if the document repeats it), whatever its type, and the
    built-in default only when the document does not mention the key. *)
Theorem loadConfig_merges_top_level_keys (platform : Platform) (document : json)
    (key : string) :
  get key (loadConfig platform (Some (Ok document))) =
  match last_binding key (own_properties document) with
  | Some value => Some value
  | None => get key (createDefaultConfig platform)
  end.
Proof.
  unfold loadConfig. rewrite spread_get.
  destruct (last_binding key (own_properties document)); [reflexivity|].
  unfold createDefaultConfig, get, own_properties. apply last_binding_first.
  cbn [map fst].
  match goal with |- ?distinct => apply (bool_decide_unpack distinct) end.
  vm_compute. exact I.
Qed.

(** ** The summary of a run *)

Lemma js_add_exact (a b : Z) : 0 <= a -> 0 <= b -> a + b <= 2 ^ 53 -> js_add a b = a + b.
Proof.
  intros Ha Hb Hsum. unfold js_add, round_to_double. cbv zeta.
  rewrite Z.abs_eq by lia.
  destruct (Z.leb_spec (a + b) (2 ^ 53)); [reflexivity|lia].
Qed.

Lemma total_cons {A : Type} (field : A -> Z) (x : A) (xs : list A) :
  total field (x :: xs) = field x + total field xs.
Proof. reflexivity. Qed.

Lemma total_app {A : Type} (field : A -> Z) (xs ys : list A) :
  total field (xs ++ ys) = total field xs + total field ys.
Proof. unfold total. induction xs as [|x xs IH]; simpl; lia. Qed.

Lemma total_permutation {A : Type} (field : A -> Z) (xs ys : list A) :
  xs ≡ₚ ys -> total field ys = total field xs.
Proof.
  intros Hp. unfold total.
  induction Hp as [|x l l' _ IH|x y l|l l' l'' _ IH1 _ IH2]; simpl; lia.
Qed.

Lemma total_nonneg {A : Type} (field : A -> Z) (xs : list A) :
  Forall (fun x => 0 <= field x) xs -> 0 <= total field xs.
Proof.
  induction 1 as [|x xs Hx _ IH]; [reflexivity|]. rewrite total_cons. lia.
Qed.

Lemma generateSummary_from (results : list CleanupResult) (start : Summary) :
  Forall (fun result =>
            0 <= filesDeleted result /\ 0 <= spaceSaved result /\ 0 <= organized_count result)
    results ->
  0 <= totalFiles start -> 0 <= totalSpace start ->
  0 <= totalOrganized start -> 0 <= totalErrors start ->
  totalFiles start + total filesDeleted results <= 2 ^ 53 ->
  totalSpace start + total spaceSaved results <= 2 ^ 53 ->
  totalOrganized start + total organized_count results <= 2 ^ 53 ->
  totalErrors start + total (fun result => Z.of_nat (length (result_errors result))) results
  <= 2 ^ 53 ->
  fold_left
    (fun summary result =>
       mkSummary
         (js_add (totalFiles summary) (filesDeleted result))
         (js_add (totalSpace summary) (spaceSaved result))
         (js_add (totalOrganized summary)
            match filesOrganized result with Some n => n | None => 0 end)
         (js_add (totalErrors summary) (Z.of_nat (length (result_errors result)))))
    results start
  = mkSummary
      (totalFiles start + total filesDeleted results)
      (totalSpace start + total spaceSaved results)
      (totalOrganized start + total organized_count results)
      (totalErrors start + total (fun result => Z.of_nat (length (result_errors result))) results).
Proof.
  intros Hcounts. revert start.
  induction Hcounts as [|result results (Hfiles & Hspace & Horganized) Hrest IH];
    intros start Hf Hs Ho He Bf Bs Bo Be.
  - destruct start. unfold total. simpl. rewrite !Z.add_0_r. reflexivity.
  - rewrite !total_cons in *.
    assert (0 <= total filesDeleted results) as Tf
      by (apply total_nonneg; eapply Forall_impl; [exact Hrest|]; intros ? (? & ? & ?); lia).
    assert (0 <= total spaceSaved results) as Ts
      by (apply total_nonneg; eapply Forall_impl; [exact Hrest|]; intros ? (? & ? & ?); lia).
    assert (0 <= total organized_count results) as To
      by (apply total_nonneg; eapply Forall_impl; [exact Hrest|]; intros ? (? & ? & ?); lia).
    assert (0 <= total (fun result => Z.of_nat (length (result_errors result))) results) as Te
      by (apply total_nonneg, Forall_forall; intros; lia).
    cbn [fold_left]. fold (organized_count result).
    rewrite !js_add_exact by lia.
    rewrite IH; cbn [totalFiles totalSpace totalOrganized totalErrors]; try lia.
    rewrite !Z.add_assoc. reflexivity.
Qed.

Lemma generateSummary_exact (results : list CleanupResult) :
  exactly_summable results ->
  generateSummary results
  = mkSummary (total filesDeleted results) (total spaceSaved results)
      (total organized_count results)
      (total (fun result => Z.of_nat (length (result_errors result))) results).
Proof.
  intros (Hcounts & Bf & Bs & Bo & Be). unfold generateSummary.
  rewrite generateSummary_from; cbn [totalFiles totalSpace totalOrganized totalErrors];
    try assumption; try lia.
  reflexivity.
Qed.

Lemma exactly_summable_permutation (results results' : list CleanupResult) :
  results ≡ₚ results' -> exactly_summable results -> exactly_summable results'.
Proof.
  intros Hp (Hcounts & Bf & Bs & Bo & Be). unfold exactly_summable.
  rewrite !(total_permutation _ _ _ Hp). repeat split; try assumption.
  rewrite <- Hp. exact Hcounts.
Qed.

Lemma exactly_summable_app (front back : list CleanupResult) :
  exactly_summable (front ++ back) -> exactly_summable front /\ exactly_summable back.
Proof.
  intros (Hcounts & Bf & Bs & Bo & Be). rewrite !total_app in *.
  apply Forall_app in Hcounts as [Hfront Hback].
  assert (forall rs : list CleanupResult,
            Forall (fun result =>
                      0 <= filesDeleted result /\ 0 <= spaceSaved result /\ 0 <= organized_count result)
              rs ->
            0 <= total filesDeleted rs /\ 0 <= total spaceSaved rs /\ 0 <= total organized_count rs /\
            0 <= total (fun result => Z.of_nat (length (result_errors result))) rs) as Hnonneg.
  { intros rs Hrs. repeat split.
    - apply total_nonneg. eapply Forall_impl; [exact Hrs|]. intros ? (? & ? & ?). lia.
    - apply total_nonneg. eapply Forall_impl; [exact Hrs|]. intros ? (? & ? & ?). lia.
    - apply total_nonneg. eapply Forall_impl; [exact Hrs|]. intros ? (? & ? & ?). lia.
    - apply total_nonneg, Forall_forall. intros. lia. }
  destruct (Hnonneg front Hfront) as (? & ? & ? & ?).
  destruct (Hnonneg back Hback) as (? & ? & ? & ?).
  split; (split; [assumption|]); repeat split; lia.
Qed.

(** X18. As long as no count of a record is negative and no total
    exceeds [2^53], the range in which the additions of JavaScript are
    exact, the summary of a report holds the plain sums over the records
    of the run: files deleted, bytes freed, files organized (a record
    without that field counts for 0) and the number of error messages.
    So, in that range, it does not depend on the order of the records,
    and the summary of two runs put together is the sum of their
    summaries. *)
Theorem generateSummary_totals (results : list CleanupResult) :
  exactly_summable results ->
  generateSummary results
  = mkSummary
      (total filesDeleted results)
      (total spaceSaved results)
      (total organized_count results)
      (Z.of_nat (length (concat (map result_errors results)))) /\
  (forall results', results ≡ₚ results' -> generateSummary results' = generateSummary results) /\
  (forall front back,
     results = front ++ back ->
     generateSummary results
     = mkSummary
         (totalFiles (generateSummary front) + totalFiles (generateSummary back))
         (totalSpace (generateSummary front) + totalSpace (generateSummary back))
         (totalOrganized (generateSummary front) + totalOrganized (generateSummary back))
         (totalErrors (generateSummary front) + totalErrors (generateSummary back))).
Proof.
  intros Hexact. split; [|split].
  - rewrite (generateSummary_exact results Hexact). f_equal.
    unfold total. clear Hexact. induction results as [|result results IH]; [reflexivity|].
    cbn [map fold_right concat]. rewrite length_app, IH. lia.
  - intros results' Hp.
    rewrite (generateSummary_exact results Hexact),
      (generateSummary_exact results' (exactly_summable_permutation _ _ Hp Hexact)).
    f_equal; apply total_permutation, Hp.
  - intros front back ->. destruct (exactly_summable_app front back Hexact) as [Hfront Hback].
    rewrite (generateSummary_exact _ Hexact), (generateSummary_exact _ Hfront),
      (generateSummary_exact _ Hback).
    cbn [totalFiles totalSpace totalOrganized totalErrors]. f_equal; apply total_app.
Qed.

(** The summary of [two_records]. *)
Lemma generateSummary_totals_witness :
  exactly_summable two_records /\
  generateSummary two_records = mkSummary 2 7 1 1.
Proof.
  assert (exactly_summable two_records) as Hexact.
  { unfold exactly_summable, two_records, organized_count. split.
    - repeat constructor; cbn; lia.
    - repeat split; vm_compute; discriminate. }
  split; [exact Hexact|].
  destruct (generateSummary_totals two_records Hexact) as [Hsum _].
  rewrite Hsum. vm_compute. reflexivity.
Defined.

(** Beyond [2^53] a sum is rounded: [2^53] bytes and one more byte are
    summed up to [2^53] bytes. *)
Example summary_rounds_large_totals :
  total spaceSaved huge_records = 2 ^ 53 + 1 /\
  totalSpace (generateSummary huge_records) = 2 ^ 53.
Proof. split; vm_compute; reflexivity. Qed.

(** ** Tasks selected on the command line *)

Section CommandLine.
Context {FS : Type}.
Variable cleaners : Cleaners FS.

Lemma bind_ret_unit {S A B : Type} (task : M S A) (k : M S B) (s : S) :
  ((task ;; ret tt) ;; k) s = (task ;; k) s.
Proof. unfold bind, ret. destruct (task s) as [[[a|e] s']|]; reflexivity. Qed.

(** X19. The tasks named by flags on the command line run in the fixed
    order temp, cache, browsers, trash, downloads, large files, each at
    most once and whatever the order of the flags; with all six flags
    set, the run does to the file system and to the list of results
    exactly what [runAllTasks] does. *)
Theorem selected_tasks_run_in_fixed_order (options : Options) (m : Manager FS) :
  runSpecificTasks cleaners (specificTasks options) m
  = (run_if (opt_temp options) (CleanupManager.cleanTempFiles cleaners) ;;
     run_if (opt_cache options) (CleanupManager.cleanCacheFiles cleaners) ;;
     run_if (opt_browsers options) (CleanupManager.cleanBrowserCaches cleaners) ;;
     run_if (opt_trash options) (CleanupManager.emptyTrash cleaners) ;;
     run_if (opt_downloads options) (CleanupManager.organizeDownloads cleaners) ;;
     run_if (opt_largeFiles options) (CleanupManager.findLargeFiles cleaners) ;;
     ret tt) m /\
  runSpecificTasks cleaners (specificTasks (mkOptions true true true true true true)) m
  = CleanupManager.runAllTasks cleaners m.
Proof.
  split.
  - destruct options as [[] [] [] [] [] []];
      cbn [specificTasks List.filter option_set String.eqb Ascii.eqb Bool.eqb
             opt_temp opt_cache opt_browsers opt_trash opt_downloads opt_largeFiles
             runSpecificTasks for_of run_if];
      unfold runSpecificTask; cbn [String.eqb Ascii.eqb Bool.eqb];
      unfold bind, ret;
      repeat match goal with
             | |- context [match ?task m with _ => _ end] => destruct (task m) as [[[]]|]
             | |- context [match ?task ?x with _ => _ end] =>
                 is_var x; destruct (task x) as [[[]]|]
             end;
      reflexivity.
  - cbn [specificTasks List.filter option_set String.eqb Ascii.eqb Bool.eqb
           opt_temp opt_cache opt_browsers opt_trash opt_downloads opt_largeFiles
           runSpecificTasks for_of].
    unfold runSpecificTask, CleanupManager.runAllTasks. cbn [String.eqb Ascii.eqb Bool.eqb].
    unfold bind, ret.
    repeat match goal with
           | |- context [match ?task m with _ => _ end] => destruct (task m) as [[[]]|]
           | |- context [match ?task ?x with _ => _ end] =>
               is_var x; destruct (task x) as [[[]]|]
           end;
    reflexivity.
Qed.

End CommandLine.

(** ** Names the organizer gives *)

Lemma string_length_app (a b : string) :
  String.length (a +:+ b) = (String.length a + String.length b)%nat.
Proof.
  induction a as [|c a IH]; [reflexivity|].
  change (String c a +:+ b) with (String c (a +:+ b)). simpl. rewrite IH. reflexivity.
Qed.

Lemma last_dot_app (a b : string) :
  last_dot (a +:+ b) =
  match last_dot b with
  | Some j => Some (String.length a + j)%nat
  | None => last_dot a
  end.
Proof.
  induction a as [|c a IH].
  - change ("" +:+ b) with b. destruct (last_dot b); reflexivity.
  - change (String c a +:+ b) with (String c (a +:+ b)). cbn [last_dot]. rewrite IH.
    destruct (last_dot b); reflexivity.
Qed.

Lemma last_dot_bound (s : string) (i : nat) :
  last_dot s = Some i -> (i < String.length s)%nat.
Proof.
  revert i. induction s as [|c s IH]; intros i; simpl; [discriminate|].
  destruct (last_dot s) as [j|].
  - intros E. inversion E. specialize (IH j eq_refl). lia.
  - destruct (Ascii.eqb c "."); [|discriminate]. intros E. inversion E. lia.
Qed.

Lemma last_dot_drop (s : string) (i : nat) :
  last_dot s = Some i -> last_dot (string_drop i s) = Some O.
Proof.
  revert i. induction s as [|c s IH]; intros i; simpl; [discriminate|].
  destruct (last_dot s) as [j|] eqn:Edot.
  - intros E. inversion E. simpl. apply IH. reflexivity.
  - destruct (Ascii.eqb c ".") eqn:Ec; [|discriminate]. intros E. inversion E.
    simpl. rewrite Edot, Ec. reflexivity.
Qed.

Lemma string_drop_app (a b : string) : string_drop (String.length a) (a +:+ b) = b.
Proof.
  induction a as [|c a IH]; [destruct b; reflexivity|].
  change (String c a +:+ b) with (String c (a +:+ b)). exact IH.
Qed.

Lemma string_take_drop (n : nat) (s : string) : string_take n s +:+ string_drop n s = s.
Proof.
  revert s. induction n as [|n IH]; intros s; [destruct s; reflexivity|].
  destruct s as [|c s]; [reflexivity|]. cbn [string_take string_drop].
  change (String c (string_take n s) +:+ string_drop n s)
    with (String c (string_take n s +:+ string_drop n s)).
  f_equal. apply IH.
Qed.

Lemma string_drop_length (n : nat) (s : string) :
  String.length (string_drop n s) = (String.length s - n)%nat.
Proof.
  revert s. induction n as [|n IH]; intros s; [destruct s; simpl; lia|].
  destruct s as [|c s]; [reflexivity|]. simpl. apply IH.
Qed.

(** An extension that is not empty starts at the last dot of the name. *)
Lemma extname_nonempty (base : string) :
  extname base <> "" ->
  exists i, last_dot base = Some (S i) /\ extname base = string_drop (S i) base.
Proof.
  unfold extname.
  destruct (last_dot base) as [[|i]|]; try congruence.
  destruct (String.eqb base ".."); [congruence|]. intros _. exists i. split; reflexivity.
Qed.

Lemma extname_after_stem (stem ext : string) :
  last_dot ext = Some O -> (2 <= String.length stem)%nat ->
  extname (stem +:+ ext) = ext.
Proof.
  intros Hdot Hstem. unfold extname. rewrite last_dot_app, Hdot, Nat.add_0_r.
  destruct (String.length stem) as [|n] eqn:Elen; [lia|].
  destruct (String.eqb_spec (stem +:+ ext) "..") as [Heq|_].
  - apply (f_equal String.length) in Heq. rewrite string_length_app in Heq.
    apply last_dot_bound in Hdot. simpl in Heq. lia.
  - rewrite <- Elen. apply string_drop_app.
Qed.

Lemma numbered_name_keeps_extension (fileName : string) (counter : nat) :
  extname fileName <> "" ->
  extname (parse_name fileName +:+ " (" +:+ show_nat counter +:+ ")" +:+ extname fileName)
  = extname fileName.
Proof.
  intros Hext. destruct (extname_nonempty fileName Hext) as (i & Hdot & Hdrop).
  rewrite !string_app_assoc. apply extname_after_stem.
  - rewrite Hdrop. apply last_dot_drop, Hdot.
  - rewrite !string_length_app. simpl. lia.
Qed.

Section UniqueNames.
Context {FS : Type} `{NodeFS FS}.
Variable platform : Platform.

Lemma probeUniqueName_keeps_extension (dirPath fileName : string) (w w' : World FS)
    (unique : string) :
  extname fileName <> "" ->
  forall (fuel counter : nat) (current : string),
    extname current = extname fileName ->
    probeUniqueName platform fuel dirPath (parse_name fileName) (extname fileName)
      counter current w = Some (Ok unique, w') ->
    extname unique = extname fileName.
Proof.
  intros Hext. induction fuel as [|fuel IH]; intros counter current Hcurrent;
    cbn [probeUniqueName]; [discriminate|].
  unfold bind. rewrite pathExists_eq.
  destruct (fs_access _ F_OK (fs w)).
  - apply IH. apply numbered_name_keeps_extension, Hext.
  - unfold ret. intros E. inversion E; subst. exact Hcurrent.
Qed.

(** X20. The name [generateUniqueFileName] settles on has the extension
    of the file it renames, whenever that extension is not empty (the
    only case in which the organizer calls it), so a renamed download
    still belongs to the category it was filed in; and the stem and the
    extension it works with put together give the file name back. *)
Theorem renamed_download_keeps_extension (budget : nat) (dirPath fileName unique : string)
    (w w' : World FS) :
  extname fileName <> "" ->
  generateUniqueFileName platform budget dirPath fileName w = Some (Ok unique, w') ->
  extname unique = extname fileName /\
  parse_name fileName +:+ extname fileName = fileName.
Proof.
  intros Hext Hunique. split.
  - unfold generateUniqueFileName in Hunique.
    exact (probeUniqueName_keeps_extension dirPath fileName w w' unique Hext
             budget 1%nat fileName eq_refl Hunique).
  - destruct (extname_nonempty fileName Hext) as (i & Hdot & Hdrop).
    unfold parse_name. rewrite Hdrop, string_drop_length.
    pose proof (last_dot_bound _ _ Hdot) as Hbound.
    replace (String.length fileName - (String.length fileName - S i))%nat with (S i) by lia.
    apply string_take_drop.
Qed.

End UniqueNames.

(** In [downloads_world] the names [photo.jpg] and [photo (1).jpg] are
    taken in [Images]. *)
Lemma renamed_download_keeps_extension_witness :
  extname "photo.jpg" <> "" /\
  generateUniqueFileName linux_box 5 "/home/u/Downloads/Images" "photo.jpg" downloads_world
  = Some (Ok "photo (2).jpg", downloads_world) /\
  extname "photo (2).jpg" = extname "photo.jpg" /\
  parse_name "photo.jpg" +:+ extname "photo.jpg" = "photo.jpg".
Proof.
  assert (extname "photo.jpg" <> "") as Hext by (vm_compute; discriminate).
  assert (generateUniqueFileName linux_box 5 "/home/u/Downloads/Images" "photo.jpg"
            downloads_world = Some (Ok "photo (2).jpg", downloads_world)) as Hunique
    by (vm_compute; reflexivity).
  split; [exact Hext|]. split; [exact Hunique|].
  exact (renamed_download_keeps_extension linux_box 5 "/home/u/Downloads/Images" "photo.jpg"
           "photo (2).jpg" downloads_world downloads_world Hext Hunique).
Defined.

(** ** What the organizer does to the file system *)

Lemma no_separator_app (os : OS) (a b : string) :
  no_separator os (a +:+ b) = no_separator os a && no_separator os b.
Proof.
  unfold no_separator. induction a as [|c a IH]; [reflexivity|].
  change (String c a +:+ b) with (String c (a +:+ b)). cbn [list_ascii_of_string forallb].
  rewrite IH. apply andb_assoc.
Qed.

Lemma no_separator_basename_from (os : OS) (p current : string) :
  no_separator os current = true -> no_separator os (basename_from os p current) = true.
Proof.
  revert current. induction p as [|c p IH]; intros current Hcurrent; cbn [basename_from];
    [exact Hcurrent|].
  destruct (is_sep os c) eqn:Ec; apply IH; [reflexivity|].
  rewrite no_separator_app, Hcurrent. unfold no_separator.
  cbn [list_ascii_of_string forallb]. rewrite Ec. reflexivity.
Qed.

Lemma no_separator_take (os : OS) (n : nat) (s : string) :
  no_separator os s = true -> no_separator os (string_take n s) = true.
Proof.
  unfold no_separator. revert s. induction n as [|n IH]; intros [|c s]; try reflexivity.
  cbn [string_take list_ascii_of_string forallb]. intros Hs.
  apply andb_true_iff in Hs as [Hc Hs]. rewrite Hc. apply IH, Hs.
Qed.

Lemma no_separator_drop (os : OS) (n : nat) (s : string) :
  no_separator os s = true -> no_separator os (string_drop n s) = true.
Proof.
  unfold no_separator. revert s. induction n as [|n IH]; intros [|c s]; try (intros Hs; exact Hs).
  cbn [string_drop list_ascii_of_string forallb]. intros Hs.
  apply andb_true_iff in Hs as [_ Hs]. apply IH, Hs.
Qed.

Lemma no_separator_extname (os : OS) (base : string) :
  no_separator os base = true -> no_separator os (extname base) = true.
Proof.
  intros Hbase. unfold extname.
  destruct (last_dot base) as [[|i]|]; try reflexivity.
  destruct (String.eqb base ".."); [reflexivity|]. apply no_separator_drop, Hbase.
Qed.

Lemma no_separator_digits (os : OS) (d : Decimal.uint) :
  no_separator os (NilEmpty.string_of_uint d) = true.
Proof.
  induction d; cbn [NilEmpty.string_of_uint]; try reflexivity;
    unfold no_separator in *; cbn [list_ascii_of_string forallb]; rewrite IHd;
    destruct os; reflexivity.
Qed.

Lemma no_separator_show_nat (os : OS) (n : nat) : no_separator os (show_nat n) = true.
Proof.
  unfold show_nat, NilZero.string_of_uint.
  destruct (Nat.to_uint n); try apply no_separator_digits.
  destruct os; reflexivity.
Qed.

(** The names the organizer moves a file to are names of one entry. *)
Lemma plain_candidate (os : OS) (fileName : string) (n : nat) :
  extname fileName <> "" ->
  startsWith fileName "." = false ->
  no_separator os fileName = true ->
  plain_segment os (candidate fileName n) = true.
Proof.
  intros Hext Hdot Hplain. unfold plain_segment. destruct n as [|n]; cbn [candidate].
  - rewrite Hplain.
    destruct (String.eqb_spec fileName "") as [->|_]; [exfalso; apply Hext; reflexivity|].
    destruct (String.eqb_spec fileName ".") as [->|_]; [discriminate Hdot|].
    destruct (String.eqb_spec fileName "..") as [->|_]; [discriminate Hdot|].
    reflexivity.
  - set (name := parse_name fileName +:+ " (" +:+ show_nat (S n) +:+ ")" +:+ extname fileName).
    assert (3 <= String.length name)%nat as Hlong.
    { unfold name. rewrite !string_length_app. simpl. lia. }
    assert (no_separator os name = true) as Hname.
    { unfold name. rewrite !no_separator_app.
      assert (no_separator os (parse_name fileName) = true) as ->
        by (apply no_separator_take, Hplain).
      rewrite (no_separator_extname os _ Hplain), no_separator_show_nat.
      destruct os; reflexivity. }
    rewrite Hname.
    destruct (String.eqb_spec name "") as [E|_]; [rewrite E in Hlong; simpl in Hlong; lia|].
    destruct (String.eqb_spec name ".") as [E|_]; [rewrite E in Hlong; simpl in Hlong; lia|].
    destruct (String.eqb_spec name "..") as [E|_]; [rewrite E in Hlong; simpl in Hlong; lia|].
    reflexivity.
Qed.

Lemma toLowerCase_nonempty (s : string) : toLowerCase s <> "" -> s <> "".
Proof. intros Hlower ->. apply Hlower. reflexivity. Qed.

Section Organizer.
Context {FS : Type} `{NodeFS FS}.
Variable config : CleanupConfig.
Variable dryRun : bool.
Variable platform : Platform.
Variable budget : nat.

#[local] Hint Resolve preserves_stat preserves_access preserves_readdir preserves_glob
  preserves_getErrors preserves_errors_push preserves_clearErrors
  preserves_getFileSize preserves_pathExists preserves_isDirectoryEmpty
  preserves_isFileOldEnough preserves_findFiles preserves_findDirectories
  preserves_getDirectorySize preserves_probeUniqueName : frame.

Lemma firstCategory_listed (entries : list (string * list string)) (extension category : string) :
  firstCategory entries extension = Some category -> In category (map fst entries).
Proof.
  induction entries as [|[c extensions] rest IH]; simpl; [discriminate|].
  destruct (bool_decide (extension ∈ extensions)).
  - intros E. inversion E. left. reflexivity.
  - intros E. right. apply IH, E.
Qed.

Lemma evolves_bind_with {S T A B : Type} (R : relation T) `{!PreOrder R} (proj : S -> T)
    (P : A -> Prop) (m : M S A) (k : A -> M S B) :
  (forall s a s', m s = Some (Ok a, s') -> P a) ->
  evolves R proj m ->
  (forall a, P a -> evolves R proj (k a)) ->
  evolves R proj (bind m k).
Proof.
  intros HP Hm Hk s r s' E. unfold bind in E.
  destruct (m s) as [[[a|e] s1]|] eqn:Em; try discriminate.
  - transitivity (proj s1); [eapply Hm, Em|]. eapply (Hk a); [eapply HP, Em|exact E].
  - inversion E; subst. eapply Hm, Em.
Qed.

Lemma evolves_for_of_In {S T A : Type} (R : relation T) `{!PreOrder R} (proj : S -> T)
    (xs : list A) (body : A -> M S unit) :
  (forall x, In x xs -> evolves R proj (body x)) -> evolves R proj (for_of xs body).
Proof.
  induction xs as [|x xs IH]; intros Hb; cbn [for_of].
  - apply evolves_ret. exact _.
  - apply evolves_bind; [exact _|apply Hb; left; reflexivity|].
    intros _. apply IH. intros y Hy. apply Hb. right. exact Hy.
Qed.

Lemma probeUniqueName_names (dirPath name ext : string) (w w' : World FS) (unique : string) :
  forall (fuel counter : nat) (current : string),
    probeUniqueName platform fuel dirPath name ext counter current w = Some (Ok unique, w') ->
    exists j, unique = next_name name ext counter current j.
Proof.
  induction fuel as [|fuel IH]; intros counter current; cbn [probeUniqueName]; [discriminate|].
  unfold bind. rewrite pathExists_eq.
  destruct (fs_access _ F_OK (fs w)).
  - intros E. destruct (IH _ _ E) as [j Hj]. exists (S j).
    rewrite Hj. apply next_name_shift.
  - unfold ret. intros E. inversion E; subst. exists O. reflexivity.
Qed.

Lemma evolves_organizeFile (filePath downloads : string) (listing : list string) :
  In filePath listing ->
  evolves (only_filings config platform downloads listing) (@fs FS)
    (organizeFile config dryRun platform budget filePath downloads).
Proof.
  intros Hlisted.
  unfold organizeFile. apply evolves_try_catch; [typeclasses eauto| |intros error; evolve].
  cbv zeta.
  set (os := getOS platform). set (fileName := basename os filePath).
  destruct (String.eqb _ "" || startsWith _ ".") eqn:Eguard; [evolve|].
  apply orb_false_iff in Eguard as [Eext Ehidden]. apply String.eqb_neq in Eext.
  apply toLowerCase_nonempty in Eext.
  assert (no_separator os fileName = true) as Hplain
    by (apply no_separator_basename_from; reflexivity).
  destruct (getCategoryForExtension config _) as [category|] eqn:Ecategory; [|evolve].
  destruct (String.eqb category "") eqn:Ename; [evolve|].
  apply String.eqb_neq in Ename. apply firstCategory_listed in Ecategory.
  assert (evolves (only_filings config platform downloads listing) (@fs FS)
            (ensureDir (path_join os downloads category))) as Hensure.
  { intros w r w' E. unfold ensureDir, write in E.
    destruct (fs_ensureDir _ (fs w)) as [r1 disk] eqn:Eensure. inversion E; subst.
    apply rtc_once. exists category. split; [exact Ecategory|]. split; [exact Ename|].
    left. cbn [fs]. fold os. rewrite Eensure. reflexivity. }
  assert (forall n,
            evolves (only_filings config platform downloads listing) (@fs FS)
              (move filePath
                 (path_join os (path_join os downloads category) (candidate fileName n))))
    as Hmove.
  { intros n w r w' E. unfold move, write in E.
    destruct (fs_move _ _ (fs w)) as [r1 disk] eqn:Emove. inversion E; subst.
    apply rtc_once. exists category. split; [exact Ecategory|]. split; [exact Ename|].
    right. exists filePath, n. split; [exact Hlisted|].
    fold os. fold fileName. split; [exact (plain_candidate os fileName n Eext Ehidden Hplain)|].
    cbn [fs]. rewrite Emove. reflexivity. }
  apply evolves_bind; [typeclasses eauto|destruct dryRun; [evolve|exact Hensure]|intros _].
  apply evolves_bind; [typeclasses eauto|evolve|intros taken].
  apply evolves_bind; [typeclasses eauto| |intros _; evolve].
  destruct taken.
  - apply (evolves_bind_with _ _ (fun unique => exists n, unique = candidate fileName n)).
    + intros w unique w' E. unfold generateUniqueFileName in E.
      destruct (probeUniqueName_names _ _ _ _ _ _ _ _ _ E) as [j ->].
      exists j. apply candidate_next_name.
    + unfold generateUniqueFileName. evolve.
    + intros unique [n ->]. destruct dryRun; [evolve|apply Hmove].
  - destruct dryRun; [evolve|exact (Hmove O)].
Qed.

Lemma findFiles_listing (downloads : string) (w : World FS) :
  exists w1,
    findFiles config [path_join (getOS platform) downloads "*"] [] w
    = Some (Ok (downloads_listing config platform downloads (fs w)), w1) /\
    fs w1 = fs w.
Proof.
  unfold findFiles, downloads_listing, try_catch, bind, glob. cbv zeta.
  cbn [map app]. fold (map normalizeSlashes).
  destruct (fast_glob _ _ onlyFiles (fs w)) as [files|error].
  - exists w. split; reflexivity.
  - eexists. split; reflexivity.
Qed.

Lemma evolves_organize (w w' : World FS) (r : Result CleanupResult) :
  organize config dryRun platform budget w = Some (r, w') ->
  only_filings config platform (downloadsPath config)
    (downloads_listing config platform (downloadsPath config) (fs w)) (fs w) (fs w').
Proof.
  set (downloads := downloadsPath config).
  set (listing := downloads_listing config platform downloads (fs w)).
  assert (forall (w0 w1 : World FS) (count : Z) (body_result : Result unit) (count' : Z),
            for_of listing
              (fun file =>
                 organized <- lift (organizeFile config dryRun platform budget file downloads) ;;
                 if organized : bool then local_modify (fun n => n + 1) else ret tt)
              (w0, count) = Some (body_result, (w1, count')) ->
            only_filings config platform downloads listing (fs w0) (fs w1)) as Hloop.
  { intros w0 w1 count body_result count' E.
    refine (evolves_for_of_In (only_filings config platform downloads listing)
              (fun sl : World FS * Z => fs (fst sl)) listing _ _ (w0, count) body_result
              (w1, count') E).
    intros file Hfile. apply evolves_bind; [typeclasses eauto| |intros organized].
    - apply evolves_lift. apply evolves_organizeFile, Hfile.
    - destruct organized; evolve. }
  unfold organize. fold downloads. unfold bind at 1. unfold clearErrors at 1.
  destruct (negb (enabled (organizeDownloads config))).
  { unfold ret. intros E. inversion E; subst. reflexivity. }
  unfold bind at 1. rewrite pathExists_eq. cbn [fs].
  destruct (fs_access downloads F_OK (fs w)); cbn [negb].
  2:{ unfold bind, errors_push, getErrors, ret. intros E. inversion E; subst. reflexivity. }
  unfold bind at 1.
  match goal with
  | |- match with_locals 0 ?body ?w0 with _ => _ end = _ -> _ =>
      destruct (with_locals 0 body w0) as [[r1 w1]|] eqn:Ebody
  end.
  2:{ discriminate. }
  assert (only_filings config platform downloads listing (fs w) (fs w1)) as Hfiled.
  { unfold with_locals in Ebody.
    match type of Ebody with
    | match ?body ?s0 with _ => _ end = _ => destruct (body s0) as [[r2 [w2 n2]]|] eqn:E2
    end; [|discriminate].
    inversion Ebody; subst. clear Ebody.
    unfold bind at 1 in E2. unfold try_catch at 1 in E2. unfold bind at 1 in E2.
    unfold lift at 1 in E2. cbn [fst snd] in E2.
    destruct (findFiles_listing downloads (mkWorld (fs w) [])) as (w0 & Efind & Hw0).
    fold downloads in Efind. rewrite Efind in E2. cbn [fs] in Hw0, E2. fold listing in E2.
    match type of E2 with
    | match match for_of listing ?body ?s0 with _ => _ end with _ => _ end = _ =>
        destruct (for_of listing body s0) as [[[[]|error] [w3 n3]]|] eqn:E3
    end; try discriminate.
    - apply Hloop in E3. rewrite Hw0 in E3.
      unfold local_get in E2. inversion E2; subst. exact E3.
    - apply Hloop in E3. rewrite Hw0 in E3.
      unfold lift, errors_push, local_get in E2. cbn [fst snd] in E2.
      inversion E2; subst. exact E3. }
  destruct r1 as [n|error]; unfold bind, getErrors, ret; intros E; inversion E; subst;
    exact Hfiled.
Qed.

End Organizer.

(** X14. For a downloads folder given by a path in normal form and
    category names that are each empty or the name of one entry: the
    organizer never removes anything, and every change it makes to the
    file system is the creation of the directory of a configured,
    non-empty category inside the downloads folder, or the move of one
    of the files its search of that folder answered into such a
    directory, under the file's own name or that name with a counter
    before the extension, a name of one entry of that directory. *)
Theorem organizer_only_files_into_categories {FS : Type} `{NodeFS FS}
    (config : CleanupConfig) (dryRun : bool) (platform : Platform) (budget : nat)
    (w w' : World FS) (r : Result CleanupResult) :
  let os := getOS platform in
  let downloads := downloadsPath config in
  normal_path os downloads = true ->
  Forall (fun category => category = "" \/ plain_segment os category = true)
    (map fst (categories (organizeDownloads config))) ->
  organize config dryRun platform budget w = Some (r, w') ->
  only_filings config platform downloads
    (downloads_listing config platform downloads (fs w)) (fs w) (fs w').
Proof.
  intros os downloads _ _ Hrun. exact (evolves_organize config dryRun platform budget w w' r Hrun).
Qed.

(** A live run on [downloads_world]. *)
Lemma organizer_only_files_into_categories_witness :
  normal_path linux "/home/u/Downloads" = true /\
  downloads_listing plain_config linux_box "/home/u/Downloads" (fs downloads_world)
  = ["/home/u/Downloads/photo.jpg"] /\
  match organize plain_config false linux_box 5 downloads_world with
  | Some (_, w') =>
      only_filings plain_config linux_box "/home/u/Downloads" ["/home/u/Downloads/photo.jpg"]
        (fs downloads_world) (fs w')
  | None => False
  end.
Proof.
  assert (normal_path linux "/home/u/Downloads" = true) as Hnormal by (vm_compute; reflexivity).
  assert (downloads_listing plain_config linux_box "/home/u/Downloads" (fs downloads_world)
          = ["/home/u/Downloads/photo.jpg"]) as Hlisting by (vm_compute; reflexivity).
  split; [exact Hnormal|]. split; [exact Hlisting|].
  destruct (organize plain_config false linux_box 5 downloads_world) as [[r w']|] eqn:Erun.
  - rewrite <- Hlisting.
    apply (organizer_only_files_into_categories plain_config false linux_box 5
             downloads_world w' r Hnormal); [|exact Erun].
    repeat constructor; right; vm_compute; reflexivity.
  - vm_compute in Erun. discriminate Erun.
Defined.

(** ** The roots the cleaners start from *)

Lemma filter_truthy_In (p : string) (paths : list string) :
  In p (filter_truthy paths) <-> p <> "" /\ In p paths.
Proof.
  unfold filter_truthy. rewrite <- !list_elem_of_In, list_elem_of_filter. reflexivity.
Qed.

(** X21. On Windows an environment variable that is not set is read as
    the empty string and joined with the rest of the path, so the roots
    built from it are relative paths, which the file system resolves
    against the working directory; they are not dropped. Without
    [LOCALAPPDATA], [Temp] is a root of the temp cleaner and [npm-cache]
    one of the cache cleaner; without [APPDATA], [Local\Temp] is a root
    of the temp cleaner. *)
Theorem unset_environment_gives_relative_roots (config : CleanupConfig) (platform : Platform) :
  getOS platform = windows ->
  (env_LOCALAPPDATA platform = "" ->
   In "Temp" (getTempPaths config platform) /\
   In "npm-cache" (CacheCleaner.getCachePaths config platform)) /\
  (env_APPDATA platform = "" ->
   In "Local\Temp" (getTempPaths config platform)).
Proof.
  intros Hos. split.
  - intros Henv. split; apply filter_truthy_In; (split; [discriminate|]);
      rewrite Hos, Henv; apply in_or_app; left; cbn; tauto.
  - intros Henv. apply filter_truthy_In. split; [discriminate|].
    rewrite Hos, Henv. apply in_or_app. left. cbn. tauto.
Qed.

(** The roots on [bare_windows_box]. *)
Lemma unset_environment_gives_relative_roots_witness :
  getOS bare_windows_box = windows /\
  getTempPaths plain_config bare_windows_box
  = ["C:\Users\u\AppData\Local\Temp"; "Temp"; "Local\Temp"; "C:\Windows\Temp";
     "C:\Windows\SoftwareDistribution\Download"; "C:\Windows\Prefetch"] /\
  In "Temp" (getTempPaths plain_config bare_windows_box) /\
  In "npm-cache" (CacheCleaner.getCachePaths plain_config bare_windows_box) /\
  In "Local\Temp" (getTempPaths plain_config bare_windows_box).
Proof.
  assert (getOS bare_windows_box = windows) as Hos by reflexivity.
  split; [exact Hos|]. split; [reflexivity|].
  destruct (unset_environment_gives_relative_roots plain_config bare_windows_box Hos)
    as [Hlocal Hroaming].
  destruct (Hlocal eq_refl) as [Htemp Hnpm].
  split; [exact Htemp|]. split; [exact Hnpm|]. exact (Hroaming eq_refl).
Defined.

(** ** Where error messages come from *)

Lemma startsWith_app (a b : string) : startsWith (a +:+ b) a = true.
Proof.
  unfold startsWith. induction a as [|c a IH]; [destruct b; reflexivity|].
  change (String c a +:+ b) with (String c (a +:+ b)). cbn [String.prefix].
  destruct (ascii_dec c c) as [_|Hne]; [exact IH|contradiction].
Qed.

#[local] Instance only_primitive_failures_preorder : PreOrder only_primitive_failures.
Proof.
  split.
  - intros errs Herrs. exact Herrs.
  - intros a b c Hab Hbc Ha. apply Hbc, Hab, Ha.
Qed.

(** A [try] whose body never throws never runs its handler. *)
Lemma evolves_try_catch_dead {S T A : Type} (R : relation T) (proj : S -> T)
    (body : M S A) (handler : exn -> M S A) :
  returns body -> evolves R proj body -> evolves R proj (try_catch body handler).
Proof.
  intros Hreturns Hbody s r s' E. unfold try_catch in E.
  destruct (body s) as [[[a|e] s1]|] eqn:Eb; try discriminate.
  - inversion E; subst. eapply Hbody, Eb.
  - destruct (Hreturns _ _ _ Eb) as [a Ha]. discriminate.
Qed.

Section ErrorMessages.
Context {FS : Type} `{NodeFS FS}.
Variable config : CleanupConfig.
Variable dryRun : bool.
Variable platform : Platform.
Variable budget : nat.

#[local] Hint Resolve preserves_stat preserves_access preserves_readdir preserves_glob
  preserves_getErrors preserves_getFileSize preserves_pathExists preserves_isDirectoryEmpty
  preserves_isFileOldEnough preserves_getDirectorySize : frame.

#[local] Hint Resolve returns_errors_push returns_clearErrors returns_getErrors
  returns_getFileSize returns_pathExists returns_isDirectoryEmpty
  returns_isFileOldEnough returns_findFiles returns_findDirectories returns_deleteFile
  returns_deleteDirectory returns_cleanTempPath returns_cleanCachePath
  returns_cleanBrowserPaths returns_emptyTrashDirectory returns_cleanTrashPath : throws.

Lemma preserves_errors_write (op : FS -> Result unit * FS) :
  preserves (@errors FS) (write op).
Proof.
  intros w r w' E. unfold write in E. destruct (op (fs w)) as [r1 disk].
  inversion E. reflexivity.
Qed.

Lemma errors_write (op : FS -> Result unit * FS) :
  evolves only_primitive_failures (@errors FS) (write op).
Proof. apply evolves_preserves; [typeclasses eauto|apply preserves_errors_write]. Qed.

#[local] Hint Resolve errors_write : evolves.

Lemma evolves_push_failure (message : string) :
  primitive_failure message ->
  evolves only_primitive_failures (@errors FS) (errors_push message).
Proof.
  intros Hmessage w r w' E Herrs. unfold errors_push in E. inversion E. cbn [errors].
  apply Forall_app. split; [exact Herrs|]. constructor; [exact Hmessage|constructor].
Qed.

Lemma errors_deleteFile (p : string) :
  evolves only_primitive_failures (@errors FS) (deleteFile dryRun p).
Proof.
  unfold deleteFile, remove. evolve.
  apply evolves_push_failure. left. apply startsWith_app.
Qed.

Lemma errors_deleteDirectory (p : string) :
  evolves only_primitive_failures (@errors FS) (deleteDirectory dryRun platform budget p).
Proof.
  unfold deleteDirectory, remove. evolve.
  apply evolves_push_failure. left.
  match goal with
  | |- startsWith (_ +:+ ?rest) _ = true =>
      exact (startsWith_app "Failed to delete " ("directory " +:+ rest))
  end.
Qed.

Lemma errors_findFiles (patterns excludes : list string) :
  evolves only_primitive_failures (@errors FS) (findFiles config patterns excludes).
Proof.
  unfold findFiles. evolve. apply evolves_push_failure. right.
  match goal with
  | |- startsWith (_ +:+ ?rest) _ = true =>
      exact (startsWith_app "Failed to find " ("files: " +:+ rest))
  end.
Qed.

Lemma errors_findDirectories (patterns excludes : list string) :
  evolves only_primitive_failures (@errors FS) (findDirectories config patterns excludes).
Proof.
  unfold findDirectories. evolve. apply evolves_push_failure. right.
  match goal with
  | |- startsWith (_ +:+ ?rest) _ = true =>
      exact (startsWith_app "Failed to find " ("directories: " +:+ rest))
  end.
Qed.

#[local] Hint Resolve errors_deleteFile errors_deleteDirectory errors_findFiles
  errors_findDirectories : evolves.

(** As [evolve], but a [try] is first shown never to reach its handler. *)
Ltac evolve_quietly :=
  repeat first
    [ apply evolves_try_catch_dead; [ solve [ never_throws ] | ]
    | evolve_step ];
  eauto with evolves.

Lemma errors_cleanTempPath (tempPath : string) :
  evolves only_primitive_failures (@errors FS)
    (cleanTempPath config dryRun platform budget tempPath).
Proof.
  unfold cleanTempPath, cleanTempFile, TempCleaner.cleanEmptyDirectory. evolve_quietly.
Qed.

Lemma errors_cleanCachePath (cachePath : string) :
  evolves only_primitive_failures (@errors FS)
    (CacheCleaner.cleanCachePath config dryRun platform budget cachePath).
Proof.
  unfold CacheCleaner.cleanCachePath, CacheCleaner.cleanCacheFile,
    CacheCleaner.cleanEmptyDirectory.
  evolve_quietly.
Qed.

Lemma errors_cleanBrowserPaths (paths : list string) (name : string) :
  evolves only_primitive_failures (@errors FS)
    (BrowserCleaner.cleanBrowserPaths config dryRun platform budget paths name).
Proof.
  unfold BrowserCleaner.cleanBrowserPaths, BrowserCleaner.cleanBrowserFile. evolve_quietly.
Qed.

Lemma errors_cleanLinuxTrash (trashPath : string) :
  evolves only_primitive_failures (@errors FS)
    (cleanLinuxTrash config dryRun platform budget trashPath).
Proof. unfold cleanLinuxTrash, deleteAndCount, removeIfEmpty. evolve_quietly. Qed.

Lemma errors_cleanWindowsRecycleBin (trashPath : string) :
  evolves only_primitive_failures (@errors FS)
    (cleanWindowsRecycleBin config dryRun platform budget trashPath).
Proof. unfold cleanWindowsRecycleBin, deleteAndCount, removeIfEmpty. evolve_quietly. Qed.

Lemma returns_cleanLinuxTrash (trashPath : string) :
  returns (cleanLinuxTrash (FS := FS) config dryRun platform budget trashPath).
Proof. unfold cleanLinuxTrash. never_throws. Qed.

Lemma returns_cleanWindowsRecycleBin (trashPath : string) :
  returns (cleanWindowsRecycleBin (FS := FS) config dryRun platform budget trashPath).
Proof. unfold cleanWindowsRecycleBin. never_throws. Qed.

#[local] Hint Resolve returns_cleanLinuxTrash returns_cleanWindowsRecycleBin : throws.
#[local] Hint Resolve errors_cleanLinuxTrash errors_cleanWindowsRecycleBin : evolves.

Lemma errors_emptyTrashDirectory (trashPath : string) :
  evolves only_primitive_failures (@errors FS)
    (emptyTrashDirectory config dryRun platform budget trashPath).
Proof. unfold emptyTrashDirectory, deleteAndCount, removeIfEmpty. evolve_quietly. Qed.

#[local] Hint Resolve errors_emptyTrashDirectory : evolves.

Lemma errors_cleanTrashPath (trashPath : string) :
  evolves only_primitive_failures (@errors FS)
    (cleanTrashPath config dryRun platform budget trashPath).
Proof. unfold cleanTrashPath. evolve_quietly. Qed.

#[local] Hint Resolve errors_cleanTempPath errors_cleanCachePath errors_cleanBrowserPaths
  errors_cleanTrashPath : evolves.

(** The shape the four cleaners share: reset the errors, run, read the
    errors into the record. *)
Lemma reported_errors (run : M (World FS) Counts) (name : string)
    (w w' : World FS) (result : CleanupResult) :
  evolves only_primitive_failures (@errors FS) run ->
  (clearErrors ;;
   totals <- run ;;
   errs <- getErrors ;;
   ret (mkResult name (c_filesDeleted totals) (c_spaceSaved totals) None None errs)) w
  = Some (Ok result, w') ->
  Forall primitive_failure (result_errors result).
Proof.
  intros Hrun. unfold bind at 1, clearErrors. unfold bind at 1.
  destruct (run (mkWorld (fs w) [])) as [[[totals|error] w1]|] eqn:Erun; try discriminate.
  unfold bind, getErrors, ret. intros E. inversion E; subst. cbn [result_errors].
  apply (Hrun _ _ _ Erun). constructor.
Qed.

(** X22. Every message in the error list of a record the temp, cache,
    browser or trash cleaner returns was recorded by [deleteFile],
    [deleteDirectory], [findFiles] or [findDirectories] and names the
    path or the search that failed. The [catch] blocks of the cleaners
    themselves are never entered, since nothing inside their [try]
    blocks can throw, so their messages ([Error cleaning temp path ...]
    and the like) never appear. *)
Theorem cleaner_errors_name_the_failed_operation (clean : M (World FS) CleanupResult)
    (w w' : World FS) (result : CleanupResult) :
  In clean [TempCleaner.clean config dryRun platform budget;
            CacheCleaner.clean config dryRun platform budget;
            BrowserCleaner.clean config dryRun platform budget;
            TrashCleaner.clean config dryRun platform budget] ->
  clean w = Some (Ok result, w') ->
  Forall primitive_failure (result_errors result).
Proof.
  intros [<-|[<-|[<-|[<-|[]]]]].
  - unfold TempCleaner.clean. apply reported_errors. evolve_quietly.
  - unfold CacheCleaner.clean. apply reported_errors. evolve_quietly.
  - unfold BrowserCleaner.clean, BrowserCleaner.cleanChrome, BrowserCleaner.cleanFirefox,
      BrowserCleaner.cleanEdge, BrowserCleaner.cleanSafari.
    apply reported_errors. evolve_quietly.
  - unfold TrashCleaner.clean. apply reported_errors. evolve_quietly.
Qed.

End ErrorMessages.

(** The live temp sweep of [readonly_world] fails on the read-only file,
    once for each listing of [/tmp]. *)
Lemma cleaner_errors_name_the_failed_operation_witness :
  TempCleaner.clean plain_config false linux_box 5 readonly_world
  = Some (Ok (mkResult "temp" 0 0 None None locked_twice),
          mkWorld (fs readonly_world) locked_twice) /\
  Forall primitive_failure locked_twice.
Proof.
  assert (TempCleaner.clean plain_config false linux_box 5 readonly_world
          = Some (Ok (mkResult "temp" 0 0 None None locked_twice),
                  mkWorld (fs readonly_world) locked_twice)) as Hrun
    by (vm_compute; reflexivity).
  split; [exact Hrun|].
  exact (cleaner_errors_name_the_failed_operation plain_config false linux_box 5 _
           readonly_world _ _ (or_introl eq_refl) Hrun).
Defined.

(** ** What the organizer reports *)

Section OrganizerReport.
Context {FS : Type} `{NodeFS FS}.
Variable config : CleanupConfig.
Variable dryRun : bool.
Variable platform : Platform.
Variable budget : nat.

Lemma evolves_snd_lift {L A : Type} (R : relation L) `{!Reflexive R} (m : M (World FS) A) :
  evolves R snd (lift (L := L) m).
Proof.
  intros [w l] r [w' l'] E. unfold lift in E. simpl in E.
  destruct (m w) as [[r1 w1]|]; inversion E. reflexivity.
Qed.

(** The value a method ends with, when its body never throws and only
    moves its local along [R]. *)
Lemma local_result {L : Type} (R : relation L) (body : M (World FS * L) unit) (init : L)
    (w w' : World FS) (r : Result L) :
  evolves R snd body -> returns body ->
  with_locals init (body ;; local_get) w = Some (r, w') ->
  exists final, r = Ok final /\ R init final.
Proof.
  intros Hlocal Hreturns. unfold with_locals, bind.
  destruct (body (w, init)) as [[r1 [w1 l1]]|] eqn:Em; [|discriminate].
  destruct (Hreturns _ _ _ Em) as [[] ->].
  apply Hlocal in Em. simpl in Em.
  unfold local_get. intros E. inversion E. exists l1. split; [reflexivity|exact Em].
Qed.

(** X23. The organizer always answers a record of the task [downloads]
    with both deletion counters 0 and a count of organized files that is
    not negative. When organizing is disabled in the configuration, or
    when the downloads folder does not exist, that count is 0, the one
    message of the record says so, and the file system is untouched. *)
Theorem organize_report (w w' : World FS) (r : Result CleanupResult) :
  organize config dryRun platform budget w = Some (r, w') ->
  exists organized messages,
    r = Ok (mkResult "downloads" 0 0 (Some organized) None messages) /\
    0 <= organized /\
    (enabled (organizeDownloads config) = false ->
     organized = 0 /\ messages = ["Downloads organization is disabled in config"] /\
     fs w' = fs w) /\
    (enabled (organizeDownloads config) = true ->
     (exists error, fs_access (downloadsPath config) F_OK (fs w) = Throw error) ->
     organized = 0 /\ messages = ["Downloads folder not found: " +:+ downloadsPath config] /\
     fs w' = fs w).
Proof.
  unfold organize, bind at 1, clearErrors.
  destruct (enabled (organizeDownloads config)); cbn [negb].
  2:{ unfold ret. intros E. inversion E. eexists _, _. split; [reflexivity|].
      split; [lia|]. split; [auto|discriminate]. }
  cbv zeta. unfold bind at 1. rewrite pathExists_eq. cbn [fs].
  destruct (fs_access (downloadsPath config) F_OK (fs w)) as [[]|error] eqn:Eaccess; cbn [negb].
  2:{ unfold bind, errors_push, getErrors, ret. intros E. inversion E.
      eexists _, _. split; [reflexivity|]. split; [lia|]. split; [discriminate|]. auto. }
  unfold bind at 1.
  match goal with
  | |- context [with_locals ?init ?body ?w0] =>
      destruct (with_locals init body w0) as [[counted w1]|] eqn:Ecount; [|discriminate]
  end.
  apply (local_result Z.le) in Ecount.
  - destruct Ecount as (organized & -> & Hle).
    unfold bind, getErrors, ret. intros E. inversion E.
    eexists _, _. split; [reflexivity|]. split; [exact Hle|].
    split; [discriminate|]. intros _ [error Herror]. congruence.
  - apply evolves_try_catch; [typeclasses eauto| |intros error; apply evolves_snd_lift; typeclasses eauto].
    apply evolves_bind; [typeclasses eauto|apply evolves_snd_lift; typeclasses eauto|].
    intros files. apply evolves_for_of; [typeclasses eauto|]. intros file.
    apply evolves_bind; [typeclasses eauto|apply evolves_snd_lift; typeclasses eauto|].
    intros [|]; [|apply evolves_ret; typeclasses eauto].
    intros [w0 n] r0 [w2 n'] E. unfold local_modify in E. inversion E. simpl. lia.
  - apply returns_try_catch. intros error. apply returns_lift, returns_errors_push.
Qed.

End OrganizerReport.

(** The organizer on [downloads_world], live: the one picture is filed
    under a fresh name. *)
Lemma organize_report_witness :
  exists w',
    organize plain_config false linux_box 5 downloads_world
    = Some (Ok (mkResult "downloads" 0 0 (Some 1) None []), w') /\
    exists organized messages,
      Ok (mkResult "downloads" 0 0 (Some 1) None [])
      = Ok (mkResult "downloads" 0 0 (Some organized) None messages) /\
      0 <= organized.
Proof.
  destruct (organize plain_config false linux_box 5 downloads_world)
    as [[r w']|] eqn:Hrun; [|vm_compute in Hrun; discriminate].
  assert (r = Ok (mkResult "downloads" 0 0 (Some 1) None [])) as ->
    by (vm_compute in Hrun; congruence).
  exists w'. split; [reflexivity|].
  destruct (organize_report plain_config false linux_box 5 downloads_world w' _ Hrun)
    as (organized & messages & Hshape & Hcount & _).
  exists organized, messages. split; [exact Hshape|exact Hcount].
Defined.

(** ** Settings no cleaner reads *)

(** X24. The safety settings [confirmDeletions] and [backupBeforeDelete]
    are read by none of the six cleaners: whatever their values, every
    cleaner does the same, so a live run deletes without confirmation
    and without backup even when both are set. [maxFileAge] is read by
    the temp, cache and browser cleaners only: the trash cleaner, the
    organizer and the large-file search ignore it. *)
Theorem safety_settings_are_not_read {FS : Type} `{NodeFS FS} (config : CleanupConfig)
    (confirm backup : bool) (age : Z) (dryRun : bool) (platform : Platform) (budget : nat) :
  engine_cleaners (FS := FS)
    (with_safety_settings confirm backup (maxFileAge config) config) dryRun platform budget
  = engine_cleaners config dryRun platform budget /\
  TrashCleaner.clean (FS := FS) (with_safety_settings confirm backup age config)
    dryRun platform budget
  = TrashCleaner.clean config dryRun platform budget /\
  organize (FS := FS) (with_safety_settings confirm backup age config) dryRun platform budget
  = organize config dryRun platform budget /\
  find (FS := FS) (with_safety_settings confirm backup age config) platform
  = find config platform.
Proof.
  destruct config. repeat split; reflexivity.
Qed.

(** ** Deleting large files interactively *)

(** X25. In interactive mode, ticking large files for deletion and
    confirming deletes nothing, in live mode too: whatever the answers,
    handling the large files leaves the file system as it was, and its
    only effect is the record of the search appended to the results. *)
Theorem interactive_deletion_deletes_nothing {FS : Type} `{NodeFS FS} (config : CleanupConfig)
    (dryRun : bool) (platform : Platform) (budget : nat) (answers : DeleteAnswers)
    (m : Manager FS) :
  handleLargeFiles (engine_cleaners config dryRun platform budget) answers m
  = Some (Ok tt,
          mkManager (m_fs m)
            (results m ++
             [mkResult "largeFiles" 0 0 None
                (Some (sort_by_size (found_files config platform (m_fs m)))) []])).
Proof.
  unfold handleLargeFiles, CleanupManager.findLargeFiles, bind.
  rewrite runTask_eq. unfold task_record. cbn [engine_cleaners LargeFileFinder_run].
  rewrite find_eq. cbn [fs largeFiles].
  destruct (sort_by_size _) as [|entry entries]; [reflexivity|].
  destruct (0 <? length (filesToDelete answers))%nat; [|reflexivity].
  destruct (confirmDelete answers); reflexivity.
Qed.
